(** * Students API (HW12/main.py): authentication, sessions, cache, CRUD

    A shallow embedding of [src/HW12/main.py].  Each class of the source is
    a module here and each method a function of the same name.  The SQL
    tables are lists of rows in rowid order, [query(...).filter(p).first()]
    is the first row satisfying [p], Redis is a finite map from keys to JSON
    values with a deadline, and every source of randomness or time
    ([secrets], [utcnow]) is an explicit argument of the function that
    draws it.  A string is the UTF-8 encoding of the Python [str].  An
    integer is a [Z], as Python's are; where one is bound to an SQL
    statement it has to fit in the 64 bits of SQLite, and the driver raises
    [OverflowError] when it does not. *)

From stdpp Require Import gmap strings list pretty.
From Stdlib Require Import ZArith Lia Ascii.

Local Open Scope string_scope.
Local Open Scope list_scope.
Local Open Scope Z_scope.

(** ** Python results: a value or a raised exception *)

Inductive exn : Type :=
  | ValueError
  | KeyError
  | IndexError
  | TypeError
  | FileNotFoundError
  | IntegrityError
  | OverflowError
  | ResponseValidationError
  | HTTPException (status_code : Z) (detail : string).

Inductive outcome (A : Type) : Type :=
  | Return (a : A)
  | Raise (e : exn).
Arguments Return {A} a.
Arguments Raise {A} e.

#[global] Instance outcome_ret : MRet outcome := λ A a, Return a.
#[global] Instance outcome_bind : MBind outcome := λ A B k m,
  match m with
  | Return a => k a
  | Raise e => Raise e
  end.

(** [try: body except: return dflt] with a bare [except]. *)
Definition try_except_all {A} (body : outcome A) (dflt : A) : outcome A :=
  match body with
  | Return a => Return a
  | Raise _ => Return dflt
  end.

(** ** Strings *)

(** [split_on sep s] is the part of [s] before the first [sep] and the list
    of the parts after it; [split] is Python's [s.split(sep)] for a
    one-character separator. *)
Fixpoint split_on (sep : ascii) (s : string) : string * list string :=
  match s with
  | EmptyString => (EmptyString, [])
  | String c s' =>
      let '(p, ps) := split_on sep s' in
      if Ascii.eqb c sep then (EmptyString, p :: ps) else (String c p, ps)
  end.

Definition split (sep : ascii) (s : string) : list string :=
  let '(p, ps) := split_on sep s in p :: ps.

(** [s.split(sep, 1)]: cut at the first separator only, as the
    specification words it; [None] when there is no separator. *)
Fixpoint split_first (sep : ascii) (s : string) : option (string * string) :=
  match s with
  | EmptyString => None
  | String c s' =>
      if Ascii.eqb c sep then Some (EmptyString, s')
      else prod_map (String c) id <$> split_first sep s'
  end.

Fixpoint count_char (c : ascii) (s : string) : nat :=
  match s with
  | EmptyString => O
  | String d s' => ((if Ascii.eqb d c then 1 else 0) + count_char c s')%nat
  end.

(** White space for [str.split()] without arguments.  A string being the
    UTF-8 encoding of the Python [str], a white-space character is one, two
    or three bytes:
    - U+0009..U+000D, U+001C..U+0020: the byte itself;
    - U+0085, U+00A0: C2 85, C2 A0;
    - U+1680: E1 9A 80;
    - U+2000..U+200A, U+2028, U+2029, U+202F: E2 80 80..8A, A8, A9, AF;
    - U+205F: E2 81 9F;
    - U+3000: E3 80 80. *)
Definition is_space (c : ascii) : bool :=
  let n := N_of_ascii c in
  ((9 <=? n) && (n <=? 13) || (28 <=? n) && (n <=? 32))%N.

Definition is_space2 (c1 c2 : ascii) : bool :=
  let n1 := N_of_ascii c1 in
  let n2 := N_of_ascii c2 in
  ((n1 =? 194) && ((n2 =? 133) || (n2 =? 160)))%N.

Definition is_space3 (c1 c2 c3 : ascii) : bool :=
  let n1 := N_of_ascii c1 in
  let n2 := N_of_ascii c2 in
  let n3 := N_of_ascii c3 in
  ((n1 =? 225) && (n2 =? 154) && (n3 =? 128)
   || (n1 =? 226) && (n2 =? 128)
      && ((128 <=? n3) && (n3 <=? 138)
          || (n3 =? 168) || (n3 =? 169) || (n3 =? 175))
   || (n1 =? 226) && (n2 =? 129) && (n3 =? 159)
   || (n1 =? 227) && (n2 =? 128) && (n3 =? 128))%N.

(** The word that was being read ends at a white-space character. *)
Definition end_word (rest : string * list string) : string * list string :=
  (EmptyString,
   if bool_decide (rest.1 = EmptyString) then rest.2 else rest.1 :: rest.2).

(** [split_ws s]: the word [s] begins with (empty when [s] begins with
    white space) and the words after it. *)
Fixpoint split_ws (s : string) : string * list string :=
  match s with
  | EmptyString => (EmptyString, [])
  | String c1 s1 =>
      let word := let '(w, ws) := split_ws s1 in (String c1 w, ws) in
      if is_space c1 then end_word (split_ws s1) else
      match s1 with
      | EmptyString => word
      | String c2 s2 =>
          if is_space2 c1 c2 then end_word (split_ws s2) else
          match s2 with
          | EmptyString => word
          | String c3 s3 =>
              if is_space3 c1 c2 c3 then end_word (split_ws s3) else word
          end
      end
  end.

(** [s.split()] *)
Definition split_whitespace (s : string) : list string :=
  let '(w, ws) := split_ws s in
  if bool_decide (w = EmptyString) then ws else w :: ws.

Definition lower_char (c : ascii) : ascii :=
  let n := N_of_ascii c in
  if ((65 <=? n) && (n <=? 90))%N then ascii_of_N (n + 32) else c.

(** [s.lower()] on the letters A to Z.  The other characters that Python
    lowers are not ASCII, and none of them lowers to a letter of
    ["bearer"], the one string a lowered string is compared with. *)
Fixpoint lower (s : string) : string :=
  match s with
  | EmptyString => EmptyString
  | String c s' => String (lower_char c) (lower s')
  end.

Definition hex_digit (n : N) : ascii :=
  match n with
  | 0%N => "0" | 1%N => "1" | 2%N => "2" | 3%N => "3"
  | 4%N => "4" | 5%N => "5" | 6%N => "6" | 7%N => "7"
  | 8%N => "8" | 9%N => "9" | 10%N => "a" | 11%N => "b"
  | 12%N => "c" | 13%N => "d" | 14%N => "e" | _ => "f"
  end%char.

Definition hex_of_byte (b : Byte.byte) : string :=
  let n := Byte.to_N b in
  String (hex_digit (n / 16)) (String (hex_digit (n mod 16)) EmptyString).

(** [bytes.hex()]: two lower-case digits per byte. *)
Definition hexlify (bs : list Byte.byte) : string :=
  foldr (λ b acc, hex_of_byte b +:+ acc) EmptyString bs.

(** [secrets.token_hex(nbytes)]; [entropy] is what the system source of
    randomness hands out in this call. *)
Definition token_hex (nbytes : nat) (entropy : list Byte.byte) : string :=
  hexlify (take nbytes entropy).

(** Redis [KEYS] patterns: [*] is any run of characters, [?] any one
    character, anything else itself (the patterns of this program have no
    bracket class and no escape). *)
Fixpoint glob_match (pattern key : string) {struct pattern} : bool :=
  match pattern with
  | EmptyString => bool_decide (key = EmptyString)
  | String c pattern' =>
      if Ascii.eqb c "*" then
        (fix star (k : string) : bool :=
           glob_match pattern' k
           || match k with
              | EmptyString => false
              | String _ k' => star k'
              end) key
      else
        match key with
        | EmptyString => false
        | String d key' =>
            (Ascii.eqb c "?" || Ascii.eqb c d) && glob_match pattern' key'
        end
  end.

(** ** JSON values (what the handlers return and the cache stores) *)

#[warnings="-register-all"]
Inductive json : Type :=
  | JNull
  | JBool (b : bool)
  | JInt (n : Z)
  | JFloat (x : QArith_base.Q)
  | JStr (s : string)
  | JList (l : list json)
  | JDict (d : list (string * json)).

(** ** Library functions kept abstract *)

Record Platform : Type := mkPlatform {
  (** [hashlib.sha256(data).digest()] *)
  sha256 : list Byte.byte → list Byte.byte;
  (** [hash(json.dumps(params, sort_keys=True, default=str))] *)
  hash_params : list (string * json) → Z;
  (** [SELECT avg(x)] over the given values: [NULL] when there is none;
      the double is given by its rational value *)
  sql_avg : list Z → option QArith_base.Q;
  (** [int(s)] *)
  py_int : string → outcome Z;
  (** [open(path)] read through [csv.DictReader]: the rows as dicts *)
  read_csv : string → outcome (list (list (string * string)));
  (** [str(e)] *)
  exn_str : exn → string
}.

(** ** Tables (the SQLAlchemy models) *)

Module Student.
Record t : Type := mk {
  id : Z;
  last_name : string;
  first_name : string;
  faculty : string;
  course : string;
  score : Z
}.
End Student.

Module User.
Record t : Type := mk {
  id : Z;
  username : string;
  email : string;
  password_hash : string;
  is_read_only : bool;
  is_active : bool;
  created_at : Z
}.
End User.

Module Session.
Record t : Type := mk {
  id : Z;
  user_id : Z;
  token : string;
  refresh_token : string;
  created_at : Z;
  expires_at : Z;
  is_active : bool
}.
End Session.

(** The three tables of [students.db], rows in rowid order. *)
Record DB : Type := mkDB {
  students : list Student.t;
  users : list User.t;
  sessions : list Session.t
}.

(** An [INTEGER PRIMARY KEY] left unset: one more than the largest rowid. *)
Definition next_id (ids : list Z) : Z := foldr Z.max 0 ids + 1.

(** An [INTEGER] of SQLite has 64 bits, and the driver refuses to bind a
    Python int outside them to a statement: it raises [OverflowError]
    before the statement runs. *)
Definition in_int64 (n : Z) : Prop := - 2 ^ 63 ≤ n < 2 ^ 63.

#[global] Instance in_int64_dec n : Decision (in_int64 n) :=
  ltac:(unfold in_int64; apply _).

(** [SELECT DISTINCT] on a column: each value once, where it first
    appears. *)
Fixpoint distinct (l : list string) : list string :=
  match l with
  | [] => []
  | x :: l' => x :: filter (λ y, y ≠ x) (distinct l')
  end.

(** Instants are microseconds since the epoch. *)
Definition timedelta_hours (h : Z) : Z := h * 3600 * 1000000.
Definition timedelta_seconds (s : Z) : Z := s * 1000000.

(** The [UNIQUE] columns of the schema. *)
Definition db_wf (db : DB) : Prop :=
  NoDup (User.username <$> users db)
  ∧ NoDup (User.email <$> users db)
  ∧ NoDup (Session.token <$> sessions db)
  ∧ NoDup (Session.refresh_token <$> sessions db).

(** ** Request and response models, and the dicts the managers return *)

Module StudentCreate.
Record t : Type := mk {
  last_name : string;
  first_name : string;
  faculty : string;
  course : string;
  score : Z
}.
End StudentCreate.

Module StudentUpdate.
Record t : Type := mk {
  last_name : option string;
  first_name : option string;
  faculty : option string;
  course : option string;
  score : option Z
}.
End StudentUpdate.

Module UserRegister.
Record t : Type := mk {
  username : string;
  email : string;
  password : string;
  is_read_only : bool
}.
End UserRegister.

Module UserLogin.
Record t : Type := mk {
  username : string;
  password : string
}.
End UserLogin.

Module UserDict.
Record t : Type := mk {
  id : Z;
  username : string;
  email : string;
  is_read_only : bool;
  is_active : bool;
  created_at : Z
}.
End UserDict.

Module TokenDict.
Record t : Type := mk {
  access_token : string;
  refresh_token : string;
  user_id : Z;
  username : string;
  is_read_only : bool
}.
End TokenDict.

Module AuthUser.
Record t : Type := mk {
  user_id : Z;
  username : string;
  is_read_only : bool;
  is_active : bool
}.
End AuthUser.

(** ** The Redis client *)

(** [None] is [REDIS_AVAILABLE = False]; otherwise every key holds its value
    and the instant at which it expires. *)
Abbreviation Redis := (option (gmap string (json * Z))).

Module CacheManager.
Definition CACHE_TTL : Z := 3600.

Definition make_cache_key (lib : Platform) (endpoint : string)
    (params : list (string * json)) : string :=
  match params with
  | [] => "cache:" +:+ endpoint
  | _ :: _ => "cache:" +:+ endpoint +:+ ":" +:+ pretty (hash_params lib params)
  end.

(** A key is gone once its time to live has run out. *)
Definition live (now : Z) (entry : json * Z) : Prop := now < entry.2.

#[global] Instance live_dec now entry : Decision (live now entry) :=
  ltac:(unfold live; apply _).

(** [json.loads(data)]: a stored [null] loads as [None], which is also
    what the method returns when it has nothing. *)
Definition loaded (value : json) : option json :=
  match value with
  | JNull => None
  | _ => Some value
  end.

Definition get (redis : Redis) (key : string) (now : Z) : option json :=
  match redis with
  | None => None
  | Some m =>
      match m !! key with
      | Some entry => if bool_decide (live now entry) then loaded entry.1 else None
      | None => None
      end
  end.

(** [SETEX] refuses a time to live that is not positive: the [except]
    clause then returns [False] and the key keeps what it held. *)
Definition set (redis : Redis) (key : string) (value : json) (ttl : Z)
    (now : Z) : Redis * bool :=
  match redis with
  | None => (None, false)
  | Some m =>
      if bool_decide (0 < ttl)
      then (Some (<[key := (value, now + timedelta_seconds ttl)]> m), true)
      else (Some m, false)
  end.

Definition delete (redis : Redis) (key : string) : Redis * bool :=
  match redis with
  | None => (None, false)
  | Some m => (Some (base.delete key m), true)
  end.

(** [keys = redis_client.keys(pattern)]: the live keys that match. *)
Definition matching (pattern : string) (now : Z) (kv : string * (json * Z))
    : Prop :=
  glob_match pattern kv.1 = true ∧ live now kv.2.

#[global] Instance matching_dec pattern now kv :
  Decision (matching pattern now kv) := ltac:(unfold matching; apply _).

Definition invalidate_pattern (redis : Redis) (pattern : string) (now : Z)
    : Redis * Z :=
  match redis with
  | None => (None, 0)
  | Some m =>
      (Some (filter (λ kv, ¬ matching pattern now kv) m),
       Z.of_nat (size (filter (matching pattern now) m)))
  end.
End CacheManager.

(** ** StudentManager *)

Module StudentManager.

Definition student_dict (s : Student.t) : json :=
  JDict [("id", JInt (Student.id s));
         ("last_name", JStr (Student.last_name s));
         ("first_name", JStr (Student.first_name s));
         ("faculty", JStr (Student.faculty s));
         ("course", JStr (Student.course s));
         ("score", JInt (Student.score s))].

(** [session.add(Student(...))] followed by the flush that numbers it. *)
Definition add_student (rows : list Student.t)
    (last_name first_name faculty course : string) (score : Z)
    : list Student.t * Student.t :=
  let student := Student.mk (next_id (Student.id <$> rows))
                   last_name first_name faculty course score in
  (rows ++ [student], student).

Definition get_students_by_faculty (db : DB) (faculty : string) : list json :=
  student_dict <$> filter (λ s, Student.faculty s = faculty) (students db).

Definition get_unique_courses (db : DB) : list string :=
  distinct (Student.course <$> students db).

Definition float_truthy (x : QArith_base.Q) : bool :=
  negb (QArith_base.Qeq_bool x (QArith_base.Qmake 0 1)).

Definition get_average_score_by_faculty (lib : Platform) (db : DB)
    (faculty : string) : QArith_base.Q :=
  match sql_avg lib (Student.score <$>
                       filter (λ s, Student.faculty s = faculty) (students db)) with
  | Some result => if float_truthy result then result else QArith_base.Qmake 0 1
  | None => QArith_base.Qmake 0 1
  end.

(** The threshold is a parameter of the query. *)
Definition get_low_score_students_by_course (db : DB) (course : string)
    (threshold : Z) : outcome (list json) :=
  if bool_decide (in_int64 threshold)
  then Return (student_dict <$>
                 filter (λ s, Student.course s = course
                              ∧ Student.score s < threshold) (students db))
  else Raise OverflowError.

(** The methods that write return the store after the call with what the
    call returned or raised; a call that raises leaves the store as it was
    ([session.close()] in the [finally] clause rolls back).  The score is a
    parameter of the [INSERT] that the commit sends. *)
Definition create_student (db : DB)
    (last_name first_name faculty course : string) (score : Z)
    : DB * outcome json :=
  let '(rows, student) :=
    add_student (students db) last_name first_name faculty course score in
  if bool_decide (in_int64 score)
  then (mkDB rows (users db) (sessions db), Return (student_dict student))
  else (db, Raise OverflowError).

(** [session.query(Student).filter(Student.id == student_id).first()]:
    the position and the row; the id is a parameter of the query. *)
Definition query_by_id (rows : list Student.t) (student_id : Z)
    : outcome (option (nat * Student.t)) :=
  if bool_decide (in_int64 student_id)
  then Return (list_find (λ s, Student.id s = student_id) rows)
  else Raise OverflowError.

Definition get_student_by_id (db : DB) (student_id : Z)
    : outcome (option json) :=
  found ← query_by_id (students db) student_id;
  match found with
  | None => Return None
  | Some (_, student) => Return (Some (student_dict student))
  end.

Definition get_all_students (db : DB) : list json :=
  student_dict <$> students db.

(** One keyword argument of [update_student]: the column and the value
    passed for it, [None] being Python's [None].  These are the five
    keywords that the endpoint passes. *)
Inductive kwarg : Type :=
  | kw_last_name (value : option string)
  | kw_first_name (value : option string)
  | kw_faculty (value : option string)
  | kw_course (value : option string)
  | kw_score (value : option Z).

(** [if value is not None and hasattr(student, key): setattr(...)] *)
Definition setattr_if_given (student : Student.t) (kw : kwarg) : Student.t :=
  match kw with
  | kw_last_name (Some v) =>
      Student.mk (Student.id student) v (Student.first_name student)
        (Student.faculty student) (Student.course student) (Student.score student)
  | kw_first_name (Some v) =>
      Student.mk (Student.id student) (Student.last_name student) v
        (Student.faculty student) (Student.course student) (Student.score student)
  | kw_faculty (Some v) =>
      Student.mk (Student.id student) (Student.last_name student)
        (Student.first_name student) v (Student.course student)
        (Student.score student)
  | kw_course (Some v) =>
      Student.mk (Student.id student) (Student.last_name student)
        (Student.first_name student) (Student.faculty student) v
        (Student.score student)
  | kw_score (Some v) =>
      Student.mk (Student.id student) (Student.last_name student)
        (Student.first_name student) (Student.faculty student)
        (Student.course student) v
  | _ => student
  end.

(** The commit sends an [UPDATE] of the columns whose value has changed,
    so the score is a parameter of it when the loop has given the row
    another score. *)
Definition update_student (db : DB) (student_id : Z) (kwargs : list kwarg)
    : DB * outcome (option json) :=
  match query_by_id (students db) student_id with
  | Raise e => (db, Raise e)
  | Return None => (db, Return None)
  | Return (Some (i, student)) =>
      let student' := foldl setattr_if_given student kwargs in
      if bool_decide (Student.score student' = Student.score student
                      ∨ in_int64 (Student.score student'))
      then (mkDB (<[i := student']> (students db)) (users db) (sessions db),
            Return (Some (student_dict student')))
      else (db, Raise OverflowError)
  end.

Definition delete_student (db : DB) (student_id : Z) : DB * outcome bool :=
  match query_by_id (students db) student_id with
  | Raise e => (db, Raise e)
  | Return None => (db, Return false)
  | Return (Some (i, _)) =>
      (mkDB (base.delete i (students db)) (users db) (sessions db),
       Return true)
  end.

(** [row[key]] on a [csv.DictReader] row *)
Definition row_get (row : list (string * string)) (key : string)
    : outcome string :=
  match list_find (λ kv, kv.1 = key) row with
  | Some (_, kv) => Return kv.2
  | None => Raise KeyError
  end.

(** The loop of the import: the rows added so far and their number. *)
Fixpoint import_rows (lib : Platform) (rows : list (list (string * string)))
    (acc : list Student.t) (count : Z) : outcome (list Student.t * Z) :=
  match rows with
  | [] => Return (acc, count)
  | row :: rows' =>
      last_name ← row_get row "Фамилия";
      first_name ← row_get row "Имя";
      faculty ← row_get row "Факультет";
      course ← row_get row "Курс";
      score_text ← row_get row "Оценка";
      score ← py_int lib score_text;
      import_rows lib rows'
        (add_student acc last_name first_name faculty course score).1
        (count + 1)
  end.

(** [session.commit()] after the loop: one [INSERT] for each student added,
    with the score as a parameter. *)
Definition commit_added (added : list Student.t) : outcome () :=
  if bool_decide (Forall (λ s, in_int64 (Student.score s)) added)
  then Return ()
  else Raise OverflowError.

(** The [try] block up to the commit: the table and the count after it. *)
Definition import_file (lib : Platform) (db : DB) (csv_file : string)
    : outcome (list Student.t * Z) :=
  rows ← read_csv lib csv_file;
  imported ← import_rows lib rows (students db) 0;
  _ ← commit_added (drop (length (students db)) imported.1);
  Return imported.

(** Nothing is committed, and the cache is left alone, when the file is
    missing, a row is bad or the commit fails: the [except] clauses return
    before both. *)
Definition populate_from_csv_background (lib : Platform) (db : DB)
    (redis : Redis) (csv_file : string) (now : Z) : DB * Redis * json :=
  match import_file lib db csv_file with
  | Return (students', count) =>
      (mkDB students' (users db) (sessions db),
       (CacheManager.invalidate_pattern redis "cache:students*" now).1,
       JDict [("status", JStr "completed");
              ("records_imported", JInt count);
              ("message", JStr ("Successfully imported " +:+ pretty count
                                  +:+ " student records"))])
  | Raise FileNotFoundError =>
      (db, redis,
       JDict [("status", JStr "error");
              ("message", JStr ("File not found: " +:+ csv_file))])
  | Raise e =>
      (db, redis,
       JDict [("status", JStr "error");
              ("message", JStr ("Error importing CSV: " +:+ exn_str lib e))])
  end.

(** The import at start-up: the same loop without the [except] clauses, so
    a missing file or a bad row propagates and nothing is committed. *)
Definition populate_from_csv (lib : Platform) (db : DB) (csv_file : string)
    : outcome DB :=
  imported ← import_file lib db csv_file;
  Return (mkDB imported.1 (users db) (sessions db)).

(** The loop of the bulk delete: the rows left and the number deleted. *)
Fixpoint delete_each (rows : list Student.t) (student_ids : list Z)
    (deleted_count : Z) : outcome (list Student.t * Z) :=
  match student_ids with
  | [] => Return (rows, deleted_count)
  | student_id :: student_ids' =>
      found ← query_by_id rows student_id;
      match found with
      | Some (i, _) =>
          delete_each (base.delete i rows) student_ids' (deleted_count + 1)
      | None => delete_each rows student_ids' deleted_count
      end
  end.

(** When the loop raises nothing is committed, the deletions made so far
    are rolled back and the cache is left alone. *)
Definition delete_students_by_ids (lib : Platform) (db : DB) (redis : Redis)
    (student_ids : list Z) (now : Z) : DB * Redis * json :=
  match delete_each (students db) student_ids 0 with
  | Return (students', deleted_count) =>
      (mkDB students' (users db) (sessions db),
       (CacheManager.invalidate_pattern redis "cache:students*" now).1,
       JDict [("status", JStr "completed");
              ("records_deleted", JInt deleted_count);
              ("message", JStr ("Successfully deleted " +:+ pretty deleted_count
                                  +:+ " student records"))])
  | Raise e =>
      (db, redis,
       JDict [("status", JStr "error");
              ("message", JStr ("Error deleting students: "
                                  +:+ exn_str lib e))])
  end.
End StudentManager.

(** ** AuthManager *)

(** [generate_tokens()] draws two [secrets.token_urlsafe(32)] strings; the
    pair drawn in a call is the argument [generated] of that call.  A pair
    is fresh for a store when neither string is in the column it goes to. *)
Definition fresh_tokens (db : DB) (generated : string * string) : Prop :=
  (generated.1 ∉ Session.token <$> sessions db)
  ∧ (generated.2 ∉ Session.refresh_token <$> sessions db).

(** Would writing the two tokens into a row break a [UNIQUE] column, given
    the other rows? *)
Definition session_conflict (others : list Session.t)
    (access_token refresh_token : string) : Prop :=
  Exists (λ s, Session.token s = access_token
               ∨ Session.refresh_token s = refresh_token) others.

#[global] Instance session_conflict_dec others a r :
  Decision (session_conflict others a r) :=
  ltac:(unfold session_conflict; apply _).

Module AuthManager.

(** [hashlib.sha256(s.encode()).hexdigest()] *)
Definition sha256_hexdigest (lib : Platform) (s : string) : string :=
  hexlify (sha256 lib (String.list_byte_of_string s)).

Definition hash_password (lib : Platform) (entropy : list Byte.byte)
    (password : string) : string :=
  let salt := token_hex 16 entropy in
  let password_hash := sha256_hexdigest lib (password +:+ salt) in
  salt +:+ ":" +:+ password_hash.

(** The body of the [try]: unpacking [split(':')] into exactly two names
    raises [ValueError] for any other number of parts. *)
Definition verify_password_try (lib : Platform)
    (password password_hash : string) : outcome bool :=
  match split ":" password_hash with
  | [salt; hash_value] =>
      Return (bool_decide (sha256_hexdigest lib (password +:+ salt) = hash_value))
  | _ => Raise ValueError
  end.

Definition verify_password (lib : Platform) (password password_hash : string)
    : outcome bool :=
  try_except_all (verify_password_try lib password password_hash) false.

(** The [UNIQUE] columns of [users] are the two columns of the query, so
    the commit that follows a miss cannot fail. *)
Definition register_user (lib : Platform) (db : DB)
    (username email password : string) (is_read_only : bool)
    (entropy : list Byte.byte) (now : Z) : DB * option UserDict.t :=
  match list_find (λ u, User.username u = username ∨ User.email u = email)
                  (users db) with
  | Some _ => (db, None)
  | None =>
      let user := User.mk (next_id (User.id <$> users db)) username email
                    (hash_password lib entropy password)
                    is_read_only true now in
      (mkDB (students db) (users db ++ [user]) (sessions db),
       Some (UserDict.mk (User.id user) (User.username user) (User.email user)
               (User.is_read_only user) (User.is_active user)
               (User.created_at user)))
  end.

Definition login_user (lib : Platform) (db : DB) (username password : string)
    (generated : string * string) (now : Z)
    : outcome (DB * option TokenDict.t) :=
  match list_find (λ u, User.username u = username) (users db) with
  | None => Return (db, None)
  | Some (_, user) =>
      if negb (User.is_active user) then Return (db, None) else
      ok ← verify_password lib password (User.password_hash user);
      if negb ok then Return (db, None) else
      let '(access_token, refresh_token) := generated in
      let expires_at := now + timedelta_hours 24 in
      let db_session :=
        Session.mk (next_id (Session.id <$> sessions db)) (User.id user)
          access_token refresh_token now expires_at true in
      if bool_decide (session_conflict (sessions db) access_token refresh_token)
      then Raise IntegrityError
      else Return (mkDB (students db) (users db) (sessions db ++ [db_session]),
                   Some (TokenDict.mk access_token refresh_token (User.id user)
                           (User.username user) (User.is_read_only user)))
  end.

Definition verify_token (db : DB) (token : string) (now : Z)
    : option AuthUser.t :=
  match list_find (λ s, Session.token s = token ∧ Session.is_active s = true)
                  (sessions db) with
  | None => None
  | Some (_, db_session) =>
      if bool_decide (Session.expires_at db_session < now) then None else
      match list_find (λ u, User.id u = Session.user_id db_session)
                      (users db) with
      | None => None
      | Some (_, user) =>
          if negb (User.is_active user) then None else
          Some (AuthUser.mk (User.id user) (User.username user)
                  (User.is_read_only user) (User.is_active user))
      end
  end.

(** The row after the three assignments to [db_session]. *)
Definition rotate (db_session : Session.t) (generated : string * string)
    (now : Z) : Session.t :=
  Session.mk (Session.id db_session) (Session.user_id db_session)
    generated.1 generated.2 (Session.created_at db_session)
    (now + timedelta_hours 24) (Session.is_active db_session).

Definition refresh_token_user (db : DB) (refresh_token : string)
    (generated : string * string) (now : Z)
    : outcome (DB * option TokenDict.t) :=
  match list_find (λ s, Session.refresh_token s = refresh_token
                        ∧ Session.is_active s = true) (sessions db) with
  | None => Return (db, None)
  | Some (i, db_session) =>
      match list_find (λ u, User.id u = Session.user_id db_session)
                      (users db) with
      | None => Return (db, None)
      | Some (_, user) =>
          if negb (User.is_active user) then Return (db, None) else
          if bool_decide (session_conflict (delete i (sessions db))
                            generated.1 generated.2)
          then Raise IntegrityError
          else Return (mkDB (students db) (users db)
                         (<[i := rotate db_session generated now]> (sessions db)),
                       Some (TokenDict.mk generated.1 generated.2 (User.id user)
                               (User.username user) (User.is_read_only user)))
      end
  end.

Definition deactivate (s : Session.t) : Session.t :=
  Session.mk (Session.id s) (Session.user_id s) (Session.token s)
    (Session.refresh_token s) (Session.created_at s) (Session.expires_at s)
    false.

Definition logout_user (db : DB) (token : string) : DB * bool :=
  match list_find (λ s, Session.token s = token) (sessions db) with
  | None => (db, false)
  | Some (i, db_session) =>
      (mkDB (students db) (users db)
         (<[i := deactivate db_session]> (sessions db)), true)
  end.
End AuthManager.

(** The validity of a session as the specification words it. *)
Definition session_valid_spec (s : Session.t) (now : Z) : Prop :=
  Session.is_active s = true ∧ now < Session.expires_at s.

(** The owner of a session: the row [verify_token] and
    [refresh_token_user] look up by primary key. *)
Definition owner (db : DB) (s : Session.t) : option User.t :=
  snd <$> list_find (λ u, User.id u = Session.user_id s) (users db).

Definition auth_user_of (user : User.t) : AuthUser.t :=
  AuthUser.mk (User.id user) (User.username user) (User.is_read_only user)
    (User.is_active user).

(** Calls that write to [users] or [sessions], with what each draws. *)
Inductive auth_call : Type :=
  | CallRegister (username email password : string) (is_read_only : bool)
      (entropy : list Byte.byte)
  | CallLogin (username password : string) (generated : string * string)
  | CallRefresh (refresh_token : string) (generated : string * string)
  | CallLogout (token : string).

(** The store after a call made at instant [now]; a call that raises leaves
    the store as it was (the transaction is rolled back). *)
Definition auth_step (lib : Platform) (db : DB) (timed : Z * auth_call) : DB :=
  let '(now, call) := timed in
  match call with
  | CallRegister username email password is_read_only entropy =>
      (AuthManager.register_user lib db username email password is_read_only
         entropy now).1
  | CallLogin username password generated =>
      match AuthManager.login_user lib db username password generated now with
      | Return (db', _) => db'
      | Raise _ => db
      end
  | CallRefresh refresh_token generated =>
      match AuthManager.refresh_token_user db refresh_token generated now with
      | Return (db', _) => db'
      | Raise _ => db
      end
  | CallLogout token => (AuthManager.logout_user db token).1
  end.

Definition auth_run (lib : Platform) (db : DB) (calls : list (Z * auth_call))
    : DB :=
  foldl (auth_step lib) db calls.

(** The tokens a call draws from [generate_tokens()]. *)
Definition drawn (timed : Z * auth_call) : list (string * string) :=
  match timed.2 with
  | CallLogin _ _ generated | CallRefresh _ generated => [generated]
  | _ => []
  end.

(** ** The application: global state, dependencies, endpoints *)

Inductive task : Type :=
  | TaskImportCsv (csv_file : string)
  | TaskBulkDelete (student_ids : list Z).

(** The database, the Redis client and the tasks queued by
    [background_tasks.add_task] that have not run yet. *)
Record World : Type := mkWorld {
  db : DB;
  redis : Redis;
  background_tasks : list task
}.

Definition set_db (w : World) (db' : DB) : World :=
  mkWorld db' (redis w) (background_tasks w).

Definition set_redis (w : World) (redis' : Redis) : World :=
  mkWorld (db w) redis' (background_tasks w).

Definition add_task (w : World) (t : task) : World :=
  mkWorld (db w) (redis w) (background_tasks w ++ [t]).

(** [CacheManager.invalidate_pattern("cache:students*")] on the world. *)
Definition invalidate_students (w : World) (now : Z) : World :=
  set_redis w (CacheManager.invalidate_pattern (redis w) "cache:students*" now).1.

Definition cache_set (w : World) (key : string) (value : json) (now : Z)
    : World :=
  set_redis w (CacheManager.set (redis w) key value CacheManager.CACHE_TTL now).1.

(** [len(cached)] and [cached[0]] on what [json.loads] gave back. *)
Definition json_len (v : json) : outcome Z :=
  match v with
  | JList l => Return (Z.of_nat (length l))
  | JDict d => Return (Z.of_nat (length d))
  | JStr s => Return (Z.of_nat (String.length s))
  | _ => Raise TypeError
  end.

Definition json_first (v : json) : outcome json :=
  match v with
  | JList (x :: _) => Return x
  | JList [] => Raise IndexError
  | JStr (String c _) => Return (JStr (String c EmptyString))
  | JStr EmptyString => Raise IndexError
  | JDict _ => Raise KeyError
  | _ => Raise TypeError
  end.

Definition get_current_user (w : World) (authorization : option string)
    (now : Z) : outcome AuthUser.t :=
  match authorization with
  | None => Raise (HTTPException 401 "Not authenticated")
  | Some EmptyString => Raise (HTTPException 401 "Not authenticated")
  | Some authorization =>
      match split_whitespace authorization with
      | [scheme; token] =>
          if bool_decide (lower scheme ≠ "bearer")
          then Raise (HTTPException 401 "Invalid authentication scheme")
          else
            match AuthManager.verify_token (db w) token now with
            | None => Raise (HTTPException 401 "Invalid or expired token")
            | Some user_info => Return user_info
            end
      | _ => Raise (HTTPException 401 "Invalid authorization header")
      end
  end.

Definition check_read_only (w : World) (authorization : option string)
    (now : Z) : outcome AuthUser.t :=
  user ← get_current_user w authorization now;
  if AuthUser.is_read_only user
  then Raise (HTTPException 403 "User has read-only access")
  else Return user.

(** An endpoint behind a dependency: the body runs only when the
    dependency returned. *)
Definition depends {A B} (dependency : outcome A) (w : World)
    (body : A → World * outcome B) : World * outcome B :=
  match dependency with
  | Return user => body user
  | Raise e => (w, Raise e)
  end.

(** *** Authentication endpoints *)

Definition register (lib : Platform) (w : World) (user_data : UserRegister.t)
    (entropy : list Byte.byte) (now : Z) : World * outcome UserDict.t :=
  match AuthManager.register_user lib (db w) (UserRegister.username user_data)
          (UserRegister.email user_data) (UserRegister.password user_data)
          (UserRegister.is_read_only user_data) entropy now with
  | (db', Some result) => (set_db w db', Return result)
  | (_, None) =>
      (w, Raise (HTTPException 400 "Username or email already exists"))
  end.

Definition login (lib : Platform) (w : World) (user_data : UserLogin.t)
    (generated : string * string) (now : Z) : World * outcome TokenDict.t :=
  match AuthManager.login_user lib (db w) (UserLogin.username user_data)
          (UserLogin.password user_data) generated now with
  | Return (db', Some result) => (set_db w db', Return result)
  | Return (_, None) =>
      (w, Raise (HTTPException 401 "Invalid username or password"))
  | Raise e => (w, Raise e)
  end.

Definition refresh_token (w : World) (refresh_token : string)
    (generated : string * string) (now : Z) : World * outcome TokenDict.t :=
  match AuthManager.refresh_token_user (db w) refresh_token generated now with
  | Return (db', Some result) => (set_db w db', Return result)
  | Return (_, None) => (w, Raise (HTTPException 401 "Invalid refresh token"))
  | Raise e => (w, Raise e)
  end.

Definition logout (w : World) (authorization : option string) (now : Z)
    : World * outcome json :=
  depends (get_current_user w authorization now) w (λ user,
    match split_whitespace (default EmptyString authorization) with
    | [scheme; token] =>
        let '(db', success) := AuthManager.logout_user (db w) token in
        if success
        then (set_db w db',
              Return (JDict [("message", JStr "Logged out successfully")]))
        else (w, Raise (HTTPException 400 "Logout failed"))
    | _ => (w, Raise (HTTPException 400 "Invalid authorization header"))
    end).

(** *** CRUD endpoints *)

Definition create_student (w : World) (authorization : option string)
    (student : StudentCreate.t) (now : Z) : World * outcome json :=
  depends (check_read_only w authorization now) w (λ user,
    match StudentManager.create_student (db w)
            (StudentCreate.last_name student) (StudentCreate.first_name student)
            (StudentCreate.faculty student) (StudentCreate.course student)
            (StudentCreate.score student) with
    | (db', Return result) =>
        (invalidate_students (set_db w db') now, Return result)
    | (_, Raise e) => (w, Raise e)
    end).

Definition get_all_students (lib : Platform) (w : World)
    (authorization : option string) (now : Z) : World * outcome json :=
  depends (get_current_user w authorization now) w (λ user,
    let cache_key := CacheManager.make_cache_key lib "students:all" [] in
    match CacheManager.get (redis w) cache_key now with
    | Some cached => (w, Return cached)
    | None =>
        let result := JList (StudentManager.get_all_students (db w)) in
        (cache_set w cache_key result now, Return result)
    end).

Definition get_student (lib : Platform) (w : World)
    (authorization : option string) (student_id : Z) (now : Z)
    : World * outcome json :=
  depends (get_current_user w authorization now) w (λ user,
    let cache_key :=
      CacheManager.make_cache_key lib "students:by_id"
        [("id", JInt student_id)] in
    let miss :=
      match StudentManager.get_student_by_id (db w) student_id with
      | Raise e => (w, Raise e)
      | Return None => (w, Raise (HTTPException 404 "Student not found"))
      | Return (Some student) =>
          (cache_set w cache_key (JList [student]) now, Return student)
      end in
    match CacheManager.get (redis w) cache_key now with
    | Some cached =>
        match json_len cached with
        | Return n => if bool_decide (n > 0) then (w, json_first cached) else miss
        | Raise e => (w, Raise e)
        end
    | None => miss
    end).

(** The keyword arguments the endpoint passes, in the order it writes
    them. *)
Definition update_kwargs (student_update : StudentUpdate.t)
    : list StudentManager.kwarg :=
  [StudentManager.kw_last_name (StudentUpdate.last_name student_update);
   StudentManager.kw_first_name (StudentUpdate.first_name student_update);
   StudentManager.kw_faculty (StudentUpdate.faculty student_update);
   StudentManager.kw_course (StudentUpdate.course student_update);
   StudentManager.kw_score (StudentUpdate.score student_update)].

Definition update_student (w : World) (authorization : option string)
    (student_id : Z) (student_update : StudentUpdate.t) (now : Z)
    : World * outcome json :=
  depends (check_read_only w authorization now) w (λ user,
    match StudentManager.update_student (db w) student_id
            (update_kwargs student_update) with
    | (_, Raise e) => (w, Raise e)
    | (_, Return None) => (w, Raise (HTTPException 404 "Student not found"))
    | (db', Return (Some result)) =>
        (invalidate_students (set_db w db') now, Return result)
    end).

Definition delete_student (w : World) (authorization : option string)
    (student_id : Z) (now : Z) : World * outcome json :=
  depends (check_read_only w authorization now) w (λ user,
    match StudentManager.delete_student (db w) student_id with
    | (_, Raise e) => (w, Raise e)
    | (_, Return false) => (w, Raise (HTTPException 404 "Student not found"))
    | (db', Return true) =>
        (invalidate_students (set_db w db') now,
         Return (JDict [("message", JStr "Student deleted successfully")]))
    end).

(** *** Background task endpoints *)

Definition import_csv_background (w : World) (authorization : option string)
    (csv_file : string) (now : Z) : World * outcome json :=
  depends (check_read_only w authorization now) w (λ user,
    (add_task w (TaskImportCsv csv_file),
     Return (JDict [("status", JStr "processing");
                    ("message", JStr ("CSV import started for file: "
                                        +:+ csv_file));
                    ("csv_file", JStr csv_file)]))).

Definition delete_students_bulk (w : World) (authorization : option string)
    (student_ids : list Z) (now : Z) : World * outcome json :=
  depends (check_read_only w authorization now) w (λ user,
    match student_ids with
    | [] => (w, Raise (HTTPException 400 "student_ids list cannot be empty"))
    | _ :: _ =>
        (add_task w (TaskBulkDelete student_ids),
         Return (JDict [("status", JStr "processing");
                        ("message",
                         JStr ("Bulk delete started for "
                                 +:+ pretty (Z.of_nat (length student_ids))
                                 +:+ " students"));
                        ("student_ids", JList (JInt <$> student_ids))]))
    end).

(** A queued task runs after the response has been sent. *)
Definition run_task (lib : Platform) (w : World) (t : task) (now : Z) : World :=
  match t with
  | TaskImportCsv csv_file =>
      let '(db', redis', _) :=
        StudentManager.populate_from_csv_background lib (db w) (redis w)
          csv_file now in
      mkWorld db' redis' (background_tasks w)
  | TaskBulkDelete student_ids =>
      let '(db', redis', _) :=
        StudentManager.delete_students_by_ids lib (db w) (redis w) student_ids
          now in
      mkWorld db' redis' (background_tasks w)
  end.

Definition run_background_tasks (lib : Platform) (w : World) (now : Z) : World :=
  foldl (λ w' t, run_task lib w' t now)
        (mkWorld (db w) (redis w) []) (background_tasks w).

(** *** Query endpoints *)

Definition get_students_by_faculty (lib : Platform) (w : World)
    (authorization : option string) (faculty : string) (now : Z)
    : World * outcome json :=
  depends (get_current_user w authorization now) w (λ _,
    let cache_key :=
      CacheManager.make_cache_key lib "students:by_faculty"
        [("faculty", JStr faculty)] in
    match CacheManager.get (redis w) cache_key now with
    | Some cached => (w, Return cached)
    | None =>
        let result := JList (StudentManager.get_students_by_faculty (db w) faculty) in
        (cache_set w cache_key result now, Return result)
    end).

(** The handler of [GET /courses/unique]; what the route answers, given
    the response model it declares, is [route_unique_courses] below. *)
Definition get_unique_courses (lib : Platform) (w : World)
    (authorization : option string) (now : Z) : World * outcome json :=
  depends (get_current_user w authorization now) w (λ _,
    let cache_key := CacheManager.make_cache_key lib "courses:unique" [] in
    match CacheManager.get (redis w) cache_key now with
    | Some cached => (w, Return cached)
    | None =>
        let result := StudentManager.get_unique_courses (db w) in
        (cache_set w cache_key
           (JList ((λ c, JDict [("course", JStr c)]) <$> result)) now,
         Return (JList (JStr <$> result)))
    end).

Definition get_average_score (lib : Platform) (w : World)
    (authorization : option string) (faculty : string) (now : Z)
    : World * outcome json :=
  depends (get_current_user w authorization now) w (λ _,
    let cache_key :=
      CacheManager.make_cache_key lib "faculty:avg_score"
        [("faculty", JStr faculty)] in
    match CacheManager.get (redis w) cache_key now with
    | Some cached => (w, json_first cached)
    | None =>
        let avg_score :=
          StudentManager.get_average_score_by_faculty lib (db w) faculty in
        let result :=
          JDict [("faculty", JStr faculty); ("average_score", JFloat avg_score)] in
        (cache_set w cache_key (JList [result]) now, Return result)
    end).

Definition get_low_score_students (lib : Platform) (w : World)
    (authorization : option string) (course : string) (threshold : Z) (now : Z)
    : World * outcome json :=
  depends (get_current_user w authorization now) w (λ _,
    let cache_key :=
      CacheManager.make_cache_key lib "students:low_scores"
        [("course", JStr course); ("threshold", JInt threshold)] in
    match CacheManager.get (redis w) cache_key now with
    | Some cached => (w, Return cached)
    | None =>
        match StudentManager.get_low_score_students_by_course (db w) course
                threshold with
        | Raise e => (w, Raise e)
        | Return students =>
            let result := JList students in
            (cache_set w cache_key result now, Return result)
        end
    end).

(** *** The declared model of a response *)

(** [response_model=List[str]]: FastAPI checks what the handler returned
    against the declared model before it answers, and raises
    [ResponseValidationError] (status 500) for anything but a list of
    strings. *)
Definition is_str (v : json) : bool :=
  match v with
  | JStr _ => true
  | _ => false
  end.

Definition response_list_str (v : json) : outcome json :=
  match v with
  | JList l => if forallb is_str l then Return v else Raise ResponseValidationError
  | _ => Raise ResponseValidationError
  end.

(** [GET /courses/unique]: the handler behind its decorator.  It is the
    one route whose handler can return, from the cache, a value of
    another shape than on a miss. *)
Definition route_unique_courses (lib : Platform) (w : World)
    (authorization : option string) (now : Z) : World * outcome json :=
  let '(w', result) := get_unique_courses lib w authorization now in
  (w', result ≫= response_list_str).

(** ** Example data *)

(** A platform to run examples on: the digest of a text is the text. *)
Definition toy_platform : Platform :=
  mkPlatform (λ bs, bs) (λ _, 0) (λ _, None) (λ _, Raise ValueError)
    (λ _, Raise FileNotFoundError) (λ _, EmptyString).

(** An example store: alice (password "pw") may write, bob (empty
    password) may only read, carol has been switched off; alice has a live
    and a closed session, bob a live one, all expiring at instant 100. *)
Definition example_db : DB :=
  mkDB []
    [User.mk 1 "alice" "alice@x.com" "00:70773030" false true 0;
     User.mk 2 "bob" "bob@x.com" "22:3232" true true 0;
     User.mk 3 "carol" "carol@x.com" "44:55" false false 0]
    [Session.mk 1 1 "access-a" "refresh-a" 0 100 true;
     Session.mk 2 2 "access-b" "refresh-b" 0 100 true;
     Session.mk 3 1 "access-c" "refresh-c" 0 100 false].


(** The student as the specification describes a partial update: every
    field given in the request replaces the old one, every other field is
    the old one. *)
Definition updated_spec (old : Student.t) (student_update : StudentUpdate.t)
    : Student.t :=
  Student.mk (Student.id old)
    (default (Student.last_name old) (StudentUpdate.last_name student_update))
    (default (Student.first_name old) (StudentUpdate.first_name student_update))
    (default (Student.faculty old) (StudentUpdate.faculty student_update))
    (default (Student.course old) (StudentUpdate.course student_update))
    (default (Student.score old) (StudentUpdate.score student_update)).

(** A scenario on the example store with Redis up and empty: alice reads
    the list of courses, creates a student, and reads the list again. *)
Definition alice_header : option string := Some "Bearer access-a".

Definition new_student : StudentCreate.t :=
  StudentCreate.mk "Ivanov" "Ivan" "Physics" "Math" 95.

Definition scenario_start : World := mkWorld example_db (Some ∅) [].

Definition scenario_first_read (lib : Platform) : World * outcome json :=
  get_unique_courses lib scenario_start alice_header 10.

Definition scenario_create (lib : Platform) : World * outcome json :=
  create_student (scenario_first_read lib).1 alice_header new_student 20.

Definition scenario_second_read (lib : Platform) : World * outcome json :=
  get_unique_courses lib (scenario_create lib).1 alice_header 30.

(** The same with the list of all students, whose key the pattern covers. *)
Definition scenario_all_first (lib : Platform) : World * outcome json :=
  get_all_students lib scenario_start alice_header 10.

Definition scenario_all_create (lib : Platform) : World * outcome json :=
  create_student (scenario_all_first lib).1 alice_header new_student 20.

Definition scenario_all_second (lib : Platform) : World * outcome json :=
  get_all_students lib (scenario_all_create lib).1 alice_header 30.

(** ** Further notions used in the statements *)

(** The primary keys of the schema. *)
Definition db_pk (db : DB) : Prop :=
  NoDup (Student.id <$> students db)
  ∧ NoDup (User.id <$> users db)
  ∧ NoDup (Session.id <$> sessions db).

(** The white-space characters of [str.split()], each as its UTF-8 bytes:
    the ten of ASCII, U+0085, U+00A0, U+1680, U+2000 to U+200A, U+2028,
    U+2029, U+202F, U+205F and U+3000. *)
Definition utf8 (bytes : list ascii) : string := foldr String EmptyString bytes.

Definition no_break_space : string := utf8 ["194"; "160"]%char.

Definition white_space : list string :=
  utf8 <$> [["009"]; ["010"]; ["011"]; ["012"]; ["013"];
            ["028"]; ["029"]; ["030"]; ["031"]; ["032"];
            ["194"; "133"]; ["194"; "160"];
            ["225"; "154"; "128"];
            ["226"; "128"; "128"]; ["226"; "128"; "129"];
            ["226"; "128"; "130"]; ["226"; "128"; "131"];
            ["226"; "128"; "132"]; ["226"; "128"; "133"];
            ["226"; "128"; "134"]; ["226"; "128"; "135"];
            ["226"; "128"; "136"]; ["226"; "128"; "137"];
            ["226"; "128"; "138"];
            ["226"; "128"; "168"]; ["226"; "128"; "169"];
            ["226"; "128"; "175"];
            ["226"; "129"; "159"];
            ["227"; "128"; "128"]]%char.

(** Visible ASCII characters (33 to 126): the tokens of
    [secrets.token_urlsafe] are made of them. *)
Definition visible (c : ascii) : bool :=
  let n := N_of_ascii c in ((33 <=? n) && (n <=? 126))%N.

Fixpoint all_visible (s : string) : bool :=
  match s with
  | EmptyString => true
  | String c s' => visible c && all_visible s'
  end.

(** A CSV row that the loop of the import can read: it has the five
    columns, and [int()] accepts the score. *)
Definition row_readable (lib : Platform) (row : list (string * string))
    : Prop :=
  ∃ last_name first_name faculty course score_text score,
    StudentManager.row_get row "Фамилия" = Return last_name
    ∧ StudentManager.row_get row "Имя" = Return first_name
    ∧ StudentManager.row_get row "Факультет" = Return faculty
    ∧ StudentManager.row_get row "Курс" = Return course
    ∧ StudentManager.row_get row "Оценка" = Return score_text
    ∧ py_int lib score_text = Return score.

(** A row that can also be stored: the score fits in 64 bits. *)
Definition row_ok (lib : Platform) (row : list (string * string)) : Prop :=
  ∃ last_name first_name faculty course score_text score,
    StudentManager.row_get row "Фамилия" = Return last_name
    ∧ StudentManager.row_get row "Имя" = Return first_name
    ∧ StudentManager.row_get row "Факультет" = Return faculty
    ∧ StudentManager.row_get row "Курс" = Return course
    ∧ StudentManager.row_get row "Оценка" = Return score_text
    ∧ py_int lib score_text = Return score
    ∧ in_int64 score.

(** The student that the import makes of a CSV row (its id apart). *)
Definition row_gives (lib : Platform) (row : list (string * string))
    (s : Student.t) : Prop :=
  StudentManager.row_get row "Фамилия" = Return (Student.last_name s)
  ∧ StudentManager.row_get row "Имя" = Return (Student.first_name s)
  ∧ StudentManager.row_get row "Факультет" = Return (Student.faculty s)
  ∧ StudentManager.row_get row "Курс" = Return (Student.course s)
  ∧ ∃ score_text,
      StudentManager.row_get row "Оценка" = Return score_text
      ∧ py_int lib score_text = Return (Student.score s).

(** The answer of [logout]. *)
Definition logged_out : json :=
  JDict [("message", JStr "Logged out successfully")].

(** A store with two students, and a platform whose file system has one
    good file, one with a score that is not a number and one with a score
    of 2^63. *)
Definition example_students : list Student.t :=
  [Student.mk 1 "Ivanov" "Ivan" "Physics" "Math" 95;
   Student.mk 2 "Petrov" "Petr" "Physics" "Algebra" 20].

Definition school_db : DB :=
  mkDB example_students (users example_db) (sessions example_db).

Definition good_row : list (string * string) :=
  [("Фамилия", "Sidorov"); ("Имя", "Sidor"); ("Факультет", "Physics");
   ("Курс", "Math"); ("Оценка", "7")].

Definition bad_row : list (string * string) :=
  [("Фамилия", "Sidorov"); ("Имя", "Sidor"); ("Факультет", "Physics");
   ("Курс", "Math"); ("Оценка", "seven")].

Definition big_row : list (string * string) :=
  [("Фамилия", "Sidorov"); ("Имя", "Sidor"); ("Факультет", "Physics");
   ("Курс", "Math"); ("Оценка", "9223372036854775808")].

Definition file_platform : Platform :=
  mkPlatform (λ bs, bs) (λ _, 0) (λ _, None)
    (λ s, if bool_decide (s = "7") then Return 7
          else if bool_decide (s = "9223372036854775808") then Return (2 ^ 63)
          else Raise ValueError)
    (λ path, if bool_decide (path = "good.csv") then Return [good_row; good_row]
             else if bool_decide (path = "bad.csv") then Return [good_row; bad_row]
             else if bool_decide (path = "big.csv") then Return [good_row; big_row]
             else Raise FileNotFoundError)
    (λ _, EmptyString).

(** Alice reads the low scores of "Math" on the two-student store, then
    lowers Ivanov's score to 10. *)
Definition low_first : World * outcome json :=
  get_low_score_students toy_platform (mkWorld school_db (Some ∅) [])
    alice_header "Math" 30 10.

Definition low_update : World * outcome json :=
  update_student low_first.1 alice_header 1
    (StudentUpdate.mk None None None None (Some 10)) 20.

(** Alice reads student 2, then deletes him. *)
Definition seen_first : World * outcome json :=
  get_student toy_platform (mkWorld school_db (Some ∅) []) alice_header 2 10.

Definition seen_delete : World * outcome json :=
  delete_student seen_first.1 alice_header 2 20.

(* ================================================================== *)
(** * Properties *)
(* ================================================================== *)

(** ** Strings *)

Lemma split_on_length sep s :
  length (split_on sep s).2 = count_char sep s.
Proof.
  induction s as [|c s IH]; simpl; [done|].
  destruct (split_on sep s) as [p ps]; simpl in *.
  destruct (Ascii.eqb c sep); simpl; lia.
Qed.

Lemma split_length sep s : length (split sep s) = S (count_char sep s).
Proof.
  unfold split. pose proof (split_on_length sep s) as H.
  destruct (split_on sep s); simpl in *. lia.
Qed.

Lemma count_char_app c s1 s2 :
  count_char c (s1 +:+ s2) = (count_char c s1 + count_char c s2)%nat.
Proof. induction s1 as [|d s1 IH]; simpl; [done|]. rewrite IH. lia. Qed.

Lemma split_on_no_sep sep s :
  count_char sep s = O → split_on sep s = (s, []).
Proof.
  induction s as [|c s IH]; simpl; [done|].
  destruct (Ascii.eqb c sep); [discriminate|].
  intros H. by rewrite IH.
Qed.

Lemma split_on_app sep a b :
  count_char sep a = O →
  split_on sep (a +:+ String sep b) = (a, split sep b).
Proof.
  induction a as [|c a IH]; simpl.
  - intros _. unfold split. destruct (split_on sep b).
    by rewrite Ascii.eqb_refl.
  - destruct (Ascii.eqb c sep); [discriminate|].
    intros H. by rewrite IH.
Qed.

Lemma split_first_app sep a b :
  count_char sep a = O →
  split_first sep (a +:+ String sep b) = Some (a, b).
Proof.
  induction a as [|c a IH]; simpl.
  - intros _. by rewrite Ascii.eqb_refl.
  - destruct (Ascii.eqb c sep); [discriminate|].
    intros H. by rewrite IH.
Qed.

Lemma hex_of_byte_no_colon b : count_char ":" (hex_of_byte b) = O.
Proof. destruct b; reflexivity. Qed.

Lemma hexlify_no_colon bs : count_char ":" (hexlify bs) = O.
Proof.
  induction bs as [|b bs IH]; [done|].
  change (hexlify (b :: bs)) with (hex_of_byte b +:+ hexlify bs).
  by rewrite count_char_app, hex_of_byte_no_colon, IH.
Qed.

(** ** Lists as tables *)

Lemma unique_row {A B} (f : A → B) (l : list A) i j x y :
  NoDup (f <$> l) → l !! i = Some x → l !! j = Some y → f x = f y → i = j.
Proof.
  intros Hnd Hi Hj Hf.
  apply (NoDup_lookup (f <$> l) i j (f x) Hnd).
  - by rewrite list_lookup_fmap, Hi.
  - by rewrite list_lookup_fmap, Hj, Hf.
Qed.

(** A query on a [UNIQUE] column finds the one row that has the value. *)
Lemma find_unique {A B} (f : A → B) (P : A → Prop)
    `{!∀ x, Decision (P x)} (l : list A) i x :
  NoDup (f <$> l) → l !! i = Some x → P x → (∀ y, P y → f y = f x) →
  list_find P l = Some (i, x).
Proof.
  intros Hnd Hi HP Hkey. apply list_find_Some. split_and!; [done..|].
  intros j y Hj Hlt HPy.
  assert (i = j) by (eapply (unique_row f); eauto; symmetry; eauto). lia.
Qed.

Lemma elem_of_insert_inv {A} (l : list A) i x y :
  y ∈ <[i:=x]> l → y = x ∨ ∃ j, j ≠ i ∧ l !! j = Some y.
Proof.
  intros [j Hj]%list_elem_of_lookup_1.
  apply list_lookup_insert_Some in Hj as [(-> & -> & _)|[Hne Hj]]; eauto.
Qed.

(** ** Passwords *)

Section PasswordFacts.
Variable lib : Platform.

Lemma hash_password_unfold entropy password :
  AuthManager.hash_password lib entropy password =
    token_hex 16 entropy
      +:+ String ":" (AuthManager.sha256_hexdigest lib
                        (password +:+ token_hex 16 entropy)).
Proof. reflexivity. Qed.

Lemma hash_password_split entropy password :
  split ":" (AuthManager.hash_password lib entropy password) =
    [token_hex 16 entropy;
     AuthManager.sha256_hexdigest lib (password +:+ token_hex 16 entropy)].
Proof.
  rewrite hash_password_unfold. unfold split at 1.
  rewrite split_on_app by apply hexlify_no_colon.
  unfold split. by rewrite split_on_no_sep by apply hexlify_no_colon.
Qed.

Lemma verify_password_accepts entropy password :
  AuthManager.verify_password lib password
    (AuthManager.hash_password lib entropy password) = Return true.
Proof.
  unfold AuthManager.verify_password, AuthManager.verify_password_try.
  rewrite hash_password_split. simpl. by rewrite bool_decide_eq_true_2.
Qed.

(** C8. Password round trip: for every password (and every salt drawn by
    [hash_password]), [verify_password] accepts the stored string that
    [hash_password] produced; that string has exactly one [':'], so cutting
    at every [':'], as the code does, and cutting at the first one, as the
    specification says, both give back the salt and the digest. *)
Theorem verify_password_hash_password entropy password :
  let stored := AuthManager.hash_password lib entropy password in
  let salt := token_hex 16 entropy in
  AuthManager.verify_password lib password stored = Return true
  ∧ split ":" stored
      = [salt; AuthManager.sha256_hexdigest lib (password +:+ salt)]
  ∧ split_first ":" stored
      = Some (salt, AuthManager.sha256_hexdigest lib (password +:+ salt)).
Proof.
  simpl. split_and!.
  - apply verify_password_accepts.
  - apply hash_password_split.
  - rewrite hash_password_unfold. apply split_first_app, hexlify_no_colon.
Qed.

(** C9. A stored hash that is not of the form [salt:hash] (no [':'], or
    more than one) makes [verify_password] return [False]; the unpacking
    error is swallowed by the bare [except], nothing is raised. *)
Theorem verify_password_malformed password password_hash :
  count_char ":" password_hash ≠ 1%nat →
  AuthManager.verify_password lib password password_hash = Return false.
Proof.
  intros Hcount.
  unfold AuthManager.verify_password, AuthManager.verify_password_try.
  pose proof (split_length ":" password_hash) as Hlen.
  destruct (split ":" password_hash) as [|salt [|hash_value [|x rest]]];
    simpl in *; try done.
  exfalso. apply Hcount. lia.
Qed.

Lemma verify_password_total password password_hash :
  ∃ b, AuthManager.verify_password lib password password_hash = Return b.
Proof.
  unfold AuthManager.verify_password.
  destruct (AuthManager.verify_password_try lib password password_hash);
    simpl; eauto.
Qed.
End PasswordFacts.

(** Two malformed stored hashes: no separator, and two of them. *)
Lemma verify_password_malformed_witness :
  AuthManager.verify_password toy_platform "secret" "no separator here"
    = Return false
  ∧ AuthManager.verify_password toy_platform "secret" "00ff:ab:cd"
    = Return false.
Proof.
  split; apply verify_password_malformed; vm_compute; lia.
Defined.

(** ** Sessions: [verify_token] *)

Lemma verify_token_Some db token now ctx :
  AuthManager.verify_token db token now = Some ctx →
  ∃ i s user,
    sessions db !! i = Some s ∧ Session.token s = token
    ∧ Session.is_active s = true ∧ now ≤ Session.expires_at s
    ∧ owner db s = Some user ∧ User.is_active user = true
    ∧ ctx = auth_user_of user.
Proof.
  unfold AuthManager.verify_token, owner.
  destruct (list_find _ (sessions db)) as [[i s]|] eqn:Hfind; [|done].
  apply list_find_Some in Hfind as (Hi & [Htok Hact] & _).
  case_bool_decide as Hexp; [done|].
  destruct (list_find _ (users db)) as [[j user]|] eqn:Huser; [|done].
  destruct (User.is_active user) eqn:Hu; simpl; [|done].
  intros [= <-]. exists i, s, user.
  unfold auth_user_of. rewrite Hu, Huser. split_and!; try done. lia.
Qed.

Lemma verify_token_row db i s token now :
  NoDup (Session.token <$> sessions db) →
  sessions db !! i = Some s → Session.token s = token →
  AuthManager.verify_token db token now =
    if Session.is_active s
    then if bool_decide (Session.expires_at s < now) then None
         else match owner db s with
              | Some user =>
                  if User.is_active user then Some (auth_user_of user) else None
              | None => None
              end
    else None.
Proof.
  intros Hnd Hi Htok. unfold AuthManager.verify_token, owner.
  destruct (Session.is_active s) eqn:Hact.
  - rewrite (find_unique Session.token _ _ i s); try done.
    + case_bool_decide; [done|].
      destruct (list_find _ (users db)) as [[j user]|]; simpl; [|done].
      unfold auth_user_of. by destruct (User.is_active user).
    + intros y [Hy _]. congruence.
  - destruct (list_find _ (sessions db)) as [[j s']|] eqn:Hfind; [|done].
    apply list_find_Some in Hfind as (Hj & [Htok' Hact'] & _).
    assert (j = i) as ->
      by (eapply (unique_row Session.token); eauto; congruence).
    congruence.
Qed.

(** C2 (amended). With the [UNIQUE] constraint on [sessions.token],
    [verify_token] returns the owner's context for a session row exactly
    when the row is active, its expiry is not before now
    ([now <= expires_at]: the instant of expiry itself still passes) and the
    owner is active; for a row that is deactivated or whose expiry lies in
    the past it returns [None] although the row exists. *)
Theorem verify_token_iff db s now :
  NoDup (Session.token <$> sessions db) →
  s ∈ sessions db →
  (∀ ctx,
     AuthManager.verify_token db (Session.token s) now = Some ctx ↔
     Session.is_active s = true ∧ now ≤ Session.expires_at s
     ∧ ∃ user, owner db s = Some user ∧ User.is_active user = true
               ∧ ctx = auth_user_of user)
  ∧ (Session.is_active s = false ∨ Session.expires_at s < now →
     AuthManager.verify_token db (Session.token s) now = None).
Proof.
  intros Hnd [i Hi]%list_elem_of_lookup_1.
  rewrite (verify_token_row db i s _ now Hnd Hi eq_refl).
  split.
  - intros ctx. destruct (Session.is_active s); [|by split; [|intros [? _]]].
    case_bool_decide as Hexp; [split; [done|intros (_ & ? & _); lia]|].
    destruct (owner db s) as [user|];
      [|split; [done|by intros (_ & _ & ? & ? & _)]].
    destruct (User.is_active user) eqn:Hu.
    + split.
      * intros [= <-]. split_and!; [done|lia|by exists user].
      * by intros (_ & _ & user' & [= <-] & _ & ->).
    + split; [done|]. intros (_ & _ & user' & [= <-] & ? & _). congruence.
  - intros [->|Hexp]; [done|].
    destruct (Session.is_active s); [|done].
    by rewrite bool_decide_eq_true_2.
Qed.

Lemma example_db_wf : db_wf example_db.
Proof. repeat split; compute_done. Qed.

(** On the example store: alice's live session at the instant of expiry,
    just after it, and her closed session. *)
Lemma verify_token_iff_witness :
  AuthManager.verify_token example_db "access-a" 100
    = Some (AuthUser.mk 1 "alice" false true)
  ∧ AuthManager.verify_token example_db "access-a" 101 = None
  ∧ AuthManager.verify_token example_db "access-c" 50 = None.
Proof.
  pose (a := Session.mk 1 1 "access-a" "refresh-a" 0 100 true).
  pose (c := Session.mk 3 1 "access-c" "refresh-c" 0 100 false).
  assert (Hnd : NoDup (Session.token <$> sessions example_db))
    by compute_done.
  assert (Ha : a ∈ sessions example_db) by (apply list_elem_of_here).
  assert (Hc : c ∈ sessions example_db)
    by (do 2 apply list_elem_of_further; apply list_elem_of_here).
  split_and!.
  - apply (proj1 (verify_token_iff example_db a 100 Hnd Ha)).
    split_and!; [done|simpl; lia|].
    by exists (User.mk 1 "alice" "alice@x.com" "00:70773030" false true 0).
  - apply (proj2 (verify_token_iff example_db a 101 Hnd Ha)). right. simpl. lia.
  - apply (proj2 (verify_token_iff example_db c 50 Hnd Hc)). by left.
Defined.

(** C2, as the specification states it, fails at the instant of expiry:
    the row is not valid in the specification's sense ([now < expires_at]
    is false at [now = expires_at]), yet [verify_token] authenticates. *)
Lemma verify_token_spec_counterexample :
  let s := Session.mk 1 1 "access-a" "refresh-a" 0 100 true in
  s ∈ sessions example_db
  ∧ ¬ session_valid_spec s 100
  ∧ AuthManager.verify_token example_db (Session.token s) 100
      = Some (AuthUser.mk 1 "alice" false true).
Proof.
  simpl. split_and!.
  - apply list_elem_of_here.
  - unfold session_valid_spec. simpl. lia.
  - reflexivity.
Qed.

(** ** Registration *)

(** C5. When a user with the given username or the given email exists,
    [register_user] returns [None] and the endpoint answers 400 (Conflict);
    the store is the one before the call, so no row is added.  The check is
    the one query [username == ... OR email == ...]. *)
Theorem register_conflict lib w user_data entropy now :
  (∃ u, u ∈ users (db w)
        ∧ (User.username u = UserRegister.username user_data
           ∨ User.email u = UserRegister.email user_data)) →
  AuthManager.register_user lib (db w) (UserRegister.username user_data)
      (UserRegister.email user_data) (UserRegister.password user_data)
      (UserRegister.is_read_only user_data) entropy now = (db w, None)
  ∧ register lib w user_data entropy now
      = (w, Raise (HTTPException 400 "Username or email already exists")).
Proof.
  intros (u & Hin & Hu).
  assert (AuthManager.register_user lib (db w) (UserRegister.username user_data)
      (UserRegister.email user_data) (UserRegister.password user_data)
      (UserRegister.is_read_only user_data) entropy now = (db w, None)) as Hreg.
  { unfold AuthManager.register_user.
    destruct (list_find_elem_of
                (λ u, User.username u = UserRegister.username user_data
                      ∨ User.email u = UserRegister.email user_data)
                (users (db w)) u Hin Hu) as [[i u'] ->].
    done. }
  split; [done|]. unfold register. by rewrite Hreg.
Qed.

(** Registering "alice" again, with another email. *)
Lemma register_conflict_witness :
  register toy_platform (mkWorld example_db None [])
    (UserRegister.mk "alice" "other@x.com" "pw2" false) [] 7
  = (mkWorld example_db None [],
     Raise (HTTPException 400 "Username or email already exists")).
Proof.
  apply register_conflict.
  exists (User.mk 1 "alice" "alice@x.com" "00:70773030" false true 0).
  split; [apply list_elem_of_here|by left].
Defined.

(** Without such a user the call adds exactly one row, the new user. *)
Lemma register_new lib db username email password is_read_only entropy now :
  (∀ u, u ∈ users db → User.username u ≠ username ∧ User.email u ≠ email) →
  ∃ user,
    AuthManager.register_user lib db username email password is_read_only
        entropy now
      = (mkDB (students db) (users db ++ [user]) (sessions db),
         Some (UserDict.mk (User.id user) username email is_read_only true now))
    ∧ User.username user = username ∧ User.email user = email
    ∧ User.is_active user = true
    ∧ User.password_hash user = AuthManager.hash_password lib entropy password.
Proof.
  intros Hnone. unfold AuthManager.register_user.
  destruct (list_find _ (users db)) as [[i u]|] eqn:Hfind.
  - apply list_find_Some in Hfind as (Hi%list_elem_of_lookup_2 & Hu & _).
    destruct (Hnone u Hi) as [? ?]. by destruct Hu.
  - eexists. split; [reflexivity|]. done.
Qed.

Lemma register_user_wf lib db username email password is_read_only entropy now :
  db_wf db →
  db_wf (AuthManager.register_user lib db username email password
           is_read_only entropy now).1.
Proof.
  intros (Hu & He & Ht & Hr). unfold AuthManager.register_user.
  destruct (list_find _ (users db)) as [[i u]|] eqn:Hfind; [done|].
  apply list_find_None in Hfind. rewrite Forall_forall in Hfind.
  unfold db_wf. simpl. rewrite !fmap_app. simpl.
  split_and!; try done.
  - apply NoDup_app. split_and!; [done| |apply NoDup_singleton].
    intros x (u & -> & Hin)%list_elem_of_fmap_1 Heq%list_elem_of_singleton.
    apply (Hfind u Hin). by left.
  - apply NoDup_app. split_and!; [done| |apply NoDup_singleton].
    intros x (u & -> & Hin)%list_elem_of_fmap_1 Heq%list_elem_of_singleton.
    apply (Hfind u Hin). by right.
Qed.

(** ** Login *)

Lemma fresh_no_conflict db generated :
  fresh_tokens db generated →
  ¬ session_conflict (sessions db) generated.1 generated.2.
Proof.
  intros [Ha Hr] (s & Hin & [Hs|Hs])%Exists_exists.
  - apply Ha. rewrite <- Hs. by apply list_elem_of_fmap_2.
  - apply Hr. rewrite <- Hs. by apply list_elem_of_fmap_2.
Qed.

(** C4. [login] raises the same 401 with the same detail, and leaves the
    world as it was, in each failure case: no user of that name, the user
    is inactive, or the password does not verify.  For an active user whose
    password verifies (and tokens that are not in use) it returns the token
    pair just drawn and stores one new session expiring in 24 hours. *)
Theorem login_uniform_failure lib w user_data generated now :
  let found :=
    snd <$> list_find (λ u, User.username u = UserLogin.username user_data)
              (users (db w)) in
  let checks user :=
    AuthManager.verify_password lib (UserLogin.password user_data)
      (User.password_hash user) in
  (found = None
   ∨ (∃ user, found = Some user ∧ User.is_active user = false)
   ∨ (∃ user, found = Some user ∧ checks user = Return false) →
   login lib w user_data generated now
     = (w, Raise (HTTPException 401 "Invalid username or password")))
  ∧ (∀ user,
       found = Some user → User.is_active user = true →
       checks user = Return true → fresh_tokens (db w) generated →
       ∃ db_session,
         login lib w user_data generated now
           = (set_db w (mkDB (students (db w)) (users (db w))
                          (sessions (db w) ++ [db_session])),
              Return (TokenDict.mk generated.1 generated.2 (User.id user)
                        (User.username user) (User.is_read_only user)))
         ∧ Session.token db_session = generated.1
         ∧ Session.refresh_token db_session = generated.2
         ∧ Session.user_id db_session = User.id user
         ∧ Session.is_active db_session = true
         ∧ Session.expires_at db_session = now + timedelta_hours 24).
Proof.
  simpl. unfold login, AuthManager.login_user.
  destruct (list_find _ (users (db w))) as [[i u]|]; simpl.
  - split.
    + intros [?|[(user & [= <-] & Hu)|(user & [= <-] & Hp)]]; [done| |].
      * by rewrite Hu.
      * destruct (User.is_active u); [|done]. simpl. by rewrite Hp.
    + intros user [= <-] Hu Hp Hfresh. rewrite Hu. simpl. rewrite Hp. simpl.
      destruct generated as [access_token refresh_token].
      rewrite bool_decide_eq_false_2
        by apply (fresh_no_conflict _ _ Hfresh).
      eexists. split; [reflexivity|]. done.
  - split; [done|]. by intros.
Qed.

(** An unknown user, an inactive one, a wrong password, and a login that
    succeeds. *)
Lemma login_uniform_failure_witness :
  let w := mkWorld example_db None [] in
  let unauthenticated :=
    (w, Raise (HTTPException 401 "Invalid username or password")) in
  login toy_platform w (UserLogin.mk "dave" "pw") ("t1", "t2") 5
    = unauthenticated
  ∧ login toy_platform w (UserLogin.mk "carol" "pw") ("t1", "t2") 5
    = unauthenticated
  ∧ login toy_platform w (UserLogin.mk "alice" "wrong") ("t1", "t2") 5
    = unauthenticated
  ∧ ∃ w', login toy_platform w (UserLogin.mk "bob" "") ("t1", "t2") 5
          = (w', Return (TokenDict.mk "t1" "t2" 2 "bob" true)).
Proof.
  simpl. split_and!.
  - apply login_uniform_failure. by left.
  - apply login_uniform_failure. right. left.
    by exists (User.mk 3 "carol" "carol@x.com" "44:55" false false 0).
  - apply login_uniform_failure. right. right.
    by exists (User.mk 1 "alice" "alice@x.com" "00:70773030" false true 0).
  - destruct (proj2 (login_uniform_failure toy_platform
                       (mkWorld example_db None [])
                       (UserLogin.mk "bob" "") ("t1", "t2") 5)
                (User.mk 2 "bob" "bob@x.com" "22:3232" true true 0))
      as (db_session & Hlogin & _);
      [done|done|compute_done|split; compute_done|].
    eexists. exact Hlogin.
Defined.

(** A user who has just registered can log in with the same password. *)
Lemma login_after_register lib db username email password is_read_only
    entropy now generated now' :
  db_wf db →
  (∀ u, u ∈ users db → User.username u ≠ username ∧ User.email u ≠ email) →
  fresh_tokens db generated →
  let db1 := (AuthManager.register_user lib db username email password
                is_read_only entropy now).1 in
  ∃ db2 result,
    AuthManager.login_user lib db1 username password generated now'
      = Return (db2, Some result)
    ∧ TokenDict.access_token result = generated.1
    ∧ TokenDict.refresh_token result = generated.2
    ∧ TokenDict.username result = username.
Proof.
  intros Hwf Hnone Hfresh.
  destruct (register_new lib db username email password is_read_only entropy
              now Hnone) as (user & -> & Hname & _ & Hact & Hhash).
  simpl. unfold AuthManager.login_user. simpl.
  assert (list_find (λ u, User.username u = username) (users db ++ [user])
          = Some (length (users db), user)) as ->.
  { apply list_find_Some. split_and!; [|done|].
    - by rewrite lookup_app_r, Nat.sub_diag by lia.
    - intros j y Hj Hlt Hy. rewrite lookup_app_l in Hj by done.
      apply list_elem_of_lookup_2 in Hj. by destruct (Hnone y Hj). }
  rewrite Hact, Hhash, verify_password_accepts. simpl.
  destruct generated as [access_token refresh_token].
  rewrite bool_decide_eq_false_2 by apply (fresh_no_conflict db _ Hfresh).
  eexists _, _. split; [reflexivity|]. by split_and!.
Qed.

(** ** Token rotation *)

Lemma not_elem_of_insert {A} (l : list A) i x y :
  y ∉ l → y ≠ x → y ∉ <[i:=x]> l.
Proof.
  intros Hl Hne [->|(j & _ & Hj)]%elem_of_insert_inv; [done|].
  by apply Hl, (list_elem_of_lookup_2 _ j).
Qed.

(** Overwriting the one occurrence of a value with another removes it. *)
Lemma overwritten_gone {A} (l : list A) i x y :
  NoDup l → l !! i = Some x → x ≠ y → x ∉ <[i:=y]> l.
Proof.
  intros Hnd Hi Hne [->|(j & Hji & Hj)]%elem_of_insert_inv; [done|].
  apply Hji. by apply (NoDup_lookup l j i x).
Qed.

Lemma refresh_token_user_Some db refresh_token generated now db' result :
  AuthManager.refresh_token_user db refresh_token generated now
    = Return (db', Some result) →
  ∃ i old user,
    sessions db !! i = Some old
    ∧ Session.refresh_token old = refresh_token
    ∧ Session.is_active old = true
    ∧ owner db old = Some user ∧ User.is_active user = true
    ∧ db' = mkDB (students db) (users db)
              (<[i := AuthManager.rotate old generated now]> (sessions db))
    ∧ result = TokenDict.mk generated.1 generated.2 (User.id user)
                 (User.username user) (User.is_read_only user).
Proof.
  unfold AuthManager.refresh_token_user, owner.
  destruct (list_find _ (sessions db)) as [[i old]|] eqn:Hfind; [|done].
  apply list_find_Some in Hfind as (Hi & [Hrt Hact] & _).
  destruct (list_find _ (users db)) as [[j user]|] eqn:Huser; [|done].
  destruct (User.is_active user) eqn:Hu; simpl; [|done].
  case_bool_decide; [done|]. intros [= <- <-].
  exists i, old, user. by rewrite Huser.
Qed.

Lemma refresh_token_user_absent db refresh_token generated now :
  refresh_token ∉ Session.refresh_token <$> sessions db →
  AuthManager.refresh_token_user db refresh_token generated now
    = Return (db, None).
Proof.
  intros Habsent. unfold AuthManager.refresh_token_user.
  destruct (list_find _ (sessions db)) as [[i s]|] eqn:Hfind; [|done].
  apply list_find_Some in Hfind as (Hi%list_elem_of_lookup_2 & [Hrt _] & _).
  destruct Habsent. rewrite <- Hrt. by apply list_elem_of_fmap_2.
Qed.

Lemma verify_token_absent db token now :
  token ∉ Session.token <$> sessions db →
  AuthManager.verify_token db token now = None.
Proof.
  intros Habsent. unfold AuthManager.verify_token.
  destruct (list_find _ (sessions db)) as [[i s]|] eqn:Hfind; [|done].
  apply list_find_Some in Hfind as (Hi%list_elem_of_lookup_2 & [Htok _] & _).
  destruct Habsent. rewrite <- Htok. by apply list_elem_of_fmap_2.
Qed.

(** A pair that is in no row stays in no row, whatever is called next, as
    long as no later call draws one of its two strings again. *)
Lemma auth_step_keeps_fresh lib db timed pair :
  fresh_tokens db pair →
  Forall (λ g, g.1 ≠ pair.1 ∧ g.2 ≠ pair.2) (drawn timed) →
  fresh_tokens (auth_step lib db timed) pair.
Proof.
  intros [Ha Hr] Hdrawn. destruct timed as [now call].
  destruct call as [username email password ro entropy
                   |username password generated
                   |refresh_token generated
                   |token]; simpl.
  - unfold AuthManager.register_user.
    by destruct (list_find _ (users db)).
  - apply Forall_singleton in Hdrawn as [Hg1 Hg2].
    unfold AuthManager.login_user.
    destruct (list_find _ (users db)) as [[i user]|]; [|done].
    destruct (User.is_active user); simpl; [|done].
    destruct (AuthManager.verify_password lib password _) as [[]|];
      simpl; try done.
    destruct generated as [access_token refresh_token].
    case_bool_decide; [done|].
    split; simpl; rewrite fmap_app; simpl;
      apply not_elem_of_app; (split; [done|]);
      intros ?%list_elem_of_singleton; simpl in *; congruence.
  - apply Forall_singleton in Hdrawn as [Hg1 Hg2].
    unfold AuthManager.refresh_token_user.
    destruct (list_find _ (sessions db)) as [[i s]|]; [|done].
    destruct (list_find _ (users db)) as [[j user]|]; [|done].
    destruct (User.is_active user); simpl; [|done].
    case_bool_decide; [done|].
    split; simpl; rewrite list_fmap_insert;
      apply not_elem_of_insert; simpl; done || congruence.
  - unfold AuthManager.logout_user.
    destruct (list_find _ (sessions db)) as [[i s]|] eqn:Hfind; [|done].
    apply list_find_Some in Hfind as (Hi & _ & _).
    split; simpl; rewrite list_fmap_insert; simpl;
      rewrite list_insert_id; try done; by rewrite list_lookup_fmap, Hi.
Qed.

Lemma auth_run_keeps_fresh lib calls db pair :
  fresh_tokens db pair →
  Forall (λ timed, Forall (λ g, g.1 ≠ pair.1 ∧ g.2 ≠ pair.2) (drawn timed))
         calls →
  fresh_tokens (auth_run lib db calls) pair.
Proof.
  unfold auth_run. revert db.
  induction calls as [|timed calls IH]; intros db Hfresh Hcalls; [done|].
  apply Forall_cons in Hcalls as [Hc Hcalls]. simpl.
  by apply IH; [apply auth_step_keeps_fresh|].
Qed.

(** C3. When [refresh_token_user] succeeds (the tokens it drew not being in
    the store), it rewrites one row of [sessions] in place: the row found by
    the refresh token keeps its position, id, user, creation time and active
    flag and gets the two new tokens and the expiry [now + 24h]; no other
    row or table changes.  From then on, after any further calls that do
    not draw the old strings again, the old access token fails
    [verify_token] and the old refresh token fails [refresh_token_user]. *)
Theorem refresh_rotates_in_place lib db refresh_token generated now db' result :
  db_wf db →
  fresh_tokens db generated →
  AuthManager.refresh_token_user db refresh_token generated now
    = Return (db', Some result) →
  ∃ i old,
    sessions db !! i = Some old
    ∧ Session.refresh_token old = refresh_token
    ∧ students db' = students db ∧ users db' = users db
    ∧ sessions db' = <[i := AuthManager.rotate old generated now]> (sessions db)
    ∧ AuthManager.rotate old generated now
        = Session.mk (Session.id old) (Session.user_id old) generated.1
            generated.2 (Session.created_at old) (now + timedelta_hours 24)
            (Session.is_active old)
    ∧ TokenDict.access_token result = generated.1
    ∧ TokenDict.refresh_token result = generated.2
    ∧ ∀ calls,
        Forall (λ timed,
                  Forall (λ g, g.1 ≠ Session.token old ∧ g.2 ≠ refresh_token)
                         (drawn timed)) calls →
        let later := auth_run lib db' calls in
        (∀ now', AuthManager.verify_token later (Session.token old) now' = None)
        ∧ (∀ generated' now',
             AuthManager.refresh_token_user later refresh_token generated' now'
               = Return (later, None)).
Proof.
  intros (_ & _ & Htok & Href) [Hfa Hfr] Hcall.
  apply refresh_token_user_Some in Hcall
    as (i & old & user & Hi & Hrt & Hact & Hown & Hu & -> & ->).
  exists i, old. split_and!; try done.
  intros calls Hcalls.
  assert (fresh_tokens
            (mkDB (students db) (users db)
               (<[i := AuthManager.rotate old generated now]> (sessions db)))
            (Session.token old, Session.refresh_token old)) as Hgone.
  { split; simpl; rewrite list_fmap_insert; simpl.
    - apply overwritten_gone; [done|by rewrite list_lookup_fmap, Hi|].
      intros Heq. apply Hfa. rewrite <- Heq.
      apply list_elem_of_fmap_2, (list_elem_of_lookup_2 _ i), Hi.
    - apply overwritten_gone; [done|by rewrite list_lookup_fmap, Hi|].
      intros Heq. apply Hfr. rewrite <- Heq.
      apply list_elem_of_fmap_2, (list_elem_of_lookup_2 _ i), Hi. }
  apply (auth_run_keeps_fresh lib calls) in Hgone as [Hga Hgr];
    [|by rewrite Hrt].
  simpl in *. split.
  - intros now'. by apply verify_token_absent.
  - intros generated' now'. apply refresh_token_user_absent. by rewrite <- Hrt.
Qed.

(** Alice's live session rotated at instant 50. *)
Lemma refresh_rotates_in_place_witness :
  let db' :=
    mkDB [] (users example_db)
      (<[0%nat := Session.mk 1 1 "new-access" "new-refresh" 0
                    (50 + timedelta_hours 24) true]> (sessions example_db)) in
  ∃ i old,
    sessions example_db !! i = Some old
    ∧ Session.refresh_token old = "refresh-a"
    ∧ sessions db'
        = <[i := AuthManager.rotate old ("new-access", "new-refresh") 50]>
            (sessions example_db)
    ∧ (∀ now', AuthManager.verify_token db' (Session.token old) now' = None)
    ∧ (∀ generated' now',
         AuthManager.refresh_token_user db' "refresh-a" generated' now'
           = Return (db', None)).
Proof.
  intros db'.
  destruct (refresh_rotates_in_place toy_platform example_db "refresh-a"
              ("new-access", "new-refresh") 50 db'
              (TokenDict.mk "new-access" "new-refresh" 1 "alice" false))
    as (i & old & Hi & Hrt & _ & _ & Hrows & _ & _ & _ & Hlater).
  - apply example_db_wf.
  - split; compute_done.
  - reflexivity.
  - exists i, old. split_and!; [done..| |].
    + apply (Hlater []). constructor.
    + apply (Hlater []). constructor.
Defined.

(** Writing a value that no other position holds keeps a column free of
    duplicates: this is what the [UNIQUE] check of the commit ensures. *)
Lemma NoDup_insert_others {A} (l : list A) i x :
  NoDup l → x ∉ delete i l → NoDup (<[i:=x]> l).
Proof.
  intros Hnd. revert i.
  induction Hnd as [|y l Hy Hnd IH]; intros i Hx; [simpl; constructor|].
  destruct i as [|i]; simpl in *.
  - by constructor.
  - apply not_elem_of_cons in Hx as [Hxy Hx].
    constructor; [|by apply IH].
    intros [->|(j & _ & Hj)]%elem_of_insert_inv; [done|].
    by apply Hy, (list_elem_of_lookup_2 _ j).
Qed.

Lemma no_conflict_columns others access_token refresh_token :
  ¬ session_conflict others access_token refresh_token →
  (access_token ∉ Session.token <$> others)
  ∧ (refresh_token ∉ Session.refresh_token <$> others).
Proof.
  intros Hno. split; intros (s & -> & Hin)%list_elem_of_fmap_1;
    apply Hno, Exists_exists; eauto.
Qed.

(** The schema's constraints are an invariant of the four calls. *)
Lemma refresh_token_user_wf db refresh_token generated now db' result :
  db_wf db →
  AuthManager.refresh_token_user db refresh_token generated now
    = Return (db', result) →
  db_wf db'.
Proof.
  intros Hwf. unfold AuthManager.refresh_token_user.
  destruct (list_find _ (sessions db)) as [[i s]|]; [|by intros [= <- _]].
  destruct (list_find _ (users db)) as [[j user]|]; [|by intros [= <- _]].
  destruct (User.is_active user); simpl; [|by intros [= <- _]].
  case_bool_decide as Hconf; [done|]. intros [= <- _].
  apply no_conflict_columns in Hconf as [Ha Hr].
  rewrite list_fmap_delete in Ha, Hr.
  destruct Hwf as (? & ? & ? & ?).
  unfold db_wf. simpl. rewrite !list_fmap_insert.
  split_and!; try done; by apply NoDup_insert_others.
Qed.

Lemma login_user_wf lib db username password generated now db' result :
  db_wf db →
  AuthManager.login_user lib db username password generated now
    = Return (db', result) →
  db_wf db'.
Proof.
  intros Hwf. unfold AuthManager.login_user.
  destruct (list_find _ (users db)) as [[i user]|]; [|by intros [= <- _]].
  destruct (User.is_active user); simpl; [|by intros [= <- _]].
  destruct (AuthManager.verify_password lib password _) as [[]|];
    simpl; [|by intros [= <- _]|done].
  destruct generated as [access_token refresh_token].
  case_bool_decide as Hconf; [done|]. intros [= <- _].
  apply no_conflict_columns in Hconf as [Ha Hr].
  destruct Hwf as (? & ? & ? & ?).
  unfold db_wf. simpl. rewrite !fmap_app. simpl.
  split_and!; try done; apply NoDup_app;
    (split_and!; [done| |apply NoDup_singleton]);
    intros x Hx Heq%list_elem_of_singleton; congruence.
Qed.

Lemma logout_user_wf db token :
  db_wf db → db_wf (AuthManager.logout_user db token).1.
Proof.
  intros Hwf. unfold AuthManager.logout_user.
  destruct (list_find _ (sessions db)) as [[i s]|] eqn:Hfind; [|done].
  apply list_find_Some in Hfind as (Hi & _ & _).
  destruct Hwf as (? & ? & ? & ?).
  unfold db_wf. simpl. rewrite !list_fmap_insert. simpl.
  rewrite !list_insert_id; try done; by rewrite list_lookup_fmap, Hi.
Qed.



(** ** Partial update *)

(** The loop over the keyword arguments, for any list of them: the id is
    never written, and a column is written only by an argument that names
    it with a value other than [None]. *)
Lemma setattr_loop_frame kwargs student :
  let student' := foldl StudentManager.setattr_if_given student kwargs in
  Student.id student' = Student.id student
  ∧ ((∀ v, StudentManager.kw_last_name (Some v) ∉ kwargs) →
     Student.last_name student' = Student.last_name student)
  ∧ ((∀ v, StudentManager.kw_first_name (Some v) ∉ kwargs) →
     Student.first_name student' = Student.first_name student)
  ∧ ((∀ v, StudentManager.kw_faculty (Some v) ∉ kwargs) →
     Student.faculty student' = Student.faculty student)
  ∧ ((∀ v, StudentManager.kw_course (Some v) ∉ kwargs) →
     Student.course student' = Student.course student)
  ∧ ((∀ v, StudentManager.kw_score (Some v) ∉ kwargs) →
     Student.score student' = Student.score student).
Proof.
  revert student. induction kwargs as [|kw kwargs IH]; intros student; [done|].
  simpl. destruct (IH (StudentManager.setattr_if_given student kw))
    as (Hid & Hln & Hfn & Hfa & Hco & Hsc).
  split_and!.
  - rewrite Hid. by destruct kw as [[]|[]|[]|[]|[]].
  - intros Hno. rewrite Hln.
    + destruct kw as [[v|]|[]|[]|[]|[]]; try done.
      destruct (Hno v). apply list_elem_of_here.
    + intros v Hin. apply (Hno v). by apply list_elem_of_further.
  - intros Hno. rewrite Hfn.
    + destruct kw as [[]|[v|]|[]|[]|[]]; try done.
      destruct (Hno v). apply list_elem_of_here.
    + intros v Hin. apply (Hno v). by apply list_elem_of_further.
  - intros Hno. rewrite Hfa.
    + destruct kw as [[]|[]|[v|]|[]|[]]; try done.
      destruct (Hno v). apply list_elem_of_here.
    + intros v Hin. apply (Hno v). by apply list_elem_of_further.
  - intros Hno. rewrite Hco.
    + destruct kw as [[]|[]|[]|[v|]|[]]; try done.
      destruct (Hno v). apply list_elem_of_here.
    + intros v Hin. apply (Hno v). by apply list_elem_of_further.
  - intros Hno. rewrite Hsc.
    + destruct kw as [[]|[]|[]|[]|[v|]]; try done.
      destruct (Hno v). apply list_elem_of_here.
    + intros v Hin. apply (Hno v). by apply list_elem_of_further.
Qed.

(** On the five arguments of the endpoint the loop computes the student of
    the specification. *)
Lemma setattr_loop_update old student_update :
  foldl StudentManager.setattr_if_given old (update_kwargs student_update)
  = updated_spec old student_update.
Proof.
  destruct old, student_update as [[]  [] [] [] []]; reflexivity.
Qed.

(** The call on a row that exists, for the five arguments of the
    endpoint. *)
Lemma update_student_call db student_id student_update i old :
  NoDup (Student.id <$> students db) →
  students db !! i = Some old → Student.id old = student_id →
  let new := updated_spec old student_update in
  StudentManager.update_student db student_id (update_kwargs student_update)
  = if bool_decide (in_int64 student_id
                    ∧ (Student.score new = Student.score old
                       ∨ in_int64 (Student.score new)))
    then (mkDB (<[i := new]> (students db)) (users db) (sessions db),
          Return (Some (StudentManager.student_dict new)))
    else (db, Raise OverflowError).
Proof.
  intros Hnd Hi Hid new.
  unfold StudentManager.update_student, StudentManager.query_by_id.
  destruct (decide (in_int64 student_id)) as [Hfit|Hbig].
  - rewrite (bool_decide_eq_true_2 _ Hfit).
    rewrite (find_unique Student.id _ _ i old); try done.
    + rewrite setattr_loop_update. fold new.
      destruct (decide (Student.score new = Student.score old
                        ∨ in_int64 (Student.score new))) as [Hs|Hs].
      * rewrite (bool_decide_eq_true_2 _ Hs).
        by rewrite bool_decide_eq_true_2.
      * rewrite (bool_decide_eq_false_2 _ Hs).
        rewrite bool_decide_eq_false_2; [done|]. by intros [_ ?].
    + intros y Hy. congruence.
  - rewrite (bool_decide_eq_false_2 _ Hbig).
    rewrite bool_decide_eq_false_2; [done|]. by intros [? _].
Qed.

(** C7. Partial update: for a student that exists (the row with the given
    primary key) and any update request, [update_student] writes to that
    row only, and in it only to the fields the request gives with a value:
    each field left out or null keeps its prior value, the id included;
    every other row, and the other tables, are as before.  The call returns
    when the id and the score it has to write fit in the 64 bits of an
    SQLite integer, and the row is then the old one with each given field
    replaced; otherwise the driver raises [OverflowError] and nothing is
    written.  A request that gives only a score changes only the score. *)
Theorem update_student_frame db student_id student_update i old :
  NoDup (Student.id <$> students db) →
  students db !! i = Some old → Student.id old = student_id →
  let new := updated_spec old student_update in
  let call := StudentManager.update_student db student_id
                (update_kwargs student_update) in
  let db' := call.1 in
  let fits := in_int64 student_id
              ∧ (Student.score new = Student.score old
                 ∨ in_int64 (Student.score new)) in
  (fits →
   call = (mkDB (<[i := new]> (students db)) (users db) (sessions db),
           Return (Some (StudentManager.student_dict new))))
  ∧ (¬ fits → call = (db, Raise OverflowError))
  ∧ (in_int64 student_id →
     (∀ v, StudentUpdate.score student_update = Some v → in_int64 v) → fits)
  ∧ (∃ row, students db' !! i = Some row
       ∧ (fits → row = new) ∧ (¬ fits → row = old)
       ∧ Student.id row = Student.id old
       ∧ (StudentUpdate.last_name student_update = None →
          Student.last_name row = Student.last_name old)
       ∧ (StudentUpdate.first_name student_update = None →
          Student.first_name row = Student.first_name old)
       ∧ (StudentUpdate.faculty student_update = None →
          Student.faculty row = Student.faculty old)
       ∧ (StudentUpdate.course student_update = None →
          Student.course row = Student.course old)
       ∧ (StudentUpdate.score student_update = None →
          Student.score row = Student.score old))
  ∧ (∀ j, j ≠ i → students db' !! j = students db !! j)
  ∧ users db' = users db ∧ sessions db' = sessions db
  ∧ (∀ v, student_update = StudentUpdate.mk None None None None (Some v) →
     new = Student.mk (Student.id old) (Student.last_name old)
             (Student.first_name old) (Student.faculty old)
             (Student.course old) v).
Proof.
  intros Hnd Hi Hid new call db' fits.
  pose proof (update_student_call db student_id student_update i old
                Hnd Hi Hid) as Hcall.
  cbv zeta in Hcall. fold call in Hcall.
  assert (in_int64 student_id →
          (∀ v, StudentUpdate.score student_update = Some v → in_int64 v) →
          fits) as Hsuff.
  { intros Hfit Hscore. split; [done|].
    destruct (StudentUpdate.score student_update) as [v|] eqn:Hv.
    - right. unfold new, updated_spec. simpl. rewrite Hv. simpl. by apply Hscore.
    - left. unfold new, updated_spec. simpl. by rewrite Hv. }
  destruct (decide fits) as [Hfits|Hfits]; pose proof Hfits as Hfits';
    unfold fits, new in Hfits'.
  - rewrite (bool_decide_eq_true_2 _ Hfits') in Hcall.
    subst db'. rewrite Hcall. simpl.
    split_and!; try done.
    + exists new. split_and!; try done;
        try (intros Hnone; unfold new, updated_spec; simpl; by rewrite Hnone).
      apply list_lookup_insert_eq. by eapply lookup_lt_Some.
    + intros j Hj. by apply list_lookup_insert_ne.
    + by intros v ->.
  - rewrite (bool_decide_eq_false_2 _ Hfits') in Hcall.
    subst db'. rewrite Hcall. simpl.
    split_and!; try done.
    + exists old. by split_and!.
    + by intros v ->.
Qed.

(** An update that gives only the score 50. *)
Lemma update_student_frame_witness :
  let db0 :=
    mkDB [Student.mk 1 "Ivanov" "Ivan" "Physics" "Math" 95;
          Student.mk 2 "Petrov" "Petr" "Physics" "Math" 20] [] [] in
  StudentManager.update_student db0 1
    (update_kwargs (StudentUpdate.mk None None None None (Some 50)))
  = (mkDB [Student.mk 1 "Ivanov" "Ivan" "Physics" "Math" 50;
           Student.mk 2 "Petrov" "Petr" "Physics" "Math" 20] [] [],
     Return (Some (StudentManager.student_dict
                     (Student.mk 1 "Ivanov" "Ivan" "Physics" "Math" 50))))
  ∧ StudentManager.update_student db0 1
      (update_kwargs (StudentUpdate.mk None None None None (Some (2 ^ 63))))
    = (db0, Raise OverflowError).
Proof.
  intros db0. split.
  - destruct (update_student_frame db0 1
                (StudentUpdate.mk None None None None (Some 50)) 0
                (Student.mk 1 "Ivanov" "Ivan" "Physics" "Math" 95))
      as (Hreturns & _).
    + compute_done.
    + reflexivity.
    + reflexivity.
    + apply Hreturns. compute_done.
  - destruct (update_student_frame db0 1
                (StudentUpdate.mk None None None None (Some (2 ^ 63))) 0
                (Student.mk 1 "Ivanov" "Ivan" "Physics" "Math" 95))
      as (_ & Hraises & _).
    + compute_done.
    + reflexivity.
    + reflexivity.
    + apply Hraises. compute_done.
Defined.

(** ** The read-only guard *)

(** C6. For a bearer whose token authenticates to a user with
    [is_read_only = true], each of the five write endpoints raises 403
    "User has read-only access", which is not the 401 of an unauthenticated
    call, whatever the payload (an unknown id, an empty id list, a file that
    does not exist), and the world -- tables, cache and task queue -- is the
    one before the call. *)
Theorem read_only_forbidden w authorization now user :
  get_current_user w authorization now = Return user →
  AuthUser.is_read_only user = true →
  let forbidden : World * outcome json :=
    (w, Raise (HTTPException 403 "User has read-only access")) in
  (∀ student, create_student w authorization student now = forbidden)
  ∧ (∀ student_id student_update,
       update_student w authorization student_id student_update now = forbidden)
  ∧ (∀ student_id, delete_student w authorization student_id now = forbidden)
  ∧ (∀ csv_file, import_csv_background w authorization csv_file now = forbidden)
  ∧ (∀ student_ids,
       delete_students_bulk w authorization student_ids now = forbidden)
  ∧ (∀ detail, forbidden.2 ≠ Raise (HTTPException 401 detail)).
Proof.
  intros Huser Hro forbidden.
  assert (check_read_only w authorization now
          = Raise (HTTPException 403 "User has read-only access")) as Hguard.
  { unfold check_read_only. rewrite Huser. simpl. by rewrite Hro. }
  unfold create_student, update_student, delete_student,
    import_csv_background, delete_students_bulk.
  rewrite Hguard. split_and!; try done.
Qed.

(** Bob, who may only read, with payloads a writer would get 404 and 400
    for. *)
Lemma read_only_forbidden_witness :
  let w := mkWorld example_db (Some ∅) [] in
  let forbidden : World * outcome json :=
    (w, Raise (HTTPException 403 "User has read-only access")) in
  create_student w (Some "Bearer access-b") new_student 50 = forbidden
  ∧ update_student w (Some "Bearer access-b") 999
      (StudentUpdate.mk None None None None None) 50 = forbidden
  ∧ delete_student w (Some "Bearer access-b") 999 50 = forbidden
  ∧ import_csv_background w (Some "Bearer access-b") "no such file" 50
    = forbidden
  ∧ delete_students_bulk w (Some "Bearer access-b") [] 50 = forbidden.
Proof.
  intros w forbidden.
  destruct (read_only_forbidden w (Some "Bearer access-b") 50
              (AuthUser.mk 2 "bob" true true))
    as (Hcreate & Hupdate & Hdelete & Himport & Hbulk & _).
  - reflexivity.
  - reflexivity.
  - split_and!; [apply Hcreate|apply Hupdate|apply Hdelete|apply Himport
                |apply Hbulk].
Defined.

(** For a user who may write, the payload does decide the answer. *)
Lemma writer_payload_matters :
  let w := mkWorld example_db (Some ∅) [] in
  delete_student w alice_header 999 50
    = (w, Raise (HTTPException 404 "Student not found"))
  ∧ delete_students_bulk w alice_header [] 50
    = (w, Raise (HTTPException 400 "student_ids list cannot be empty")).
Proof. split; reflexivity. Qed.

Lemma auth_step_wf lib db timed : db_wf db → db_wf (auth_step lib db timed).
Proof.
  intros Hwf. destruct timed as [now [username email password ro entropy
                                    |username password generated
                                    |refresh_token generated
                                    |token]]; simpl.
  - by apply register_user_wf.
  - destruct (AuthManager.login_user lib db username password generated now)
      as [[db' result]|] eqn:Hcall; [|done].
    by eapply login_user_wf.
  - destruct (AuthManager.refresh_token_user db refresh_token generated now)
      as [[db' result]|] eqn:Hcall; [|done].
    by eapply refresh_token_user_wf.
  - by apply logout_user_wf.
Qed.

Lemma auth_run_wf lib calls db : db_wf db → db_wf (auth_run lib db calls).
Proof.
  unfold auth_run. revert db.
  induction calls as [|timed calls IH]; intros db Hwf; [done|].
  simpl. by apply IH, auth_step_wf.
Qed.

(** ** Cache invalidation *)

Lemma glob_star_any key : glob_match "*" key = true.
Proof. induction key as [|c key IH]; [done|exact IH]. Qed.

Lemma glob_students_prefix rest :
  glob_match "cache:students*" ("cache:students" +:+ rest) = true.
Proof. exact (glob_star_any rest). Qed.

(** The keys of the endpoints named [students:...] match the pattern. *)
Lemma students_keys_match lib name params :
  glob_match "cache:students*"
    (CacheManager.make_cache_key lib ("students" +:+ name) params) = true.
Proof.
  destruct params as [|p params]; unfold CacheManager.make_cache_key.
  - apply glob_students_prefix.
  - change ("cache:" +:+ ("students" +:+ name) +:+ ":"
              +:+ pretty (hash_params lib (p :: params)))
      with ("cache:students" +:+ (name +:+ ":"
              +:+ pretty (hash_params lib (p :: params)))).
    apply glob_students_prefix.
Qed.

(** The keys of [courses:unique] and [faculty:avg_score] do not. *)
Lemma courses_key_no_match lib :
  glob_match "cache:students*"
    (CacheManager.make_cache_key lib "courses:unique" []) = false.
Proof. reflexivity. Qed.

Lemma faculty_key_no_match lib params :
  glob_match "cache:students*"
    (CacheManager.make_cache_key lib "faculty:avg_score" params) = false.
Proof. by destruct params. Qed.

Lemma get_after_invalidate_kept redis pattern now key now' :
  glob_match pattern key = false →
  CacheManager.get (CacheManager.invalidate_pattern redis pattern now).1 key now'
  = CacheManager.get redis key now'.
Proof.
  intros Hglob. destruct redis as [m|]; [|done]. simpl.
  rewrite map_lookup_filter. destruct (m !! key) as [entry|]; [|done]. simpl.
  rewrite option_guard_True; [done|].
  unfold CacheManager.matching. simpl. intros [Hm _]. congruence.
Qed.

Lemma get_after_invalidate_dropped redis pattern now key now' :
  glob_match pattern key = true → now ≤ now' →
  CacheManager.get (CacheManager.invalidate_pattern redis pattern now).1 key now'
  = None.
Proof.
  intros Hglob Hlater. destruct redis as [m|]; [|done]. simpl.
  rewrite map_lookup_filter. destruct (m !! key) as [entry|]; [|done]. simpl.
  destruct (decide (CacheManager.live now entry)) as [Hlive|Hdead].
  - rewrite option_guard_False; [done|].
    unfold CacheManager.matching. simpl. intros Hno. by apply Hno.
  - rewrite option_guard_True.
    + simpl. rewrite bool_decide_eq_false_2; [done|].
      unfold CacheManager.live in *. lia.
    + unfold CacheManager.matching. simpl. by intros [_ ?].
Qed.

(** Authentication reads [users] and [sessions] only. *)
Lemma get_current_user_same w w' authorization now :
  users (db w') = users (db w) → sessions (db w') = sessions (db w) →
  get_current_user w' authorization now = get_current_user w authorization now.
Proof.
  intros Hu Hs. unfold get_current_user, AuthManager.verify_token.
  by rewrite Hu, Hs.
Qed.

(** What [create_student] leaves behind for a caller who may write: the
    new row and an invalidated cache when the score fits in 64 bits, and
    the world as it was when the insert raises. *)
Lemma create_student_world w authorization student now user :
  check_read_only w authorization now = Return user →
  in_int64 (StudentCreate.score student) →
  let w' := (create_student w authorization student now).1 in
  users (db w') = users (db w) ∧ sessions (db w') = sessions (db w)
  ∧ redis w'
      = (CacheManager.invalidate_pattern (redis w) "cache:students*" now).1
  ∧ students (db w')
      = (StudentManager.add_student (students (db w))
           (StudentCreate.last_name student) (StudentCreate.first_name student)
           (StudentCreate.faculty student) (StudentCreate.course student)
           (StudentCreate.score student)).1.
Proof.
  intros Hguard Hfit. unfold create_student, StudentManager.create_student.
  rewrite Hguard. simpl. by rewrite (bool_decide_eq_true_2 _ Hfit).
Qed.

Lemma create_student_overflow w authorization student now user :
  check_read_only w authorization now = Return user →
  ¬ in_int64 (StudentCreate.score student) →
  create_student w authorization student now = (w, Raise OverflowError).
Proof.
  intros Hguard Hbig. unfold create_student, StudentManager.create_student.
  rewrite Hguard. simpl. by rewrite (bool_decide_eq_false_2 _ Hbig).
Qed.

(** The defect behind C1, in general: a list of courses that is in the
    cache survives [create_student], so the handler of the next read
    returns it whatever the student just created. *)
Lemma courses_cache_survives_create lib w authorization student now now'
    writer reader m cached deadline :
  check_read_only w authorization now = Return writer →
  get_current_user w authorization now' = Return reader →
  redis w = Some m →
  m !! "cache:courses:unique" = Some (JList cached, deadline) →
  now' < deadline →
  let w' := (create_student w authorization student now).1 in
  get_unique_courses lib w' authorization now' = (w', Return (JList cached)).
Proof.
  intros Hguard Hreader Hredis Hkey Hlive w'.
  destruct (decide (in_int64 (StudentCreate.score student))) as [Hfit|Hbig].
  - destruct (create_student_world w authorization student now writer Hguard
                Hfit) as (Hu & Hs & Hr & _). fold w' in Hu, Hs, Hr.
    unfold get_unique_courses.
    rewrite (get_current_user_same w w' authorization now' Hu Hs), Hreader.
    simpl. rewrite Hr.
    rewrite get_after_invalidate_kept by apply (courses_key_no_match lib).
    rewrite Hredis. unfold CacheManager.get.
    change ("cache:" +:+ "courses:unique") with "cache:courses:unique".
    rewrite Hkey. by rewrite bool_decide_eq_true_2.
  - subst w'.
    rewrite (create_student_overflow w authorization student now writer
               Hguard Hbig). simpl.
    unfold get_unique_courses. rewrite Hreader. simpl.
    rewrite Hredis. unfold CacheManager.get.
    change ("cache:" +:+ "courses:unique") with "cache:courses:unique".
    rewrite Hkey. by rewrite bool_decide_eq_true_2.
Qed.

(** So does a cached average score. *)
Lemma average_cache_survives_create lib w authorization student faculty
    now now' writer reader m cached deadline :
  check_read_only w authorization now = Return writer →
  get_current_user w authorization now' = Return reader →
  redis w = Some m →
  m !! CacheManager.make_cache_key lib "faculty:avg_score"
         [("faculty", JStr faculty)] = Some (JList [cached], deadline) →
  now' < deadline →
  let w' := (create_student w authorization student now).1 in
  get_average_score lib w' authorization faculty now' = (w', Return cached).
Proof.
  intros Hguard Hreader Hredis Hkey Hlive w'.
  destruct (decide (in_int64 (StudentCreate.score student))) as [Hfit|Hbig].
  - destruct (create_student_world w authorization student now writer Hguard
                Hfit) as (Hu & Hs & Hr & _). fold w' in Hu, Hs, Hr.
    unfold get_average_score.
    rewrite (get_current_user_same w w' authorization now' Hu Hs), Hreader.
    unfold depends. rewrite Hr.
    rewrite get_after_invalidate_kept by apply faculty_key_no_match.
    rewrite Hredis. unfold CacheManager.get.
    rewrite Hkey. by rewrite bool_decide_eq_true_2.
  - subst w'.
    rewrite (create_student_overflow w authorization student now writer
               Hguard Hbig). simpl.
    unfold get_average_score. rewrite Hreader. unfold depends.
    rewrite Hredis. unfold CacheManager.get.
    rewrite Hkey. by rewrite bool_decide_eq_true_2.
Qed.

(** The list of all students, by contrast, is read from the table again
    once a student has been created. *)
Lemma all_students_fresh_after_create lib w authorization student now now'
    writer reader :
  check_read_only w authorization now = Return writer →
  in_int64 (StudentCreate.score student) →
  get_current_user w authorization now' = Return reader →
  now ≤ now' →
  let w' := (create_student w authorization student now).1 in
  (get_all_students lib w' authorization now').2
  = Return (JList (StudentManager.get_all_students (db w'))).
Proof.
  intros Hguard Hfit Hreader Hlater w'.
  destruct (create_student_world w authorization student now writer Hguard
              Hfit) as (Hu & Hs & Hr & _). fold w' in Hu, Hs, Hr.
  unfold get_all_students.
  rewrite (get_current_user_same w w' authorization now' Hu Hs), Hreader.
  simpl. rewrite Hr.
  rewrite get_after_invalidate_dropped; [done| |done].
  apply (students_keys_match lib "" []).
Qed.

(** C1, evaluated.  With Redis up: alice reads the courses (none yet, and
    the empty list is cached), creates a student of course "Math", and
    reads the courses again.  The table now has the course "Math", but the
    second read returns the cached empty list: the pattern
    ["cache:students*"] that [create_student] invalidates does not match
    the key ["cache:courses:unique"].  The same three calls on the list of
    all students, whose key the pattern matches, return the new student. *)
Theorem unique_courses_stale_after_create lib :
  (scenario_first_read lib).2 = Return (JList [])
  ∧ (scenario_create lib).2
      = Return (StudentManager.student_dict
                  (Student.mk 1 "Ivanov" "Ivan" "Physics" "Math" 95))
  ∧ StudentManager.get_unique_courses (db (scenario_create lib).1) = ["Math"]
  ∧ (scenario_second_read lib).2 = Return (JList [])
  ∧ (scenario_all_first lib).2 = Return (JList [])
  ∧ (scenario_all_second lib).2
      = Return (JList [StudentManager.student_dict
                         (Student.mk 1 "Ivanov" "Ivan" "Physics" "Math" 95)]).
Proof. split_and!; vm_compute; reflexivity. Qed.

(** The same stale answer through the route: the empty list fits the
    response model that the route declares. *)
Lemma unique_courses_stale_route lib :
  (route_unique_courses lib (scenario_create lib).1 alice_header 30).2
  = Return (JList []).
Proof. vm_compute; reflexivity. Qed.

(* ================================================================== *)
(** * Further properties of the code *)
(* ================================================================== *)

(** ** Queries over tables *)

(** Rewriting a row that the query does not select, into one it does not
    select either, does not change what the query finds. *)
Lemma list_find_insert_other {A} (P : A → Prop) `{!∀ x, Decision (P x)}
    (l : list A) i x x' :
  l !! i = Some x → ¬ P x → ¬ P x' →
  list_find P (<[i:=x']> l) = list_find P l.
Proof.
  revert i. induction l as [|y l IH]; intros i Hi Hx Hx'; [done|].
  destruct i as [|i]; simpl in *.
  - injection Hi as ->. by rewrite !decide_False.
  - case_decide; [done|]. by rewrite (IH i).
Qed.

Lemma list_find_snoc_other {A} (P : A → Prop) `{!∀ x, Decision (P x)}
    (l : list A) x :
  ¬ P x → list_find P (l ++ [x]) = list_find P l.
Proof.
  intros Hx. induction l as [|y l IH]; simpl.
  - by rewrite decide_False.
  - case_decide; [done|]. by rewrite IH.
Qed.

(** Removing a row that the query does not select leaves the selected row
    the same (its position may move). *)
Lemma list_find_delete_other {A} (P : A → Prop) `{!∀ x, Decision (P x)}
    (l : list A) i x :
  l !! i = Some x → ¬ P x →
  snd <$> list_find P (delete i l) = snd <$> list_find P l.
Proof.
  revert i. induction l as [|y l IH]; intros i Hi Hx; [done|].
  destruct i as [|i]; simpl in *.
  - injection Hi as ->. rewrite decide_False by done.
    by destruct (list_find P l) as [[]|].
  - case_decide; [done|].
    specialize (IH i Hi Hx).
    destruct (list_find P (delete i l)) as [[]|],
             (list_find P l) as [[]|]; simpl in *; congruence.
Qed.

Lemma list_find_is_Some_elem {A} (P : A → Prop) `{!∀ x, Decision (P x)}
    (l : list A) :
  is_Some (list_find P l) ↔ ∃ x, x ∈ l ∧ P x.
Proof.
  split.
  - intros [[i x] (Hi%list_elem_of_lookup_2 & HP & _)%list_find_Some]. eauto.
  - intros (x & Hin & HP). by eapply list_find_elem_of.
Qed.

Lemma next_id_above ids x : x ∈ ids → x < next_id ids.
Proof.
  unfold next_id. induction 1 as [x ids|x y ids _ IH]; simpl; lia.
Qed.

Lemma next_id_fresh ids : next_id ids ∉ ids.
Proof. intros Hin%next_id_above. lia. Qed.

(** ** Sessions through their life *)

Lemma login_user_Some lib db username password generated now db' result :
  AuthManager.login_user lib db username password generated now
    = Return (db', Some result) →
  ∃ i user db_session,
    users db !! i = Some user ∧ User.username user = username
    ∧ User.is_active user = true
    ∧ ¬ session_conflict (sessions db) generated.1 generated.2
    ∧ db_session = Session.mk (next_id (Session.id <$> sessions db))
                     (User.id user) generated.1 generated.2 now
                     (now + timedelta_hours 24) true
    ∧ db' = mkDB (students db) (users db) (sessions db ++ [db_session])
    ∧ result = TokenDict.mk generated.1 generated.2 (User.id user)
                 (User.username user) (User.is_read_only user).
Proof.
  unfold AuthManager.login_user.
  destruct (list_find _ (users db)) as [[i user]|] eqn:Hfind; [|done].
  apply list_find_Some in Hfind as (Hi & Hname & _).
  destruct (User.is_active user) eqn:Hact; simpl; [|done].
  destruct (AuthManager.verify_password lib password _) as [[]|];
    simpl; try done.
  destruct generated as [access_token refresh_token].
  case_bool_decide as Hconf; [done|]. intros [= <- <-].
  by exists i, user, (Session.mk (next_id (Session.id <$> sessions db))
                       (User.id user) access_token refresh_token now
                       (now + timedelta_hours 24) true).
Qed.

Lemma owner_by_key db s i user :
  NoDup (User.id <$> users db) →
  users db !! i = Some user → User.id user = Session.user_id s →
  owner db s = Some user.
Proof.
  intros Hnd Hi Hid. unfold owner.
  rewrite (find_unique User.id _ _ i user); try done.
  intros y Hy. congruence.
Qed.

(** X1. A successful [login_user] hands out an access token that
    [verify_token] accepts, as the user who logged in, up to and including
    the instant 24 hours later, and rejects from then on. *)
Theorem login_then_verify lib db username password generated now db' result :
  db_wf db → NoDup (User.id <$> users db) →
  AuthManager.login_user lib db username password generated now
    = Return (db', Some result) →
  ∀ now',
    AuthManager.verify_token db' (TokenDict.access_token result) now'
    = if bool_decide (now' ≤ now + timedelta_hours 24)
      then Some (AuthUser.mk (TokenDict.user_id result)
                   (TokenDict.username result)
                   (TokenDict.is_read_only result) true)
      else None.
Proof.
  intros Hwf Hpk Hcall now'.
  pose proof (login_user_wf _ _ _ _ _ _ _ _ Hwf Hcall) as (_ & _ & Htok & _).
  apply login_user_Some in Hcall
    as (i & user & db_session & Hi & Hname & Hact & Hconf & -> & -> & ->).
  simpl in *.
  set (db_session := Session.mk _ _ _ _ _ _ _) in *.
  set (db' := mkDB _ _ _) in *.
  assert (sessions db' !! length (sessions db) = Some db_session) as Hrow.
  { simpl. by rewrite lookup_app_r, Nat.sub_diag by lia. }
  rewrite (verify_token_row db' _ db_session (generated.1) now' Htok Hrow
             eq_refl).
  simpl.
  rewrite (owner_by_key db' db_session i user Hpk Hi eq_refl), Hact.
  repeat case_bool_decide; try done; try lia.
  unfold auth_user_of. by rewrite Hact.
Qed.

(** Alice logs in at instant 5 on the example store. *)
Lemma login_then_verify_witness :
  ∃ db',
    AuthManager.login_user toy_platform example_db "alice" "pw" ("t1", "t2") 5
      = Return (db', Some (TokenDict.mk "t1" "t2" 1 "alice" false))
    ∧ AuthManager.verify_token db' "t1" (5 + timedelta_hours 24)
      = Some (AuthUser.mk 1 "alice" false true)
    ∧ AuthManager.verify_token db' "t1" (6 + timedelta_hours 24) = None.
Proof.
  pose proof (login_then_verify toy_platform example_db "alice" "pw"
                ("t1", "t2") 5 _ _ example_db_wf ltac:(compute_done) eq_refl)
    as Hverify.
  eexists. split; [reflexivity|].
  split; [exact (Hverify (5 + timedelta_hours 24))
         |exact (Hverify (6 + timedelta_hours 24))].
Defined.

Lemma verify_token_ext db db' token now :
  users db' = users db →
  snd <$> list_find (λ s, Session.token s = token ∧ Session.is_active s = true)
            (sessions db')
  = snd <$> list_find (λ s, Session.token s = token
                            ∧ Session.is_active s = true) (sessions db) →
  AuthManager.verify_token db' token now = AuthManager.verify_token db token now.
Proof.
  intros Hu Hfind. unfold AuthManager.verify_token. rewrite Hu.
  destruct (list_find _ (sessions db')) as [[i s']|],
           (list_find _ (sessions db)) as [[j s]|]; simpl in *; try done.
  by injection Hfind as ->.
Qed.

Lemma elem_of_delete_other {A} (l : list A) i j x :
  l !! j = Some x → j ≠ i → x ∈ delete i l.
Proof.
  intros Hj Hne. destruct (decide (j < i)%nat).
  - apply (list_elem_of_lookup_2 _ j). by rewrite list_lookup_delete_lt.
  - apply (list_elem_of_lookup_2 _ (pred j)).
    rewrite list_lookup_delete_ge by lia.
    by replace (S (pred j)) with j by lia.
Qed.

(** X2. Sessions do not interfere: whatever [login_user] and
    [refresh_token_user] (on another session's refresh token) and
    [logout_user] (on another token) do, the access token of an existing
    session verifies exactly as before.  So several sessions of one user
    live side by side, and logging out closes one of them only. *)
Theorem other_sessions_unaffected lib db s now' :
  db_wf db → s ∈ sessions db →
  (∀ username password generated now db' result,
     AuthManager.login_user lib db username password generated now
       = Return (db', result) →
     AuthManager.verify_token db' (Session.token s) now'
     = AuthManager.verify_token db (Session.token s) now')
  ∧ (∀ refresh_token generated now db' result,
       Session.refresh_token s ≠ refresh_token →
       AuthManager.refresh_token_user db refresh_token generated now
         = Return (db', result) →
       AuthManager.verify_token db' (Session.token s) now'
       = AuthManager.verify_token db (Session.token s) now')
  ∧ (∀ token,
       token ≠ Session.token s →
       AuthManager.verify_token (AuthManager.logout_user db token).1
         (Session.token s) now'
       = AuthManager.verify_token db (Session.token s) now').
Proof.
  intros (_ & _ & Htok & _) Hin. split_and!.
  - intros username password generated now db' result.
    unfold AuthManager.login_user.
    destruct (list_find _ (users db)) as [[i user]|]; [|by intros [= <- _]].
    destruct (User.is_active user); simpl; [|by intros [= <- _]].
    destruct (AuthManager.verify_password lib password _) as [[]|];
      simpl; [|by intros [= <- _]|done].
    destruct generated as [access_token refresh_token].
    case_bool_decide as Hconf; [done|]. intros [= <- _].
    apply verify_token_ext; [done|]. simpl.
    rewrite list_find_snoc_other; [done|]. simpl. intros [Heq _].
    apply Hconf, Exists_exists. exists s. split; [done|]. by left.
  - intros refresh_token generated now db' result Hother.
    unfold AuthManager.refresh_token_user.
    destruct (list_find _ (sessions db)) as [[i old]|] eqn:Hfind;
      [|by intros [= <- _]].
    apply list_find_Some in Hfind as (Hi & [Hrt _] & _).
    destruct (list_find _ (users db)) as [[j user]|]; [|by intros [= <- _]].
    destruct (User.is_active user); simpl; [|by intros [= <- _]].
    case_bool_decide as Hconf; [done|]. intros [= <- _].
    apply verify_token_ext; [done|]. simpl.
    apply list_elem_of_lookup_1 in Hin as [k Hk].
    assert (k ≠ i) as Hki by (intros ->; congruence).
    rewrite (list_find_insert_other _ _ i old); [done..| |].
    + intros [Heq _]. apply Hki.
      by apply (unique_row Session.token (sessions db) k i s old).
    + simpl. intros [Heq _]. apply Hconf, Exists_exists. exists s.
      split; [by apply (elem_of_delete_other _ i k)|]. by left.
  - intros token Hother. unfold AuthManager.logout_user.
    destruct (list_find _ (sessions db)) as [[i r]|] eqn:Hfind; [|done].
    apply list_find_Some in Hfind as (Hi & Hr & _).
    apply verify_token_ext; [done|]. simpl.
    rewrite (list_find_insert_other _ _ i r); [done..| |].
    + intros [Heq _]. congruence.
    + simpl. intros [Heq _]. congruence.
Qed.

(** Bob's session while alice's are refreshed and closed. *)
Lemma other_sessions_unaffected_witness :
  AuthManager.verify_token
    (AuthManager.logout_user example_db "access-a").1 "access-b" 50
  = Some (AuthUser.mk 2 "bob" true true).
Proof.
  destruct (other_sessions_unaffected toy_platform example_db
              (Session.mk 2 2 "access-b" "refresh-b" 0 100 true) 50
              example_db_wf) as (_ & _ & Hlogout).
  - apply list_elem_of_further, list_elem_of_here.
  - etrans; [apply (Hlogout "access-a"); discriminate|reflexivity].
Defined.

Lemma logout_user_row db i s :
  NoDup (Session.token <$> sessions db) → sessions db !! i = Some s →
  AuthManager.logout_user db (Session.token s)
  = (mkDB (students db) (users db)
       (<[i := AuthManager.deactivate s]> (sessions db)), true).
Proof.
  intros Hnd Hi. unfold AuthManager.logout_user.
  by rewrite (find_unique Session.token _ _ i s).
Qed.

Lemma verify_token_after_logout db s now :
  db_wf db → s ∈ sessions db →
  AuthManager.verify_token (AuthManager.logout_user db (Session.token s)).1
    (Session.token s) now = None.
Proof.
  intros Hwf [i Hi]%list_elem_of_lookup_1.
  pose proof (logout_user_wf db (Session.token s) Hwf) as (_ & _ & Htok' & _).
  destruct Hwf as (_ & _ & Htok & _).
  rewrite (logout_user_row db i s Htok Hi) in *.
  set (db' := mkDB _ _ _) in *.
  rewrite (verify_token_row db' i (AuthManager.deactivate s) _ now Htok');
    [done| |done].
  simpl. apply list_lookup_insert_eq. by eapply lookup_lt_Some.
Qed.

(** X3. [logout_user] on the access token of a session closes that
    session for good, and it is a soft delete: the call returns [True]; the
    row stays where it was, with its id, user, tokens and dates, and only
    [is_active] set to false; no row is added or removed and the other
    tables are untouched; the access token no longer verifies at any
    instant, and the session's refresh token can no longer be used to
    obtain new tokens. *)
Theorem logout_closes_session db s :
  db_wf db → s ∈ sessions db →
  let db' := (AuthManager.logout_user db (Session.token s)).1 in
  (AuthManager.logout_user db (Session.token s)).2 = true
  ∧ (∃ i row,
       sessions db !! i = Some s
       ∧ sessions db' = <[i := row]> (sessions db)
       ∧ sessions db' !! i = Some row
       ∧ Session.is_active row = false
       ∧ Session.id row = Session.id s
       ∧ Session.user_id row = Session.user_id s
       ∧ Session.token row = Session.token s
       ∧ Session.refresh_token row = Session.refresh_token s
       ∧ Session.created_at row = Session.created_at s
       ∧ Session.expires_at row = Session.expires_at s)
  ∧ length (sessions db') = length (sessions db)
  ∧ students db' = students db ∧ users db' = users db
  ∧ (∀ now, AuthManager.verify_token db' (Session.token s) now = None)
  ∧ (∀ generated now,
       AuthManager.refresh_token_user db' (Session.refresh_token s)
         generated now = Return (db', None)).
Proof.
  intros Hwf Hin db'.
  pose proof Hin as [i Hi]%list_elem_of_lookup_1.
  pose proof Hwf as (_ & _ & Htok & _).
  assert (AuthManager.logout_user db (Session.token s)
          = (mkDB (students db) (users db)
               (<[i := AuthManager.deactivate s]> (sessions db)), true))
    as Hcall by (by apply logout_user_row).
  assert (sessions db' = <[i := AuthManager.deactivate s]> (sessions db))
    as Hrows by (unfold db'; by rewrite Hcall).
  assert (sessions db' !! i = Some (AuthManager.deactivate s)) as Hi'.
  { rewrite Hrows. apply list_lookup_insert_eq. by eapply lookup_lt_Some. }
  split_and!.
  - by rewrite Hcall.
  - exists i, (AuthManager.deactivate s). by split_and!.
  - by rewrite Hrows, length_insert.
  - unfold db'. by rewrite Hcall.
  - unfold db'. by rewrite Hcall.
  - intros now. by apply verify_token_after_logout.
  - intros generated now.
    pose proof (logout_user_wf db (Session.token s) Hwf) as (_ & _ & _ & Href').
    fold db' in Href'.
    unfold AuthManager.refresh_token_user.
    destruct (list_find _ (sessions db')) as [[j r]|] eqn:Hfind; [|done].
    apply list_find_Some in Hfind as (Hj & [Hrt Hact] & _).
    assert (j = i) as ->
      by (by apply (unique_row Session.refresh_token (sessions db') j i r
                      (AuthManager.deactivate s))).
    rewrite Hi' in Hj. by injection Hj as <-.
Qed.

(** Alice closes her live session on the example store: the three rows
    are still there, the first one inactive. *)
Lemma logout_closes_session_witness :
  let db' := (AuthManager.logout_user example_db "access-a").1 in
  AuthManager.verify_token example_db "access-a" 50
    = Some (AuthUser.mk 1 "alice" false true)
  ∧ sessions db'
    = [Session.mk 1 1 "access-a" "refresh-a" 0 100 false;
       Session.mk 2 2 "access-b" "refresh-b" 0 100 true;
       Session.mk 3 1 "access-c" "refresh-c" 0 100 false]
  ∧ AuthManager.verify_token db' "access-a" 50 = None
  ∧ AuthManager.refresh_token_user db' "refresh-a" ("t1", "t2") 50
    = Return (db', None).
Proof.
  intros db'.
  destruct (logout_closes_session example_db
              (Session.mk 1 1 "access-a" "refresh-a" 0 100 true)
              example_db_wf) as (_ & _ & _ & _ & _ & Hverify & Hrefresh).
  - apply list_elem_of_here.
  - split_and!; [reflexivity|reflexivity|apply Hverify|apply Hrefresh].
Defined.

(** ** The bearer header *)

Lemma visible_not_space c :
  visible c = true →
  is_space c = false ∧ (∀ c2, is_space2 c c2 = false)
  ∧ (∀ c2 c3, is_space3 c c2 c3 = false).
Proof.
  destruct c as [[] [] [] [] [] [] [] []]; try discriminate; by intros _.
Qed.

(** A visible character is part of the word that is being read. *)
Lemma split_ws_visible c s :
  visible c = true →
  split_ws (String c s) = ((String c (split_ws s).1), (split_ws s).2).
Proof.
  intros (H1 & H2 & H3)%visible_not_space.
  destruct s as [|c2 [|c3 s3]].
  - cbn. by rewrite H1.
  - set (rest := split_ws (String c2 EmptyString)).
    change (split_ws (String c (String c2 EmptyString)))
      with (if is_space c then end_word rest
            else if is_space2 c c2 then end_word (split_ws EmptyString)
            else let '(w, ws) := rest in (String c w, ws)).
    rewrite H1, H2. by destruct rest.
  - set (rest := split_ws (String c2 (String c3 s3))).
    change (split_ws (String c (String c2 (String c3 s3))))
      with (if is_space c then end_word rest
            else if is_space2 c c2 then end_word (split_ws (String c3 s3))
            else if is_space3 c c2 c3 then end_word (split_ws s3)
            else let '(w, ws) := rest in (String c w, ws)).
    rewrite H1, H2, H3. by destruct rest.
Qed.

Lemma split_ws_word a : all_visible a = true → split_ws a = (a, []).
Proof.
  induction a as [|c a IH]; [done|].
  cbn [all_visible]. intros [Hc Ha]%andb_true_iff.
  by rewrite (split_ws_visible c a Hc), (IH Ha).
Qed.

(** A white-space character ends the word before it. *)
Lemma split_ws_space sep s :
  sep ∈ white_space → split_ws (sep +:+ s) = end_word (split_ws s).
Proof.
  unfold white_space. intros Hsep.
  repeat (apply elem_of_cons in Hsep as [->|Hsep]; [by destruct s as [|? [|? ?]]|]).
  by apply elem_of_nil in Hsep.
Qed.

Lemma split_whitespace_two a sep b :
  all_visible a = true → all_visible b = true → sep ∈ white_space →
  a ≠ "" → b ≠ "" →
  split_whitespace (a +:+ sep +:+ b) = [a; b].
Proof.
  intros Ha Hb Hsep Hane Hbne. unfold split_whitespace.
  assert (split_ws (a +:+ sep +:+ b) = (a, [b])) as ->.
  { clear Hane. induction a as [|c a IH].
    - change ("" +:+ sep +:+ b) with (sep +:+ b).
      rewrite (split_ws_space sep b Hsep), (split_ws_word b Hb).
      unfold end_word. simpl. by rewrite bool_decide_eq_false_2.
    - cbn [all_visible] in Ha. apply andb_true_iff in Ha as [Hc Ha].
      change (String c a +:+ sep +:+ b) with (String c (a +:+ sep +:+ b)).
      by rewrite (split_ws_visible c _ Hc), (IH Ha). }
  by rewrite bool_decide_eq_false_2.
Qed.

Lemma get_current_user_Return w authorization now user :
  get_current_user w authorization now = Return user →
  ∃ header scheme token,
    authorization = Some header ∧ header ≠ ""
    ∧ split_whitespace header = [scheme; token]
    ∧ lower scheme = "bearer"
    ∧ AuthManager.verify_token (db w) token now = Some user.
Proof.
  unfold get_current_user.
  destruct authorization as [[|c header]|]; try done.
  destruct (split_whitespace (String c header))
    as [|scheme [|token [|x rest]]] eqn:Hsplit; try done.
  case_bool_decide as Hscheme; [done|].
  destruct (AuthManager.verify_token (db w) token now) as [user'|] eqn:Hv;
    [|done].
  intros [= <-]. exists (String c header), scheme, token.
  split_and!; try done.
Qed.

(** X4. A header made of a scheme, one white-space character (any of
    those [str.split()] cuts at, the no-break space among them) and a token,
    both non-empty words of visible ASCII characters, is judged by the
    scheme first and the token second: a scheme that is not "bearer" in any
    mix of upper and lower case gives 401 "Invalid authentication scheme"
    whatever the token, and otherwise the answer is that of [verify_token]
    on the token. *)
Theorem bearer_header w scheme sep token now :
  all_visible scheme = true → all_visible token = true →
  sep ∈ white_space → scheme ≠ "" → token ≠ "" →
  get_current_user w (Some (scheme +:+ sep +:+ token)) now
  = if bool_decide (lower scheme = "bearer")
    then match AuthManager.verify_token (db w) token now with
         | Some user_info => Return user_info
         | None => Raise (HTTPException 401 "Invalid or expired token")
         end
    else Raise (HTTPException 401 "Invalid authentication scheme").
Proof.
  intros Hs Ht Hsep Hsne Htne. unfold get_current_user.
  rewrite (split_whitespace_two scheme sep token Hs Ht Hsep Hsne Htne).
  destruct scheme as [|c scheme]; [done|].
  change (String c scheme +:+ sep +:+ token)
    with (String c (scheme +:+ sep +:+ token)).
  cbv beta iota.
  by repeat case_bool_decide.
Qed.

(** On the example store, with a space and with a no-break space (the
    bytes C2 A0) between scheme and token. *)
Lemma bearer_header_witness :
  let w := mkWorld example_db None [] in
  get_current_user w (Some "BEARER access-a") 50
    = Return (AuthUser.mk 1 "alice" false true)
  ∧ get_current_user w (Some ("Bearer" +:+ no_break_space +:+ "access-a")) 50
    = Return (AuthUser.mk 1 "alice" false true)
  ∧ get_current_user w (Some "Basic access-a") 50
    = Raise (HTTPException 401 "Invalid authentication scheme")
  ∧ get_current_user w (Some "bearer nonsense") 50
    = Raise (HTTPException 401 "Invalid or expired token").
Proof.
  intros w.
  assert (" " ∈ white_space) as Hsp by compute_done.
  assert (no_break_space ∈ white_space) as Hnb by compute_done.
  split_and!.
  - etrans; [by apply (bearer_header w "BEARER" " " "access-a" 50)
            |reflexivity].
  - etrans; [by apply (bearer_header w "Bearer" no_break_space "access-a" 50)
            |reflexivity].
  - etrans; [by apply (bearer_header w "Basic" " " "access-a" 50)|reflexivity].
  - etrans; [by apply (bearer_header w "bearer" " " "nonsense" 50)
            |reflexivity].
Defined.

(** White space inside what follows the scheme makes a third part: the
    answer is then 401 "Invalid authorization header", whatever the
    scheme. *)
Lemma header_of_three_parts :
  let w := mkWorld example_db None [] in
  get_current_user w
    (Some ("Basic access" +:+ no_break_space +:+ "a")) 50
  = Raise (HTTPException 401 "Invalid authorization header").
Proof. reflexivity. Qed.

(** X5. [logout] for a caller whose header authenticates always
    succeeds (it cannot answer "Logout failed"): it returns the
    confirmation, touches neither the students, the users, the cache nor the
    task queue, and from then on the same header is rejected with 401
    "Invalid or expired token". *)
Theorem logout_then_unauthenticated w authorization now user :
  db_wf (db w) →
  get_current_user w authorization now = Return user →
  ∃ w',
    logout w authorization now = (w', Return logged_out)
    ∧ students (db w') = students (db w) ∧ users (db w') = users (db w)
    ∧ redis w' = redis w ∧ background_tasks w' = background_tasks w
    ∧ ∀ now', get_current_user w' authorization now'
              = Raise (HTTPException 401 "Invalid or expired token").
Proof.
  intros Hwf Hauth. unfold logout. rewrite Hauth. simpl.
  apply get_current_user_Return in Hauth
    as (header & scheme & token & -> & Hne & Hsplit & Hscheme & Hverify).
  simpl. rewrite Hsplit.
  apply verify_token_Some in Hverify
    as (i & s & u & Hi%list_elem_of_lookup_2 & <- & _).
  pose proof (verify_token_after_logout (db w) s) as Hclosed.
  destruct (AuthManager.logout_user (db w) (Session.token s))
    as [db' success] eqn:Hlogout.
  assert (success = true) as ->.
  { revert Hlogout. unfold AuthManager.logout_user.
    destruct (list_find _ (sessions (db w))) as [[j r]|] eqn:Hfind;
      [congruence|].
    apply list_find_None in Hfind. rewrite Forall_forall in Hfind.
    by destruct (Hfind s Hi). }
  assert (students db' = students (db w) ∧ users db' = users (db w))
    as [Hst Hus].
  { revert Hlogout. unfold AuthManager.logout_user.
    destruct (list_find _ (sessions (db w))) as [[j r]|];
      intros Heq; by simplify_eq. }
  exists (set_db w db'). split_and!; try done.
  intros now'. unfold get_current_user.
  destruct header as [|c header]; [done|]. cbv beta iota.
  rewrite bool_decide_eq_false_2 by (by intros []).
  specialize (Hclosed now' Hwf Hi). simpl in *. by rewrite Hclosed.
Qed.

Lemma logout_then_unauthenticated_witness :
  let w := mkWorld example_db (Some ∅) [] in
  ∃ w',
    logout w (Some "Bearer access-a") 50 = (w', Return logged_out)
    ∧ get_current_user w' (Some "Bearer access-a") 51
      = Raise (HTTPException 401 "Invalid or expired token").
Proof.
  intros w.
  destruct (logout_then_unauthenticated w (Some "Bearer access-a") 50
              (AuthUser.mk 1 "alice" false true) example_db_wf eq_refl)
    as (w' & Hcall & _ & _ & _ & _ & Hafter).
  exists w'. split; [exact Hcall|apply Hafter].
Defined.

(** ** Registration, passwords and the keys of the store *)

(** X6. Register, then log in: on a store where neither the username
    nor the email is taken, [register_user] followed by [login_user] with
    the same username and password succeeds and returns the tokens just
    drawn (provided they are not in use), whatever salt registration drew. *)
Theorem register_then_login lib db username email password is_read_only
    entropy now generated now' :
  db_wf db →
  (∀ u, u ∈ users db → User.username u ≠ username ∧ User.email u ≠ email) →
  fresh_tokens db generated →
  let db1 := (AuthManager.register_user lib db username email password
                is_read_only entropy now).1 in
  ∃ db2 result,
    AuthManager.login_user lib db1 username password generated now'
      = Return (db2, Some result)
    ∧ TokenDict.access_token result = generated.1
    ∧ TokenDict.refresh_token result = generated.2
    ∧ TokenDict.username result = username.
Proof. apply login_after_register. Qed.

(** Dave registers on the example store and logs in. *)
Lemma register_then_login_witness :
  let db1 := (AuthManager.register_user toy_platform example_db "dave"
                "dave@x.com" "hunter2" false [] 7).1 in
  ∃ db2 result,
    AuthManager.login_user toy_platform db1 "dave" "hunter2" ("t1", "t2") 9
      = Return (db2, Some result)
    ∧ TokenDict.access_token result = "t1"
    ∧ TokenDict.refresh_token result = "t2"
    ∧ TokenDict.username result = "dave".
Proof.
  apply (register_then_login toy_platform example_db "dave" "dave@x.com"
           "hunter2" false [] 7 ("t1", "t2") 9).
  - apply example_db_wf.
  - apply Forall_forall. compute_done.
  - split; compute_done.
Defined.

(** X7. Registration is not repeatable: once [register_user] has been
    called with a username and an email, whether it succeeded or not, a
    second call with the same username and email always returns [None] and
    adds nothing; and when the first call did add the user, so does every
    later call that reuses the username or the email alone. *)
Theorem register_twice lib db username email password is_read_only entropy
    now :
  let first := AuthManager.register_user lib db username email password
                 is_read_only entropy now in
  (∀ password' is_read_only' entropy' now',
     AuthManager.register_user lib first.1 username email password'
       is_read_only' entropy' now' = (first.1, None))
  ∧ (is_Some first.2 →
     ∀ username' email' password' is_read_only' entropy' now',
       username' = username ∨ email' = email →
       AuthManager.register_user lib first.1 username' email' password'
         is_read_only' entropy' now' = (first.1, None)).
Proof.
  cbv zeta.
  destruct (AuthManager.register_user lib db username email password
              is_read_only entropy now) as [db1 added] eqn:Hfirst.
  simpl. unfold AuthManager.register_user in Hfirst.
  destruct (list_find _ (users db)) as [[i u]|] eqn:Hfind;
    injection Hfirst as <- <-.
  - split; [|by intros [? [=]]].
    intros. unfold AuthManager.register_user. by rewrite Hfind.
  - assert (∀ username' email',
              username' = username ∨ email' = email →
              is_Some (list_find (λ u, User.username u = username'
                                       ∨ User.email u = email')
                         (users db ++
                          [User.mk (next_id (User.id <$> users db)) username
                             email (AuthManager.hash_password lib entropy
                                      password) is_read_only true now])))
      as Htaken.
    { intros username' email' Hsame. apply list_find_is_Some_elem.
      eexists. split; [apply elem_of_app; right; apply list_elem_of_here|].
      simpl. destruct Hsame as [->| ->]; eauto. }
    split.
    + intros. unfold AuthManager.register_user. cbn [users].
      destruct (Htaken username email (or_introl eq_refl)) as [[j v] Hj].
      by rewrite Hj.
    + intros _ username' email' password' ro' entropy' now' Hsame.
      unfold AuthManager.register_user. cbn [users].
      destruct (Htaken username' email' Hsame) as [[j v] Hj].
      by rewrite Hj.
Qed.

(** Dave registers; then "dave" with another email is refused. *)
Lemma register_twice_witness :
  let first := AuthManager.register_user toy_platform example_db "dave"
                 "dave@x.com" "hunter2" false [] 7 in
  AuthManager.register_user toy_platform first.1 "dave" "other@x.com" "pw"
    true [] 8 = (first.1, None).
Proof.
  intros first.
  apply (proj2 (register_twice toy_platform example_db "dave" "dave@x.com"
                  "hunter2" false [] 7)).
  - by eexists.
  - by left.
Defined.

(** X8. Whatever password is tried against a stored hash that
    [hash_password] produced, [verify_password] returns without raising,
    and it says [True] exactly when the SHA-256 hex digest of the attempt
    followed by the stored salt equals the stored digest: a wrong password
    passes only on a digest collision. *)
Theorem verify_password_attempt lib entropy password attempt :
  let salt := token_hex 16 entropy in
  AuthManager.verify_password lib attempt
    (AuthManager.hash_password lib entropy password)
  = Return (bool_decide
              (AuthManager.sha256_hexdigest lib (attempt +:+ salt)
               = AuthManager.sha256_hexdigest lib (password +:+ salt))).
Proof.
  simpl. unfold AuthManager.verify_password, AuthManager.verify_password_try.
  by rewrite hash_password_split.
Qed.

Lemma logout_user_rows db token :
  students (AuthManager.logout_user db token).1 = students db
  ∧ users (AuthManager.logout_user db token).1 = users db
  ∧ Session.id <$> sessions (AuthManager.logout_user db token).1
    = Session.id <$> sessions db.
Proof.
  unfold AuthManager.logout_user.
  destruct (list_find _ (sessions db)) as [[i s]|] eqn:Hfind; [|done].
  apply list_find_Some in Hfind as (Hi & _ & _). simpl.
  split_and!; try done.
  rewrite list_fmap_insert. simpl.
  apply list_insert_id. by rewrite list_lookup_fmap, Hi.
Qed.

Lemma auth_step_pk lib db timed : db_pk db → db_pk (auth_step lib db timed).
Proof.
  intros (Hst & Hus & Hse).
  destruct timed as [now [username email password ro entropy
                         |username password generated
                         |refresh_token generated
                         |token]]; simpl.
  - unfold AuthManager.register_user.
    destruct (list_find _ (users db)); [done|].
    unfold db_pk. simpl. rewrite fmap_app. simpl.
    split_and!; try done.
    apply NoDup_app. split_and!; [done| |apply NoDup_singleton].
    intros x Hx ->%list_elem_of_singleton. by apply (next_id_fresh _ Hx).
  - destruct (AuthManager.login_user lib db username password generated now)
      as [[db' [result|]]|] eqn:Hcall; [| |done].
    + apply login_user_Some in Hcall
        as (i & user & db_session & _ & _ & _ & _ & -> & -> & _).
      unfold db_pk. simpl. rewrite fmap_app. simpl.
      split_and!; try done.
      apply NoDup_app. split_and!; [done| |apply NoDup_singleton].
      intros x Hx ->%list_elem_of_singleton. by apply (next_id_fresh _ Hx).
    + revert Hcall. unfold AuthManager.login_user.
      destruct (list_find _ (users db)) as [[i user]|]; [|by intros [= <-]].
      destruct (User.is_active user); simpl; [|by intros [= <-]].
      destruct (AuthManager.verify_password lib password _) as [[]|];
        simpl; [|by intros [= <-]|done].
      destruct generated. by case_bool_decide.
  - destruct (AuthManager.refresh_token_user db refresh_token generated now)
      as [[db' [result|]]|] eqn:Hcall; [| |done].
    + apply refresh_token_user_Some in Hcall
        as (i & old & user & Hi & _ & _ & _ & _ & -> & _).
      unfold db_pk. simpl. rewrite list_fmap_insert. simpl.
      rewrite list_insert_id; [done|]. by rewrite list_lookup_fmap, Hi.
    + revert Hcall. unfold AuthManager.refresh_token_user.
      destruct (list_find _ (sessions db)) as [[i s]|]; [|by intros [= <-]].
      destruct (list_find _ (users db)) as [[j user]|]; [|by intros [= <-]].
      destruct (User.is_active user); simpl; [|by intros [= <-]].
      by case_bool_decide.
  - destruct (logout_user_rows db token) as (Hs & Hu & Hids).
    unfold db_pk. by rewrite Hs, Hu, Hids.
Qed.

(** X9. The keys of the store are an invariant of the authentication
    calls: after any sequence of [register_user], [login_user],
    [refresh_token_user] and [logout_user] calls, with any arguments, at any
    instants and whether they succeed or not, usernames, emails, access
    tokens and refresh tokens are still unique and so are the ids of all
    three tables. *)
Theorem auth_run_invariant lib db calls :
  db_wf db → db_pk db →
  db_wf (auth_run lib db calls) ∧ db_pk (auth_run lib db calls).
Proof.
  intros Hwf Hpk. split; [by apply auth_run_wf|].
  unfold auth_run. revert db Hwf Hpk.
  induction calls as [|timed calls IH]; intros db Hwf Hpk; [done|].
  simpl. apply IH; [by apply auth_step_wf|by apply auth_step_pk].
Qed.

(** A run with a duplicate registration, a reused token and a stranger's
    logout in it. *)
Lemma auth_run_invariant_witness :
  let db' :=
    auth_run toy_platform example_db
      [(1, CallRegister "alice" "new@x.com" "pw" false []);
       (2, CallRegister "dave" "dave@x.com" "pw" false []);
       (3, CallLogin "alice" "pw" ("access-b", "t2"));
       (4, CallLogin "alice" "pw" ("t1", "t2"));
       (5, CallRefresh "refresh-b" ("t3", "t4"));
       (6, CallLogout "nobody")] in
  db_wf db' ∧ db_pk db'.
Proof.
  apply auth_run_invariant.
  - apply example_db_wf.
  - repeat split; compute_done.
Defined.

(** ** The student table *)

Lemma query_by_id_fits rows student_id :
  in_int64 student_id →
  StudentManager.query_by_id rows student_id
  = Return (list_find (λ s, Student.id s = student_id) rows).
Proof.
  intros Hfit. unfold StudentManager.query_by_id.
  by rewrite (bool_decide_eq_true_2 _ Hfit).
Qed.

Lemma query_by_id_overflow rows student_id :
  ¬ in_int64 student_id →
  StudentManager.query_by_id rows student_id = Raise OverflowError.
Proof.
  intros Hbig. unfold StudentManager.query_by_id.
  by rewrite (bool_decide_eq_false_2 _ Hbig).
Qed.

Lemma get_student_by_id_find db student_id :
  in_int64 student_id →
  StudentManager.get_student_by_id db student_id
  = Return (StudentManager.student_dict
              <$> (snd <$> list_find (λ s, Student.id s = student_id)
                             (students db))).
Proof.
  intros Hfit. unfold StudentManager.get_student_by_id.
  rewrite (query_by_id_fits _ _ Hfit). simpl.
  by destruct (list_find _ (students db)) as [[]|].
Qed.

Lemma get_student_by_id_overflow db student_id :
  ¬ in_int64 student_id →
  StudentManager.get_student_by_id db student_id = Raise OverflowError.
Proof.
  intros Hbig. unfold StudentManager.get_student_by_id.
  by rewrite (query_by_id_overflow _ _ Hbig).
Qed.

(** The lookup reads the table of students only, and only the rows with
    the id asked for. *)
Lemma get_student_by_id_ext db db' student_id :
  snd <$> list_find (λ s, Student.id s = student_id) (students db')
  = snd <$> list_find (λ s, Student.id s = student_id) (students db) →
  StudentManager.get_student_by_id db' student_id
  = StudentManager.get_student_by_id db student_id.
Proof.
  intros Hsame. destruct (decide (in_int64 student_id)) as [Hfit|Hbig].
  - rewrite !get_student_by_id_find by done. by rewrite Hsame.
  - by rewrite !get_student_by_id_overflow.
Qed.

(** X10. [create_student] with a score that fits in the 64 bits of an
    SQLite integer numbers the new row with an id no row has, appends it
    and returns it, and [get_student_by_id] on that id then returns the same
    dict; with any other score the insert raises [OverflowError] and the
    table is as before.  In both cases [get_student_by_id] on any other id
    does what it did before. *)
Theorem create_then_get db last_name first_name faculty course score :
  let created :=
    StudentManager.create_student db last_name first_name faculty course score in
  let new := Student.mk (next_id (Student.id <$> students db))
               last_name first_name faculty course score in
  (in_int64 score →
   created = (mkDB (students db ++ [new]) (users db) (sessions db),
              Return (StudentManager.student_dict new))
   ∧ (in_int64 (Student.id new) →
      StudentManager.get_student_by_id created.1 (Student.id new)
      = Return (Some (StudentManager.student_dict new))))
  ∧ (¬ in_int64 score → created = (db, Raise OverflowError))
  ∧ (Student.id new ∉ Student.id <$> students db)
  ∧ (∀ student_id,
       student_id ≠ Student.id new →
       StudentManager.get_student_by_id created.1 student_id
       = StudentManager.get_student_by_id db student_id).
Proof.
  cbv zeta. unfold StudentManager.create_student. simpl.
  split_and!.
  - intros Hfit. rewrite (bool_decide_eq_true_2 _ Hfit). split; [done|].
    intros Hid. rewrite get_student_by_id_find by done. simpl.
    assert (list_find
              (λ s, Student.id s = next_id (Student.id <$> students db))
              (students db ++
               [Student.mk (next_id (Student.id <$> students db)) last_name
                  first_name faculty course score])
            = Some (length (students db),
                    Student.mk (next_id (Student.id <$> students db)) last_name
                      first_name faculty course score)) as ->; [|done].
    apply list_find_Some. split_and!; [|done|].
    + by rewrite lookup_app_r, Nat.sub_diag by lia.
    + intros j y Hj Hlt Hy. rewrite lookup_app_l in Hj by done.
      apply (next_id_fresh (Student.id <$> students db)).
      rewrite <- Hy. by apply list_elem_of_fmap_2, (list_elem_of_lookup_2 _ j).
  - intros Hbig. by rewrite (bool_decide_eq_false_2 _ Hbig).
  - apply next_id_fresh.
  - intros student_id Hne. case_bool_decide; [|done].
    apply get_student_by_id_ext. simpl.
    rewrite list_find_snoc_other; [done|]. simpl. congruence.
Qed.

(** A third student on the two-student store, and one whose score is
    2^63. *)
Lemma create_then_get_witness :
  let created :=
    StudentManager.create_student school_db "Sidorov" "Sidor" "Physics"
      "Math" 7 in
  let sidorov := Student.mk 3 "Sidorov" "Sidor" "Physics" "Math" 7 in
  created.2 = Return (StudentManager.student_dict sidorov)
  ∧ StudentManager.get_student_by_id created.1 3
    = Return (Some (StudentManager.student_dict sidorov))
  ∧ StudentManager.create_student school_db "Sidorov" "Sidor" "Physics"
      "Math" (2 ^ 63) = (school_db, Raise OverflowError).
Proof.
  intros created sidorov.
  destruct (create_then_get school_db "Sidorov" "Sidor" "Physics" "Math" 7)
    as (Hfits & _).
  destruct (create_then_get school_db "Sidorov" "Sidor" "Physics" "Math"
              (2 ^ 63)) as (_ & Hbig & _).
  destruct Hfits as [Hcreated Hnew]; [compute_done|].
  split_and!.
  - unfold created. by rewrite Hcreated.
  - apply Hnew. compute_done.
  - apply Hbig. compute_done.
Defined.

Lemma elem_of_delete_inv {A} (l : list A) i x :
  x ∈ delete i l → ∃ j, j ≠ i ∧ l !! j = Some x.
Proof.
  intros [j Hj]%list_elem_of_lookup_1.
  destruct (decide (j < i)%nat).
  - rewrite list_lookup_delete_lt in Hj by done. exists j. split; [lia|done].
  - rewrite list_lookup_delete_ge in Hj by lia. exists (S j). split; [lia|done].
Qed.

Lemma find_after_delete_key {A B} (f : A → B) `{!EqDecision B}
    (l : list A) i x :
  NoDup (f <$> l) → l !! i = Some x →
  list_find (λ y, f y = f x) (delete i l) = None.
Proof.
  intros Hnd Hi. apply list_find_None, Forall_forall.
  intros y (j & Hji & Hj)%elem_of_delete_inv Hy.
  apply Hji. by apply (unique_row f l j i y x).
Qed.

(** What [delete_student] does, by the cases of its query. *)
Lemma delete_student_cases db student_id :
  let deleted := StudentManager.delete_student db student_id in
  (¬ in_int64 student_id ∧ deleted = (db, Raise OverflowError))
  ∨ (in_int64 student_id
     ∧ list_find (λ s, Student.id s = student_id) (students db) = None
     ∧ deleted = (db, Return false))
  ∨ (∃ i s,
       in_int64 student_id
       ∧ list_find (λ s, Student.id s = student_id) (students db) = Some (i, s)
       ∧ deleted = (mkDB (delete i (students db)) (users db) (sessions db),
                    Return true)).
Proof.
  cbv zeta. unfold StudentManager.delete_student.
  destruct (decide (in_int64 student_id)) as [Hfit|Hbig].
  - rewrite (query_by_id_fits _ _ Hfit).
    destruct (list_find _ (students db)) as [[i s]|] eqn:Hfind.
    + right. right. by exists i, s.
    + right. by left.
  - left. by rewrite (query_by_id_overflow _ _ Hbig).
Qed.

(** X11. With [id] a primary key and an id that fits in 64 bits,
    [delete_student] returns [True] exactly when a student with that id
    exists and [False] otherwise, and afterwards [get_student_by_id] finds
    nothing under that id; deleting an unknown id changes nothing.  With an
    id outside 64 bits the query raises [OverflowError] in both methods and
    nothing changes.  In every case [get_student_by_id] on any other id does
    what it did before, and users and sessions are untouched. *)
Theorem delete_then_get db student_id :
  NoDup (Student.id <$> students db) →
  let deleted := StudentManager.delete_student db student_id in
  (in_int64 student_id →
   (deleted.2 = Return true ↔ student_id ∈ Student.id <$> students db)
   ∧ (deleted.2 = Return false ↔ student_id ∉ Student.id <$> students db)
   ∧ (deleted.2 = Return false → deleted.1 = db)
   ∧ StudentManager.get_student_by_id deleted.1 student_id = Return None)
  ∧ (¬ in_int64 student_id →
     deleted = (db, Raise OverflowError)
     ∧ StudentManager.get_student_by_id db student_id = Raise OverflowError)
  ∧ (∀ other,
       other ≠ student_id →
       StudentManager.get_student_by_id deleted.1 other
       = StudentManager.get_student_by_id db other)
  ∧ users deleted.1 = users db ∧ sessions deleted.1 = sessions db.
Proof.
  intros Hnd. cbv zeta.
  destruct (delete_student_cases db student_id)
    as [[Hbig ->]|[(Hfit & Hfind & ->)|(i & s & Hfit & Hfind & ->)]]; simpl.
  - split_and!; try done. intros _.
    split; [done|]. by apply get_student_by_id_overflow.
  - assert (student_id ∉ Student.id <$> students db) as Habsent.
    { intros (s & -> & Hin)%list_elem_of_fmap_1.
      apply list_find_None in Hfind. rewrite Forall_forall in Hfind.
      by destruct (Hfind s Hin). }
    split_and!; try done. intros _. split_and!; try done.
    rewrite get_student_by_id_find by done. by rewrite Hfind.
  - apply list_find_Some in Hfind as (Hi & Hid & _). subst student_id.
    assert (Student.id s ∈ Student.id <$> students db) as Hin
      by (by apply list_elem_of_fmap_2, (list_elem_of_lookup_2 _ i)).
    split_and!; try done.
    + intros _. split_and!; try done.
      rewrite get_student_by_id_find by done. simpl.
      by rewrite (find_after_delete_key Student.id _ i s).
    + intros other Hother. apply get_student_by_id_ext. simpl.
      rewrite (list_find_delete_other _ _ i s); [done|done|congruence].
Qed.

Lemma delete_then_get_witness :
  let deleted := StudentManager.delete_student school_db 1 in
  deleted.2 = Return true
  ∧ StudentManager.get_student_by_id deleted.1 1 = Return None
  ∧ StudentManager.get_student_by_id deleted.1 2
    = Return (Some (StudentManager.student_dict
                      (Student.mk 2 "Petrov" "Petr" "Physics" "Algebra" 20)))
  ∧ StudentManager.delete_student school_db (2 ^ 63)
    = (school_db, Raise OverflowError).
Proof.
  intros deleted.
  destruct (delete_then_get school_db 1 ltac:(compute_done))
    as (Hfits & _ & Hother & _).
  destruct (delete_then_get school_db (2 ^ 63) ltac:(compute_done))
    as (_ & Hbig & _).
  destruct Hfits as (Hflag & _ & _ & Hgone); [compute_done|].
  split_and!.
  - apply Hflag. compute_done.
  - exact Hgone.
  - etrans; [by apply (Hother 2)|reflexivity].
  - apply Hbig. compute_done.
Defined.

Lemma filter_iff_in {A} (P1 P2 : A → Prop)
    `{!∀ x, Decision (P1 x), !∀ x, Decision (P2 x)} (l : list A) :
  (∀ x, x ∈ l → P1 x ↔ P2 x) → filter P1 l = filter P2 l.
Proof.
  induction l as [|y l IH]; intros Hiff; [done|].
  rewrite !filter_cons.
  rewrite IH by (intros x Hx; apply Hiff; by apply list_elem_of_further).
  pose proof (Hiff y (list_elem_of_here y l)).
  repeat case_decide; tauto || done.
Qed.

Lemma filter_all {A} (P : A → Prop) `{!∀ x, Decision (P x)} (l : list A) :
  (∀ x, x ∈ l → P x) → filter P l = l.
Proof.
  induction l as [|y l IH]; intros Hall; [done|].
  rewrite filter_cons_True by apply Hall, list_elem_of_here.
  rewrite IH; [done|]. intros x Hx. by apply Hall, list_elem_of_further.
Qed.

(** Removing the row of a key is keeping the rows of all other keys. *)
Lemma delete_as_filter {A B} (f : A → B) `{!EqDecision B} (l : list A) i x :
  NoDup (f <$> l) → l !! i = Some x →
  delete i l = filter (λ y, f y ≠ f x) l.
Proof.
  revert i. induction l as [|y l IH]; intros i Hnd Hi; [done|].
  rewrite fmap_cons in Hnd. apply NoDup_cons in Hnd as [Hy Hnd].
  destruct i as [|i]; simpl in *.
  - injection Hi as ->. rewrite filter_cons_False by (by intros []).
    symmetry. apply filter_all. intros z Hz Heq.
    apply Hy. rewrite <- Heq. by apply list_elem_of_fmap_2.
  - rewrite filter_cons_True.
    + by rewrite (IH i).
    + intros Heq. apply Hy. rewrite Heq.
      by apply list_elem_of_fmap_2, (list_elem_of_lookup_2 _ i).
Qed.

(** The loop of the bulk delete when every id fits in 64 bits. *)
Lemma delete_each_filter rows student_ids deleted_count :
  NoDup (Student.id <$> rows) → Forall in_int64 student_ids →
  let kept := filter (λ s, Student.id s ∉ student_ids) rows in
  StudentManager.delete_each rows student_ids deleted_count
  = Return (kept,
            deleted_count + Z.of_nat (length rows) - Z.of_nat (length kept)).
Proof.
  intros Hnd Hfit. revert rows deleted_count Hnd.
  induction Hfit as [|student_id student_ids Hid _ IH];
    intros rows deleted_count Hnd; simpl.
  - rewrite filter_all; [do 2 f_equal; lia|].
    intros s _. apply not_elem_of_nil.
  - rewrite (query_by_id_fits _ _ Hid). simpl.
    destruct (list_find _ rows) as [[i s]|] eqn:Hfind.
    + apply list_find_Some in Hfind as (Hi & <- & _).
      assert (NoDup (Student.id <$> delete i rows)) as Hnd'.
      { rewrite list_fmap_delete.
        eapply sublist_NoDup; [done|apply sublist_delete]. }
      rewrite (IH _ _ Hnd'). simpl.
      rewrite (delete_as_filter Student.id rows i s Hnd Hi) at 1 3.
      rewrite list_filter_filter.
      assert (filter (λ a, (Student.id a ∉ student_ids)
                           ∧ Student.id a ≠ Student.id s) rows
              = filter (λ a, Student.id a ∉ Student.id s :: student_ids) rows)
        as ->.
      { apply list_filter_iff. intros a. rewrite not_elem_of_cons. tauto. }
      do 2 f_equal. rewrite length_delete by done.
      apply lookup_lt_Some in Hi. lia.
    + apply list_find_None in Hfind. rewrite Forall_forall in Hfind.
      rewrite (IH _ _ Hnd). simpl.
      assert (filter (λ a, Student.id a ∉ student_ids) rows
              = filter (λ a, Student.id a ∉ student_id :: student_ids) rows)
        as ->; [|done].
      apply filter_iff_in.
      intros a Ha. rewrite not_elem_of_cons. specialize (Hfind a Ha). tauto.
Qed.

(** The loop raises as soon as it meets an id outside 64 bits. *)
Lemma delete_each_overflow rows student_ids deleted_count :
  ¬ Forall in_int64 student_ids →
  StudentManager.delete_each rows student_ids deleted_count
  = Raise OverflowError.
Proof.
  revert rows deleted_count.
  induction student_ids as [|student_id student_ids IH];
    intros rows deleted_count Hbig.
  - destruct Hbig. constructor.
  - simpl. destruct (decide (in_int64 student_id)) as [Hid|Hid].
    + rewrite (query_by_id_fits _ _ Hid). simpl.
      assert (¬ Forall in_int64 student_ids) as Hrest
        by (intros Hall; apply Hbig; by constructor).
      destruct (list_find _ rows) as [[i s]|]; by apply IH.
    + by rewrite (query_by_id_overflow _ _ Hid).
Qed.

(** X12. With [id] a primary key and a list of ids that all fit in 64
    bits, [delete_students_by_ids] keeps, in their order, exactly the
    students whose id is not in the list, reports as [records_deleted] the
    number of rows that went (ids that are unknown or repeated in the list
    count for nothing), leaves users and sessions alone, and invalidates the
    [cache:students*] keys.  With an id outside 64 bits anywhere in the list
    it deletes nothing at all, leaves the cache alone and reports an
    error. *)
Theorem bulk_delete_result lib db redis student_ids now :
  NoDup (Student.id <$> students db) →
  let kept := filter (λ s, Student.id s ∉ student_ids) (students db) in
  let deleted_count :=
    Z.of_nat (length (students db)) - Z.of_nat (length kept) in
  let done :=
    StudentManager.delete_students_by_ids lib db redis student_ids now in
  (Forall in_int64 student_ids →
   done
   = (mkDB kept (users db) (sessions db),
      (CacheManager.invalidate_pattern redis "cache:students*" now).1,
      JDict [("status", JStr "completed");
             ("records_deleted", JInt deleted_count);
             ("message", JStr ("Successfully deleted " +:+ pretty deleted_count
                                 +:+ " student records"))]))
  ∧ (¬ Forall in_int64 student_ids →
     done
     = (db, redis,
        JDict [("status", JStr "error");
               ("message", JStr ("Error deleting students: "
                                   +:+ exn_str lib OverflowError))])).
Proof.
  intros Hnd. cbv zeta. unfold StudentManager.delete_students_by_ids. split.
  - intros Hfit. rewrite (delete_each_filter _ _ 0 Hnd Hfit). simpl.
    by rewrite Z.add_0_l.
  - intros Hbig. by rewrite (delete_each_overflow _ _ 0 Hbig).
Qed.

(** Student 2 listed twice with an unknown id; then student 1 listed
    before 2^63. *)
Lemma bulk_delete_result_witness :
  (StudentManager.delete_students_by_ids toy_platform school_db None
     [2; 7; 2] 5).1.1
  = mkDB [Student.mk 1 "Ivanov" "Ivan" "Physics" "Math" 95]
      (users example_db) (sessions example_db)
  ∧ (StudentManager.delete_students_by_ids toy_platform school_db None
       [1; 2 ^ 63] 5).1 = (school_db, None).
Proof.
  split.
  - rewrite (proj1 (bulk_delete_result toy_platform school_db None [2; 7; 2] 5
                      ltac:(compute_done))); [reflexivity|].
    repeat constructor; compute_done.
  - rewrite (proj2 (bulk_delete_result toy_platform school_db None
                      [1; 2 ^ 63] 5 ltac:(compute_done))); [reflexivity|].
    compute_done.
Defined.

(** ** The CSV import *)

Lemma add_student_ids rows last_name first_name faculty course score :
  NoDup (Student.id <$> rows) →
  NoDup (Student.id <$>
           (StudentManager.add_student rows last_name first_name faculty
              course score).1).
Proof.
  intros Hnd. simpl. rewrite fmap_app. simpl.
  apply NoDup_app. split_and!; [done| |apply NoDup_singleton].
  intros x Hx ->%list_elem_of_singleton. by apply (next_id_fresh _ Hx).
Qed.

(** The loop on rows that are all readable: it returns, having appended
    one student per row, in order, with the fields of the row. *)
Lemma import_rows_ok lib rows acc count :
  Forall (row_readable lib) rows →
  ∃ imported,
    StudentManager.import_rows lib rows acc count
      = Return (acc ++ imported, count + Z.of_nat (length rows))
    ∧ Forall2 (row_gives lib) rows imported
    ∧ (NoDup (Student.id <$> acc) → NoDup (Student.id <$> acc ++ imported)).
Proof.
  intros Hrows. revert acc count.
  induction Hrows as [|row rows Hrow _ IH]; intros acc count.
  - exists []. split_and!; [|constructor|by rewrite app_nil_r]. simpl.
    by rewrite app_nil_r, Z.add_0_r.
  - destruct Hrow as (ln & fn & fa & co & st & sc & Hln & Hfn & Hfa & Hco
                      & Hst & Hsc).
    simpl. rewrite Hln, Hfn, Hfa, Hco, Hst. simpl. rewrite Hsc. simpl.
    destruct (IH (acc ++ [Student.mk (next_id (Student.id <$> acc))
                            ln fn fa co sc]) (count + 1))
      as (imported & -> & Hall & Hids).
    eexists (_ :: imported). split_and!.
    + rewrite <- app_assoc. simpl. do 2 f_equal. lia.
    + constructor; [|done]. unfold row_gives. simpl.
      split_and!; try done. by exists st.
    + intros Hnd. rewrite <- app_assoc in Hids. apply Hids.
      by apply (add_student_ids acc ln fn fa co sc).
Qed.

(** The loop returns only when every row is readable. *)
Lemma import_rows_Return lib rows acc count result :
  StudentManager.import_rows lib rows acc count = Return result →
  Forall (row_readable lib) rows.
Proof.
  revert acc count. induction rows as [|row rows IH]; intros acc count;
    [constructor|].
  simpl.
  destruct (StudentManager.row_get row "Фамилия") as [ln|] eqn:Hln; [|done].
  destruct (StudentManager.row_get row "Имя") as [fn|] eqn:Hfn; [|done].
  destruct (StudentManager.row_get row "Факультет") as [fa|] eqn:Hfa; [|done].
  destruct (StudentManager.row_get row "Курс") as [co|] eqn:Hco; [|done].
  destruct (StudentManager.row_get row "Оценка") as [st|] eqn:Hst; [|done].
  simpl.
  destruct (py_int lib st) as [sc|] eqn:Hsc; [|done]. simpl.
  intros Hrest. constructor; [|by eapply IH].
  by exists ln, fn, fa, co, st, sc.
Qed.

Lemma row_ok_readable lib row : row_ok lib row → row_readable lib row.
Proof.
  intros (ln & fn & fa & co & st & sc & Hln & Hfn & Hfa & Hco & Hst & Hsc & _).
  by exists ln, fn, fa, co, st, sc.
Qed.

(** The rows that can be stored are those whose student has a score that
    the commit can bind. *)
Lemma rows_ok_scores lib rows imported :
  Forall2 (row_gives lib) rows imported →
  Forall (row_ok lib) rows
  ↔ Forall (λ s, in_int64 (Student.score s)) imported.
Proof.
  induction 1 as [|row s rows imported Hrow _ IH]; [done|].
  rewrite !Forall_cons, IH.
  destruct Hrow as (Hln & Hfn & Hfa & Hco & st & Hst & Hsc).
  split; intros [Hhead Htail]; (split; [|done]).
  - destruct Hhead as (? & ? & ? & ? & st' & sc & _ & _ & _ & _ & Hst' & Hsc'
                       & Hfit).
    congruence.
  - by exists (Student.last_name s), (Student.first_name s),
      (Student.faculty s), (Student.course s), st, (Student.score s).
Qed.

(** The [try] block of the import, up to and including the commit: it
    returns exactly when the file can be read and every row can be
    stored. *)
Lemma import_file_ok lib db csv_file rows :
  read_csv lib csv_file = Return rows → Forall (row_ok lib) rows →
  ∃ imported,
    StudentManager.import_file lib db csv_file
    = Return (students db ++ imported, Z.of_nat (length rows))
    ∧ Forall2 (row_gives lib) rows imported
    ∧ (NoDup (Student.id <$> students db) →
       NoDup (Student.id <$> students db ++ imported)).
Proof.
  intros Hread Hrows. unfold StudentManager.import_file. rewrite Hread. simpl.
  destruct (import_rows_ok lib rows (students db) 0
              (Forall_impl _ _ _ Hrows (row_ok_readable lib)))
    as (imported & Hloop & Hall & Hids).
  rewrite Hloop. simpl. rewrite drop_app_length.
  unfold StudentManager.commit_added.
  rewrite bool_decide_eq_true_2 by (by apply (rows_ok_scores lib rows)).
  simpl. rewrite Z.add_0_l. by exists imported.
Qed.

Lemma import_file_Return lib db csv_file result :
  StudentManager.import_file lib db csv_file = Return result →
  ∃ rows, read_csv lib csv_file = Return rows ∧ Forall (row_ok lib) rows.
Proof.
  unfold StudentManager.import_file.
  destruct (read_csv lib csv_file) as [rows|e]; [|done]. simpl.
  destruct (StudentManager.import_rows lib rows (students db) 0)
    as [imported|e] eqn:Hloop; [|done]. simpl.
  pose proof (import_rows_Return _ _ _ _ _ Hloop) as Hreadable.
  destruct (import_rows_ok lib rows (students db) 0 Hreadable)
    as (added & Hloop' & Hall & _).
  rewrite Hloop in Hloop'. injection Hloop' as ->. simpl.
  rewrite drop_app_length. unfold StudentManager.commit_added.
  case_bool_decide as Hscores; [|done]. intros _.
  exists rows. split; [done|]. by apply (rows_ok_scores lib rows added).
Qed.

(** X13. The background import is all or nothing.  When the file can be
    read and every row has the five columns and an integer score that fits
    in 64 bits, one student per row is appended in file order, with fresh
    ids and the fields of the row, [records_imported] is the number of rows
    and the [cache:students*] keys are invalidated.  When the file is
    missing or any row is bad (a column missing, a score that is not an
    integer or does not fit), no row at all is added, not even those before
    the bad one, the cache is left alone and the status is "error". *)
Theorem import_all_or_nothing lib db redis csv_file now :
  let done := StudentManager.populate_from_csv_background lib db redis
                csv_file now in
  (∀ rows,
     read_csv lib csv_file = Return rows → Forall (row_ok lib) rows →
     ∃ imported,
       done
       = (mkDB (students db ++ imported) (users db) (sessions db),
          (CacheManager.invalidate_pattern redis "cache:students*" now).1,
          JDict [("status", JStr "completed");
                 ("records_imported", JInt (Z.of_nat (length rows)));
                 ("message",
                  JStr ("Successfully imported "
                          +:+ pretty (Z.of_nat (length rows))
                          +:+ " student records"))])
       ∧ Forall2 (row_gives lib) rows imported
       ∧ Forall (λ s, in_int64 (Student.score s)) imported
       ∧ (NoDup (Student.id <$> students db) →
          NoDup (Student.id <$> students db ++ imported)))
  ∧ ((∀ rows, read_csv lib csv_file = Return rows
              → ¬ Forall (row_ok lib) rows) →
     done.1 = (db, redis)
     ∧ ∃ message, done.2 = JDict [("status", JStr "error");
                                  ("message", JStr message)]).
Proof.
  cbv zeta. unfold StudentManager.populate_from_csv_background. split.
  - intros rows Hread Hrows.
    destruct (import_file_ok lib db csv_file rows Hread Hrows)
      as (imported & -> & Hall & Hids).
    exists imported. split_and!; try done.
    by apply (rows_ok_scores lib rows).
  - intros Hbad.
    destruct (StudentManager.import_file lib db csv_file)
      as [[students' count]|e] eqn:Hfile.
    + apply import_file_Return in Hfile as (rows & Hread & Hrows).
      by destruct (Hbad rows Hread).
    + destruct e; simpl; eauto.
Qed.

Lemma import_all_or_nothing_witness :
  (∃ imported,
     (StudentManager.populate_from_csv_background file_platform school_db None
        "good.csv" 5).1.1
     = mkDB (students school_db ++ imported) (users school_db)
         (sessions school_db)
     ∧ Forall2 (row_gives file_platform) [good_row; good_row] imported)
  ∧ (StudentManager.populate_from_csv_background file_platform school_db None
       "bad.csv" 5).1 = (school_db, None)
  ∧ (StudentManager.populate_from_csv_background file_platform school_db None
       "big.csv" 5).1 = (school_db, None)
  ∧ (StudentManager.populate_from_csv_background file_platform school_db None
       "missing.csv" 5).1 = (school_db, None).
Proof.
  split_and!.
  - destruct (proj1 (import_all_or_nothing file_platform school_db None
                       "good.csv" 5) [good_row; good_row] eq_refl)
      as (imported & Hdone & Hrows & _).
    + repeat constructor;
        exists "Sidorov", "Sidor", "Physics", "Math", "7", 7;
        split_and!; try done; compute_done.
    + exists imported. by rewrite Hdone.
  - apply (proj2 (import_all_or_nothing file_platform school_db None
                    "bad.csv" 5)).
    intros rows [= <-] Hrows.
    apply Forall_cons in Hrows as [_ Hrows].
    apply Forall_cons in Hrows
      as [(ln & fn & fa & co & st & sc & _ & _ & _ & _ & Hst & Hsc & _) _].
    injection Hst as <-. discriminate Hsc.
  - apply (proj2 (import_all_or_nothing file_platform school_db None
                    "big.csv" 5)).
    intros rows [= <-] Hrows.
    apply Forall_cons in Hrows as [_ Hrows].
    apply Forall_cons in Hrows
      as [(ln & fn & fa & co & st & sc & _ & _ & _ & _ & Hst & Hsc & Hfit) _].
    injection Hst as <-. injection Hsc as <-. revert Hfit. compute_done.
  - apply (proj2 (import_all_or_nothing file_platform school_db None
                    "missing.csv" 5)).
    intros rows Hread. discriminate Hread.
Defined.

(** The start-up import adds the rows the background import adds, and
    raises where the background import reports an error. *)
Lemma import_variants_agree lib db redis csv_file now :
  match StudentManager.populate_from_csv lib db csv_file with
  | Return db' =>
      (StudentManager.populate_from_csv_background lib db redis csv_file
         now).1.1 = db'
  | Raise _ =>
      (StudentManager.populate_from_csv_background lib db redis csv_file
         now).1 = (db, redis)
  end.
Proof.
  unfold StudentManager.populate_from_csv,
    StudentManager.populate_from_csv_background.
  destruct (StudentManager.import_file lib db csv_file)
    as [[students' count]|e]; simpl; [done|by destruct e].
Qed.

(** What [update_student] does, by the cases of its query and of its
    commit. *)
Lemma update_student_cases db student_id kwargs :
  let updated := StudentManager.update_student db student_id kwargs in
  (updated = (db, Raise OverflowError))
  ∨ (in_int64 student_id
     ∧ list_find (λ s, Student.id s = student_id) (students db) = None
     ∧ updated = (db, Return None))
  ∨ (∃ i s,
       in_int64 student_id
       ∧ list_find (λ s, Student.id s = student_id) (students db) = Some (i, s)
       ∧ updated
         = (mkDB (<[i := foldl StudentManager.setattr_if_given s kwargs]>
                    (students db)) (users db) (sessions db),
            Return (Some (StudentManager.student_dict
                            (foldl StudentManager.setattr_if_given s kwargs))))).
Proof.
  cbv zeta. unfold StudentManager.update_student.
  destruct (decide (in_int64 student_id)) as [Hfit|Hbig].
  - rewrite (query_by_id_fits _ _ Hfit).
    destruct (list_find _ (students db)) as [[i s]|] eqn:Hfind.
    + case_bool_decide; [|by left]. right. right. by exists i, s.
    + right. by left.
  - left. by rewrite (query_by_id_overflow _ _ Hbig).
Qed.

Lemma update_student_ids db student_id kwargs :
  Student.id <$> students (StudentManager.update_student db student_id kwargs).1
  = Student.id <$> students db.
Proof.
  destruct (update_student_cases db student_id kwargs)
    as [->|[(_ & _ & ->)|(i & s & _ & Hfind & ->)]]; try done.
  apply list_find_Some in Hfind as (Hi & _ & _). simpl.
  rewrite list_fmap_insert.
  destruct (setattr_loop_frame kwargs s) as [-> _].
  apply list_insert_id. by rewrite list_lookup_fmap, Hi.
Qed.

(** X14. [students.id] stays a primary key under every way the code
    writes to the table: [create_student], [update_student] with any
    keyword arguments, [delete_student], the bulk delete and the CSV import
    each leave the ids free of duplicates. *)
Theorem student_ids_stay_unique lib db :
  NoDup (Student.id <$> students db) →
  (∀ last_name first_name faculty course score,
     NoDup (Student.id <$> students
              (StudentManager.create_student db last_name first_name faculty
                 course score).1))
  ∧ (∀ student_id kwargs,
       NoDup (Student.id <$> students
                (StudentManager.update_student db student_id kwargs).1))
  ∧ (∀ student_id,
       NoDup (Student.id <$> students
                (StudentManager.delete_student db student_id).1))
  ∧ (∀ redis student_ids now,
       NoDup (Student.id <$> students
                (StudentManager.delete_students_by_ids lib db redis student_ids
                   now).1.1))
  ∧ (∀ redis csv_file now,
       NoDup (Student.id <$> students
                (StudentManager.populate_from_csv_background lib db redis
                   csv_file now).1.1)).
Proof.
  intros Hnd. split_and!.
  - intros. unfold StudentManager.create_student.
    case_bool_decide; [|done]. by apply add_student_ids.
  - intros. by rewrite update_student_ids.
  - intros student_id.
    destruct (delete_student_cases db student_id)
      as [[_ ->]|[(_ & _ & ->)|(i & s & _ & _ & ->)]]; try done.
    simpl. rewrite list_fmap_delete.
    eapply sublist_NoDup; [done|apply sublist_delete].
  - intros redis student_ids now.
    unfold StudentManager.delete_students_by_ids.
    destruct (decide (Forall in_int64 student_ids)) as [Hfit|Hbig].
    + rewrite (delete_each_filter _ _ 0 Hnd Hfit). simpl.
      eapply sublist_NoDup; [done|].
      apply fmap_sublist, sublist_filter.
    + by rewrite (delete_each_overflow _ _ 0 Hbig).
  - intros redis csv_file now.
    unfold StudentManager.populate_from_csv_background.
    destruct (StudentManager.import_file lib db csv_file)
      as [[students' count]|e] eqn:Hfile; simpl; [|by destruct e].
    pose proof Hfile as (rows & Hread & Hrows)%import_file_Return.
    destruct (import_file_ok lib db csv_file rows Hread Hrows)
      as (imported & Hfile' & _ & Hids).
    rewrite Hfile in Hfile'. injection Hfile' as -> _. by apply Hids.
Qed.

Lemma student_ids_stay_unique_witness :
  NoDup (Student.id <$> students
           (StudentManager.update_student
              (StudentManager.create_student school_db "Sidorov" "Sidor"
                 "Physics" "Math" 7).1 2
              [StudentManager.kw_score (Some 0)]).1).
Proof.
  apply (student_ids_stay_unique toy_platform).
  apply (student_ids_stay_unique toy_platform school_db).
  compute_done.
Defined.

(** ** The cache *)

(** What each read endpoint does when the cache has nothing for it. *)
Lemma get_all_students_miss lib w authorization now user :
  get_current_user w authorization now = Return user →
  CacheManager.get (redis w)
    (CacheManager.make_cache_key lib "students:all" []) now = None →
  (get_all_students lib w authorization now).2
  = Return (JList (StudentManager.get_all_students (db w))).
Proof. intros Hu Hmiss. unfold get_all_students. by rewrite Hu, Hmiss. Qed.

Lemma get_students_by_faculty_miss lib w authorization faculty now user :
  get_current_user w authorization now = Return user →
  CacheManager.get (redis w)
    (CacheManager.make_cache_key lib "students:by_faculty"
       [("faculty", JStr faculty)]) now = None →
  (get_students_by_faculty lib w authorization faculty now).2
  = Return (JList (StudentManager.get_students_by_faculty (db w) faculty)).
Proof.
  intros Hu Hmiss. unfold get_students_by_faculty. by rewrite Hu, Hmiss.
Qed.

Lemma get_low_score_students_miss lib w authorization course threshold now
    user :
  get_current_user w authorization now = Return user →
  CacheManager.get (redis w)
    (CacheManager.make_cache_key lib "students:low_scores"
       [("course", JStr course); ("threshold", JInt threshold)]) now = None →
  (get_low_score_students lib w authorization course threshold now).2
  = (students ← StudentManager.get_low_score_students_by_course (db w)
                  course threshold;
     Return (JList students)).
Proof.
  intros Hu Hmiss. unfold get_low_score_students. rewrite Hu, Hmiss. simpl.
  by destruct (StudentManager.get_low_score_students_by_course _ _ _).
Qed.

Lemma get_student_miss lib w authorization student_id now user :
  get_current_user w authorization now = Return user →
  CacheManager.get (redis w)
    (CacheManager.make_cache_key lib "students:by_id"
       [("id", JInt student_id)]) now = None →
  (get_student lib w authorization student_id now).2
  = match StudentManager.get_student_by_id (db w) student_id with
    | Return (Some student) => Return student
    | Return None => Raise (HTTPException 404 "Student not found")
    | Raise e => Raise e
    end.
Proof.
  intros Hu Hmiss. unfold get_student. rewrite Hu, Hmiss. simpl.
  by destruct (StudentManager.get_student_by_id (db w) student_id) as [[]|].
Qed.

(** The world a successful [update_student] or [delete_student] leaves. *)
Lemma update_student_world w authorization student_id student_update now
    writer w' result :
  check_read_only w authorization now = Return writer →
  update_student w authorization student_id student_update now
    = (w', Return result) →
  ∃ db',
    StudentManager.update_student (db w) student_id
      (update_kwargs student_update) = (db', Return (Some result))
    ∧ w' = invalidate_students (set_db w db') now.
Proof.
  intros Hguard. unfold update_student. rewrite Hguard. simpl.
  destruct (StudentManager.update_student _ _ _) as [db' [[r|]|]]; try done.
  intros [= <- <-]. by exists db'.
Qed.

Lemma delete_student_world w authorization student_id now writer w' result :
  check_read_only w authorization now = Return writer →
  delete_student w authorization student_id now = (w', Return result) →
  ∃ db',
    StudentManager.delete_student (db w) student_id = (db', Return true)
    ∧ w' = invalidate_students (set_db w db') now.
Proof.
  intros Hguard. unfold delete_student. rewrite Hguard. simpl.
  destruct (StudentManager.delete_student _ _) as [db' [[]|]]; try done.
  intros [= <- _]. by exists db'.
Qed.

Lemma invalidated_students_miss lib w now name params now' :
  now ≤ now' →
  CacheManager.get (redis (invalidate_students w now))
    (CacheManager.make_cache_key lib ("students" +:+ name) params) now' = None.
Proof.
  intros Hlater. unfold invalidate_students. simpl.
  apply get_after_invalidate_dropped; [|done]. apply students_keys_match.
Qed.

Lemma list_find_insert_same {A} (P : A → Prop) `{!∀ x, Decision (P x)}
    (l : list A) i x x' :
  list_find P l = Some (i, x) → P x' →
  list_find P (<[i:=x']> l) = Some (i, x').
Proof.
  intros (Hi & _ & Hbefore)%list_find_Some Hx'. apply list_find_Some.
  split_and!; [|done|].
  - apply list_lookup_insert_eq. by eapply lookup_lt_Some.
  - intros j y Hj Hlt. rewrite list_lookup_insert_ne in Hj by lia.
    by apply (Hbefore j).
Qed.

(** X16. After a successful [PUT /students/{id}] every read through the
    [students:...] endpoints comes from the table, whatever was cached
    before: the list of all students, the lists by faculty and of low
    scores are those of the updated table (for the low scores, with a
    threshold that fits in 64 bits; the query raises [OverflowError] for
    any other), and [GET /students/{id}] returns the student as the update
    returned it. *)
Theorem update_then_reads_fresh lib w authorization student_id student_update
    now now' writer reader w' result :
  check_read_only w authorization now = Return writer →
  update_student w authorization student_id student_update now
    = (w', Return result) →
  get_current_user w authorization now' = Return reader →
  now ≤ now' →
  (get_all_students lib w' authorization now').2
    = Return (JList (StudentManager.get_all_students (db w')))
  ∧ (∀ faculty,
       (get_students_by_faculty lib w' authorization faculty now').2
       = Return (JList (StudentManager.get_students_by_faculty (db w') faculty)))
  ∧ (∀ course threshold,
       (get_low_score_students lib w' authorization course threshold now').2
       = if bool_decide (in_int64 threshold)
         then Return (JList (StudentManager.student_dict <$>
                        filter (λ s, Student.course s = course
                                     ∧ Student.score s < threshold)
                               (students (db w'))))
         else Raise OverflowError)
  ∧ (get_student lib w' authorization student_id now').2 = Return result.
Proof.
  intros Hguard Hcall Hreader Hlater.
  destruct (update_student_world _ _ _ _ _ _ _ _ Hguard Hcall)
    as (db' & Hupd & ->).
  destruct (update_student_cases (db w) student_id
              (update_kwargs student_update))
    as [Hraise|[(_ & _ & Hnone)|(i & s & Hfit & Hfind & Hsome)]];
    [congruence|congruence|].
  rewrite Hupd in Hsome. injection Hsome as -> ->.
  assert (get_current_user
            (invalidate_students
               (set_db w
                  (mkDB (<[i := foldl StudentManager.setattr_if_given s
                                  (update_kwargs student_update)]>
                           (students (db w)))
                     (users (db w)) (sessions (db w)))) now)
            authorization now' = Return reader) as Hreader'.
  { by rewrite (get_current_user_same w _ authorization now'). }
  split_and!.
  - apply (get_all_students_miss _ _ _ _ reader Hreader').
    by apply (invalidated_students_miss lib _ now ":all" []).
  - intros faculty.
    apply (get_students_by_faculty_miss _ _ _ _ _ reader Hreader').
    by apply (invalidated_students_miss lib _ now ":by_faculty").
  - intros course threshold.
    rewrite (get_low_score_students_miss _ _ _ _ _ _ reader Hreader');
      [|by apply (invalidated_students_miss lib _ now ":low_scores")].
    unfold StudentManager.get_low_score_students_by_course.
    by case_bool_decide.
  - rewrite (get_student_miss _ _ _ _ _ reader Hreader');
      [|by apply (invalidated_students_miss lib _ now ":by_id")].
    rewrite get_student_by_id_find by done. simpl.
    rewrite (list_find_insert_same _ _ i s); [done|done|].
    destruct (setattr_loop_frame (update_kwargs student_update) s)
      as [Hid _].
    etrans; [exact Hid|]. by apply list_find_Some in Hfind as (_ & ? & _).
Qed.

(** The example of the low scores: Ivanov has 95 and is not listed; once
    his score is 10 he is, although the empty list had been cached. *)
Lemma update_then_reads_fresh_witness :
  low_first.2 = Return (JList [])
  ∧ (get_low_score_students toy_platform low_update.1 alice_header "Math" 30
       30).2
    = Return (JList [StudentManager.student_dict
                       (Student.mk 1 "Ivanov" "Ivan" "Physics" "Math" 10)])
  ∧ (get_low_score_students toy_platform low_update.1 alice_header "Math"
       (2 ^ 63) 30).2 = Raise OverflowError.
Proof.
  split; [vm_compute; reflexivity|].
  destruct (update_then_reads_fresh toy_platform low_first.1 alice_header 1
              (StudentUpdate.mk None None None None (Some 10)) 20 30
              (AuthUser.mk 1 "alice" false true)
              (AuthUser.mk 1 "alice" false true) low_update.1
              (StudentManager.student_dict
                 (Student.mk 1 "Ivanov" "Ivan" "Physics" "Math" 10)))
    as (_ & _ & Hlow & _).
  - vm_compute; reflexivity.
  - vm_compute; reflexivity.
  - vm_compute; reflexivity.
  - lia.
  - split; (etrans; [apply Hlow|]); vm_compute; reflexivity.
Defined.

(** X17. After a successful [DELETE /students/{id}],
    [GET /students/{id}] answers 404 and caches nothing, even when the
    student had been read, and so cached, before the deletion. *)
Theorem delete_then_not_found lib w authorization student_id now now'
    writer reader w' result :
  NoDup (Student.id <$> students (db w)) →
  check_read_only w authorization now = Return writer →
  delete_student w authorization student_id now = (w', Return result) →
  get_current_user w authorization now' = Return reader →
  now ≤ now' →
  get_student lib w' authorization student_id now'
  = (w', Raise (HTTPException 404 "Student not found")).
Proof.
  intros Hnd Hguard Hcall Hreader Hlater.
  destruct (delete_student_world _ _ _ _ _ _ _ Hguard Hcall)
    as (db' & Hdel & ->).
  destruct (delete_student_cases (db w) student_id)
    as [[_ Hraise]|[(_ & _ & Hnone)|(i & s & Hfit & Hfind & Htrue)]];
    [congruence|congruence|].
  rewrite Hdel in Htrue. injection Htrue as ->.
  apply list_find_Some in Hfind as (Hi & <- & _).
  pose proof (invalidated_students_miss lib
                (set_db w (mkDB (delete i (students (db w))) (users (db w))
                             (sessions (db w)))) now ":by_id"
                [("id", JInt (Student.id s))] now' Hlater) as Hmiss.
  change ("students" +:+ ":by_id") with "students:by_id" in Hmiss.
  unfold get_student.
  rewrite (get_current_user_same w _ authorization now') by done.
  rewrite Hreader. unfold depends. rewrite Hmiss.
  cbn [db invalidate_students set_redis set_db].
  rewrite get_student_by_id_find by done. cbn [students].
  by rewrite (find_after_delete_key Student.id _ i s).
Qed.

Lemma delete_then_not_found_witness :
  seen_first.2
    = Return (StudentManager.student_dict
                (Student.mk 2 "Petrov" "Petr" "Physics" "Algebra" 20))
  ∧ get_student toy_platform seen_delete.1 alice_header 2 30
    = (seen_delete.1, Raise (HTTPException 404 "Student not found")).
Proof.
  split; [vm_compute; reflexivity|].
  apply (delete_then_not_found toy_platform seen_first.1 alice_header 2 20 30
           (AuthUser.mk 1 "alice" false true)
           (AuthUser.mk 1 "alice" false true) seen_delete.1
           (JDict [("message", JStr "Student deleted successfully")])).
  - compute_done.
  - vm_compute; reflexivity.
  - vm_compute; reflexivity.
  - vm_compute; reflexivity.
  - lia.
Defined.

(** X18. For a caller who may write, an id that no student has gives
    404 "Student not found" from [PUT] and from [DELETE], and from [GET]
    when nothing is cached under the id, provided the id fits in the 64
    bits of an SQLite integer; for an id outside them the query raises
    [OverflowError] (a 500) in all three.  In each case the world is left
    as it was: no row is written, the cache is not invalidated and the miss
    is not cached. *)
Theorem unknown_id_not_found lib w authorization student_id now user :
  check_read_only w authorization now = Return user →
  student_id ∉ Student.id <$> students (db w) →
  let answer : World * outcome json :=
    (w, Raise (if bool_decide (in_int64 student_id)
               then HTTPException 404 "Student not found"
               else OverflowError)) in
  (∀ student_update,
     update_student w authorization student_id student_update now = answer)
  ∧ delete_student w authorization student_id now = answer
  ∧ (CacheManager.get (redis w)
       (CacheManager.make_cache_key lib "students:by_id"
          [("id", JInt student_id)]) now = None →
     get_student lib w authorization student_id now = answer).
Proof.
  intros Hguard Habsent answer.
  assert (list_find (λ s, Student.id s = student_id) (students (db w)) = None)
    as Hfind.
  { apply list_find_None, Forall_forall. intros s Hin Hid.
    apply Habsent. rewrite <- Hid. by apply list_elem_of_fmap_2. }
  assert (get_current_user w authorization now = Return user) as Hauth.
  { revert Hguard. unfold check_read_only.
    destruct (get_current_user w authorization now) as [u|]; [|done]. simpl.
    destruct (AuthUser.is_read_only u); [done|]. by intros [= ->]. }
  unfold answer, update_student, delete_student, get_student.
  rewrite Hguard, Hauth. unfold depends.
  unfold StudentManager.update_student, StudentManager.delete_student,
    StudentManager.get_student_by_id.
  destruct (decide (in_int64 student_id)) as [Hfit|Hbig].
  - rewrite (query_by_id_fits _ _ Hfit), (bool_decide_eq_true_2 _ Hfit), Hfind.
    split_and!; try done. by intros ->.
  - rewrite (query_by_id_overflow _ _ Hbig), (bool_decide_eq_false_2 _ Hbig).
    split_and!; try done. by intros ->.
Qed.

Lemma unknown_id_not_found_witness :
  let w := mkWorld school_db (Some ∅) [] in
  update_student w alice_header 9
    (StudentUpdate.mk None None None None (Some 1)) 50
  = (w, Raise (HTTPException 404 "Student not found"))
  ∧ get_student toy_platform w alice_header 9 50
    = (w, Raise (HTTPException 404 "Student not found"))
  ∧ delete_student w alice_header (2 ^ 63) 50 = (w, Raise OverflowError).
Proof.
  intros w.
  destruct (unknown_id_not_found toy_platform w alice_header 9 50
              (AuthUser.mk 1 "alice" false true))
    as (Hupdate & _ & Hget); [reflexivity|compute_done|].
  destruct (unknown_id_not_found toy_platform w alice_header (2 ^ 63) 50
              (AuthUser.mk 1 "alice" false true))
    as (_ & Hdelete & _); [reflexivity|compute_done|].
  split_and!; [apply Hupdate|apply Hget; reflexivity|apply Hdelete].
Defined.

Lemma forallb_is_str l : forallb is_str (JStr <$> l) = true.
Proof. by induction l. Qed.

(** X19. [GET /courses/unique] has two shapes of answer and declares
    one.  On a miss the handler returns the list of course names, which is
    the declared [List[str]], and caches a list of [{"course": name}]
    objects; within the hour the handler returns that cached list of
    objects instead, which the declared model refuses: the route then
    answers with [ResponseValidationError] (status 500) unless there is no
    course at all.  The second call changes nothing. *)
Theorem unique_courses_hit_shape lib w authorization now now' user user' m :
  get_current_user w authorization now = Return user →
  get_current_user w authorization now' = Return user' →
  redis w = Some m →
  CacheManager.get (redis w)
    (CacheManager.make_cache_key lib "courses:unique" []) now = None →
  now ≤ now' → now' < now + timedelta_seconds CacheManager.CACHE_TTL →
  let courses := StudentManager.get_unique_courses (db w) in
  let objects := JList ((λ c, JDict [("course", JStr c)]) <$> courses) in
  let first := route_unique_courses lib w authorization now in
  let second := route_unique_courses lib first.1 authorization now' in
  first.2 = Return (JList (JStr <$> courses))
  ∧ get_unique_courses lib first.1 authorization now'
    = (first.1, Return objects)
  ∧ second
    = (first.1, if bool_decide (courses = [])
                then Return (JList [])
                else Raise ResponseValidationError).
Proof.
  intros Hu Hu' Hredis Hmiss Hle Hlt courses objects first second.
  assert (first = (cache_set w (CacheManager.make_cache_key lib
                                  "courses:unique" []) objects now,
                   Return (JList (JStr <$> courses)))) as Hfirst.
  { unfold first, route_unique_courses, get_unique_courses.
    rewrite Hu, Hmiss. simpl. fold courses. by rewrite forallb_is_str. }
  assert (get_unique_courses lib first.1 authorization now'
          = (first.1, Return objects)) as Hhit.
  { rewrite Hfirst. unfold get_unique_courses.
    rewrite (get_current_user_same w _ authorization now') by done.
    rewrite Hu'. unfold depends, cache_set. simpl. rewrite Hredis. simpl.
    rewrite lookup_insert_eq. simpl.
    by rewrite bool_decide_eq_true_2. }
  split_and!; [by rewrite Hfirst|done|].
  unfold second, route_unique_courses. rewrite Hhit. f_equal.
  unfold objects. by destruct courses.
Qed.

(** On the store with the courses "Math" and "Algebra": the names, then
    an error. *)
Lemma unique_courses_hit_shape_witness :
  let w := mkWorld school_db (Some ∅) [] in
  let first := route_unique_courses toy_platform w alice_header 10 in
  first.2 = Return (JList [JStr "Math"; JStr "Algebra"])
  ∧ (get_unique_courses toy_platform first.1 alice_header 20).2
    = Return (JList [JDict [("course", JStr "Math")];
                     JDict [("course", JStr "Algebra")]])
  ∧ (route_unique_courses toy_platform first.1 alice_header 20).2
    = Raise ResponseValidationError.
Proof.
  intros w first.
  destruct (unique_courses_hit_shape toy_platform w alice_header 10 20
              (AuthUser.mk 1 "alice" false true)
              (AuthUser.mk 1 "alice" false true) ∅)
    as (Hfirst & Hhit & Hsecond).
  - reflexivity.
  - reflexivity.
  - reflexivity.
  - reflexivity.
  - lia.
  - vm_compute; reflexivity.
  - split_and!.
    + etrans; [exact Hfirst|]. vm_compute; reflexivity.
    + etrans; [exact (f_equal snd Hhit)|]. vm_compute; reflexivity.
    + etrans; [exact (f_equal snd Hsecond)|]. vm_compute; reflexivity.
Defined.

(** X20. With Redis unavailable the six read endpoints are plain reads
    of the table: each returns what the manager computes now (404 for an
    unknown student, [OverflowError] for an id or a threshold outside 64
    bits) and leaves the world as it was. *)
Theorem redis_down_pass_through lib w authorization now user :
  redis w = None →
  get_current_user w authorization now = Return user →
  get_all_students lib w authorization now
    = (w, Return (JList (StudentManager.get_all_students (db w))))
  ∧ (∀ student_id,
       get_student lib w authorization student_id now
       = (w, if bool_decide (in_int64 student_id)
             then match list_find (λ s, Student.id s = student_id)
                          (students (db w)) with
                  | Some (_, student) =>
                      Return (StudentManager.student_dict student)
                  | None => Raise (HTTPException 404 "Student not found")
                  end
             else Raise OverflowError))
  ∧ (∀ faculty,
       get_students_by_faculty lib w authorization faculty now
       = (w, Return (JList (StudentManager.get_students_by_faculty (db w)
                              faculty))))
  ∧ get_unique_courses lib w authorization now
    = (w, Return (JList (JStr <$> StudentManager.get_unique_courses (db w))))
  ∧ (∀ faculty,
       get_average_score lib w authorization faculty now
       = (w, Return (JDict [("faculty", JStr faculty);
                            ("average_score",
                             JFloat (StudentManager.get_average_score_by_faculty
                                       lib (db w) faculty))])))
  ∧ (∀ course threshold,
       get_low_score_students lib w authorization course threshold now
       = (w, if bool_decide (in_int64 threshold)
             then Return (JList (StudentManager.student_dict <$>
                            filter (λ s, Student.course s = course
                                         ∧ Student.score s < threshold)
                                   (students (db w))))
             else Raise OverflowError)).
Proof.
  intros Hredis Hu. destruct w as [db0 redis0 tasks]. simpl in Hredis.
  subst redis0.
  unfold get_all_students, get_student, get_students_by_faculty,
    get_unique_courses, get_average_score, get_low_score_students.
  rewrite Hu. simpl. split_and!; try done.
  - intros student_id. unfold StudentManager.get_student_by_id,
      StudentManager.query_by_id.
    case_bool_decide; [|done]. simpl.
    by destruct (list_find _ (students db0)) as [[]|].
  - intros course threshold.
    unfold StudentManager.get_low_score_students_by_course.
    by case_bool_decide.
Qed.

(** The courses in the order of their first student, an unknown id and an
    id of 2^63. *)
Lemma redis_down_pass_through_witness :
  let w :=
    mkWorld (mkDB (example_students
                     ++ [Student.mk 3 "Sidorov" "Sidor" "Physics" "Math" 7])
               (users example_db) (sessions example_db)) None [] in
  get_unique_courses toy_platform w alice_header 10
    = (w, Return (JList [JStr "Math"; JStr "Algebra"]))
  ∧ get_student toy_platform w alice_header 9 10
    = (w, Raise (HTTPException 404 "Student not found"))
  ∧ get_student toy_platform w alice_header (2 ^ 63) 10
    = (w, Raise OverflowError).
Proof.
  intros w.
  destruct (redis_down_pass_through toy_platform w alice_header 10
              (AuthUser.mk 1 "alice" false true) eq_refl eq_refl)
    as (_ & Hget & _ & Hcourses & _).
  split_and!; [etrans; [exact Hcourses|reflexivity]
              |etrans; [exact (Hget 9)|reflexivity]
              |etrans; [exact (Hget (2 ^ 63))|reflexivity]].
Defined.

(** ** Background tasks *)

(** X21. [POST /students/bulk-delete] answers before anything is
    deleted: for a caller who may write and a list that is not empty, the
    tables and the cache are untouched and one task is queued.  When the
    queued tasks run and every id of the list fits in 64 bits, the students
    whose id is in the list are gone (with [id] a primary key) and the
    [cache:students*] keys are invalidated; when some id does not fit, no
    student is deleted and the cache is left alone.  Either way the queue
    is then empty, and users and sessions are as before. *)
Theorem bulk_delete_deferred lib w authorization student_ids now later user :
  check_read_only w authorization now = Return user →
  student_ids ≠ [] → background_tasks w = [] →
  NoDup (Student.id <$> students (db w)) →
  let accepted := delete_students_bulk w authorization student_ids now in
  let after := run_background_tasks lib accepted.1 later in
  (∃ body, accepted.2 = Return body)
  ∧ db accepted.1 = db w ∧ redis accepted.1 = redis w
  ∧ background_tasks accepted.1 = [TaskBulkDelete student_ids]
  ∧ (Forall in_int64 student_ids →
     students (db after)
     = filter (λ s, Student.id s ∉ student_ids) (students (db w))
     ∧ redis after
       = (CacheManager.invalidate_pattern (redis w) "cache:students*" later).1)
  ∧ (¬ Forall in_int64 student_ids →
     students (db after) = students (db w) ∧ redis after = redis w)
  ∧ users (db after) = users (db w) ∧ sessions (db after) = sessions (db w)
  ∧ background_tasks after = [].
Proof.
  intros Hguard Hne Htasks Hnd. cbv zeta.
  unfold delete_students_bulk. rewrite Hguard. simpl.
  destruct student_ids as [|student_id student_ids]; [done|].
  cbn [fst snd]. unfold run_background_tasks, add_task.
  cbn [db redis background_tasks]. rewrite Htasks.
  cbn [app foldl run_task db redis background_tasks].
  unfold StudentManager.delete_students_by_ids.
  destruct (decide (Forall in_int64 (student_id :: student_ids)))
    as [Hfit|Hbig].
  - rewrite (delete_each_filter _ _ 0 Hnd Hfit). cbn [db redis users sessions
      students background_tasks fst snd].
    split_and!; eauto; done.
  - rewrite (delete_each_overflow _ _ 0 Hbig). cbn [db redis users sessions
      students background_tasks fst snd].
    split_and!; eauto; done.
Qed.

Lemma bulk_delete_deferred_witness :
  let w := mkWorld school_db (Some ∅) [] in
  let accepted := delete_students_bulk w alice_header [2; 7] 10 in
  let refused := delete_students_bulk w alice_header [1; 2 ^ 63] 10 in
  students (db accepted.1) = example_students
  ∧ students (db (run_background_tasks toy_platform accepted.1 20))
    = [Student.mk 1 "Ivanov" "Ivan" "Physics" "Math" 95]
  ∧ students (db (run_background_tasks toy_platform refused.1 20))
    = example_students.
Proof.
  intros w accepted refused.
  destruct (bulk_delete_deferred toy_platform w alice_header [2; 7] 10 20
              (AuthUser.mk 1 "alice" false true))
    as (_ & Hdb & _ & _ & Hafter & _);
    [reflexivity|discriminate|reflexivity|compute_done|].
  destruct (bulk_delete_deferred toy_platform w alice_header [1; 2 ^ 63] 10 20
              (AuthUser.mk 1 "alice" false true))
    as (_ & _ & _ & _ & _ & Hkept & _);
    [reflexivity|discriminate|reflexivity|compute_done|].
  split_and!.
  - exact (f_equal students Hdb).
  - etrans; [apply Hafter; repeat constructor; compute_done|].
    vm_compute; reflexivity.
  - etrans; [apply Hkept; compute_done|]. reflexivity.
Defined.

(** ** Every endpoint behind the bearer header *)

Lemma get_current_user_Raise w authorization now e :
  get_current_user w authorization now = Raise e →
  ∃ detail, e = HTTPException 401 detail.
Proof.
  unfold get_current_user.
  destruct authorization as [[|c header]|]; try (intros [= <-]; eauto).
  destruct (split_whitespace (String c header)) as [|scheme [|token [|x rest]]];
    try (intros [= <-]; eauto).
  case_bool_decide; [intros [= <-]; eauto|].
  destruct (AuthManager.verify_token (db w) token now); [done|].
  intros [= <-]; eauto.
Qed.

(** X22. Nothing happens without authentication: when the header does
    not authenticate, the error is a 401, and [logout], the five write
    endpoints and the six read endpoints all raise that same error and
    leave the tables, the cache and the task queue as they were. *)
Theorem unauthenticated_rejected lib w authorization now e :
  get_current_user w authorization now = Raise e →
  let rejected : World * outcome json := (w, Raise e) in
  (∃ detail, e = HTTPException 401 detail)
  ∧ logout w authorization now = rejected
  ∧ (∀ student, create_student w authorization student now = rejected)
  ∧ (∀ student_id student_update,
       update_student w authorization student_id student_update now = rejected)
  ∧ (∀ student_id, delete_student w authorization student_id now = rejected)
  ∧ (∀ csv_file, import_csv_background w authorization csv_file now = rejected)
  ∧ (∀ student_ids,
       delete_students_bulk w authorization student_ids now = rejected)
  ∧ get_all_students lib w authorization now = rejected
  ∧ (∀ student_id, get_student lib w authorization student_id now = rejected)
  ∧ (∀ faculty,
       get_students_by_faculty lib w authorization faculty now = rejected)
  ∧ get_unique_courses lib w authorization now = rejected
  ∧ route_unique_courses lib w authorization now = rejected
  ∧ (∀ faculty, get_average_score lib w authorization faculty now = rejected)
  ∧ (∀ course threshold,
       get_low_score_students lib w authorization course threshold now
       = rejected).
Proof.
  intros Hauth rejected.
  assert (check_read_only w authorization now = Raise e) as Hguard
    by (unfold check_read_only; by rewrite Hauth).
  split; [by eapply get_current_user_Raise|].
  unfold route_unique_courses.
  unfold logout, create_student, update_student, delete_student,
    import_csv_background, delete_students_bulk, get_all_students, get_student,
    get_students_by_faculty, get_unique_courses, get_average_score,
    get_low_score_students.
  rewrite Hauth, Hguard. by split_and!.
Qed.

(** A closed session, a header of one word, and a token that a no-break
    space cuts in two. *)
Lemma unauthenticated_rejected_witness :
  let w := mkWorld school_db (Some ∅) [] in
  delete_student w (Some "Bearer access-c") 1 50
    = (w, Raise (HTTPException 401 "Invalid or expired token"))
  ∧ get_all_students toy_platform w (Some "Bearer access-c") 50
    = (w, Raise (HTTPException 401 "Invalid or expired token"))
  ∧ delete_student w (Some "Bearer") 1 50
    = (w, Raise (HTTPException 401 "Invalid authorization header"))
  ∧ delete_student w
      (Some ("Bearer access" +:+ no_break_space +:+ "a")) 1 50
    = (w, Raise (HTTPException 401 "Invalid authorization header")).
Proof.
  intros w.
  destruct (unauthenticated_rejected toy_platform w (Some "Bearer access-c")
              50 (HTTPException 401 "Invalid or expired token") eq_refl)
    as (_ & _ & _ & _ & Hdelete & _ & _ & Hall & _).
  destruct (unauthenticated_rejected toy_platform w (Some "Bearer")
              50 (HTTPException 401 "Invalid authorization header") eq_refl)
    as (_ & _ & _ & _ & Hone & _).
  destruct (unauthenticated_rejected toy_platform w
              (Some ("Bearer access" +:+ no_break_space +:+ "a"))
              50 (HTTPException 401 "Invalid authorization header") eq_refl)
    as (_ & _ & _ & _ & Hthree & _).
  split_and!; [apply Hdelete|apply Hall|apply Hone|apply Hthree].
Defined.

(** ** Reading twice *)

Lemma get_after_cache_set w key items now now' m :
  redis w = Some m →
  now' < now + timedelta_seconds CacheManager.CACHE_TTL →
  CacheManager.get (redis (cache_set w key (JList items) now)) key now'
  = Some (JList items).
Proof.
  intros Hredis Hlive. unfold cache_set. simpl. rewrite Hredis. simpl.
  rewrite lookup_insert_eq. simpl. by rewrite bool_decide_eq_true_2.
Qed.

Lemma get_None_later redis key now now' :
  now ≤ now' →
  CacheManager.get redis key now = None →
  CacheManager.get redis key now' = None.
Proof.
  intros Hle. destruct redis as [m|]; [|done]. simpl.
  destruct (m !! key) as [entry|]; [|done].
  unfold CacheManager.live.
  repeat case_bool_decide; try done; lia.
Qed.

(** X23. The other read endpoints answer the same twice: when the first
    call misses the cache, a second call within the hour returns the very
    answer of the first (now from the cache, or 404 again for a student that
    does not exist) and changes nothing. *)
Theorem read_twice_same lib w authorization now now' user user' m :
  get_current_user w authorization now = Return user →
  get_current_user w authorization now' = Return user' →
  redis w = Some m →
  now ≤ now' → now' < now + timedelta_seconds CacheManager.CACHE_TTL →
  (CacheManager.get (redis w)
     (CacheManager.make_cache_key lib "students:all" []) now = None →
   let first := get_all_students lib w authorization now in
   get_all_students lib first.1 authorization now' = first)
  ∧ (∀ student_id,
       CacheManager.get (redis w)
         (CacheManager.make_cache_key lib "students:by_id"
            [("id", JInt student_id)]) now = None →
       let first := get_student lib w authorization student_id now in
       get_student lib first.1 authorization student_id now' = first)
  ∧ (∀ faculty,
       CacheManager.get (redis w)
         (CacheManager.make_cache_key lib "students:by_faculty"
            [("faculty", JStr faculty)]) now = None →
       let first := get_students_by_faculty lib w authorization faculty now in
       get_students_by_faculty lib first.1 authorization faculty now' = first)
  ∧ (∀ faculty,
       CacheManager.get (redis w)
         (CacheManager.make_cache_key lib "faculty:avg_score"
            [("faculty", JStr faculty)]) now = None →
       let first := get_average_score lib w authorization faculty now in
       get_average_score lib first.1 authorization faculty now' = first)
  ∧ (∀ course threshold,
       CacheManager.get (redis w)
         (CacheManager.make_cache_key lib "students:low_scores"
            [("course", JStr course); ("threshold", JInt threshold)]) now
       = None →
       let first :=
         get_low_score_students lib w authorization course threshold now in
       get_low_score_students lib first.1 authorization course threshold now'
       = first).
Proof.
  intros Hu Hu' Hredis Hle Hlt.
  assert (∀ key value,
            get_current_user (cache_set w key value now) authorization now'
            = Return user') as Hu2.
  { intros. by rewrite (get_current_user_same w). }
  split_and!.
  - intros Hmiss first.
    assert (first = (cache_set w _ _ now, Return _)) as ->
      by (unfold first, get_all_students; by rewrite Hu, Hmiss).
    cbn [fst]. unfold get_all_students. rewrite Hu2. unfold depends.
    by rewrite (get_after_cache_set w _ _ now now' m).
  - intros student_id Hmiss first.
    destruct (StudentManager.get_student_by_id (db w) student_id)
      as [[student|]|e] eqn:Hrow.
    + assert (first = (cache_set w _ _ now, Return student)) as ->
        by (unfold first, get_student; by rewrite Hu, Hmiss, Hrow).
      cbn [fst]. unfold get_student. rewrite Hu2. unfold depends.
      by rewrite (get_after_cache_set w _ _ now now' m).
    + assert (first = (w, Raise (HTTPException 404 "Student not found")))
        as -> by (unfold first, get_student; by rewrite Hu, Hmiss, Hrow).
      cbn [fst]. unfold get_student. rewrite Hu'. unfold depends.
      by rewrite (get_None_later _ _ now now' Hle Hmiss), Hrow.
    + assert (first = (w, Raise e))
        as -> by (unfold first, get_student; by rewrite Hu, Hmiss, Hrow).
      cbn [fst]. unfold get_student. rewrite Hu'. unfold depends.
      by rewrite (get_None_later _ _ now now' Hle Hmiss), Hrow.
  - intros faculty Hmiss first.
    assert (first = (cache_set w _ _ now, Return _)) as ->
      by (unfold first, get_students_by_faculty; by rewrite Hu, Hmiss).
    cbn [fst]. unfold get_students_by_faculty. rewrite Hu2. unfold depends.
    by rewrite (get_after_cache_set w _ _ now now' m).
  - intros faculty Hmiss first.
    assert (first = (cache_set w _ _ now, Return _)) as ->
      by (unfold first, get_average_score; by rewrite Hu, Hmiss).
    cbn [fst]. unfold get_average_score. rewrite Hu2. unfold depends.
    by rewrite (get_after_cache_set w _ _ now now' m).
  - intros course threshold Hmiss first.
    destruct (StudentManager.get_low_score_students_by_course (db w) course
                threshold) as [students|e] eqn:Hrows.
    + assert (first = (cache_set w _ _ now, Return (JList students))) as ->
        by (unfold first, get_low_score_students;
            by rewrite Hu, Hmiss, Hrows).
      cbn [fst]. unfold get_low_score_students. rewrite Hu2. unfold depends.
      by rewrite (get_after_cache_set w _ _ now now' m).
    + assert (first = (w, Raise e)) as ->
        by (unfold first, get_low_score_students;
            by rewrite Hu, Hmiss, Hrows).
      cbn [fst]. unfold get_low_score_students. rewrite Hu'. unfold depends.
      by rewrite (get_None_later _ _ now now' Hle Hmiss), Hrows.
Qed.

Lemma read_twice_same_witness :
  let w := mkWorld school_db (Some ∅) [] in
  let first := get_student toy_platform w alice_header 2 10 in
  first.2 = Return (StudentManager.student_dict
                      (Student.mk 2 "Petrov" "Petr" "Physics" "Algebra" 20))
  ∧ get_student toy_platform first.1 alice_header 2 20 = first.
Proof.
  intros w first. split; [vm_compute; reflexivity|].
  destruct (read_twice_same toy_platform w alice_header 10 20
              (AuthUser.mk 1 "alice" false true)
              (AuthUser.mk 1 "alice" false true) ∅)
    as (_ & Hget & _).
  - reflexivity.
  - reflexivity.
  - reflexivity.
  - lia.
  - vm_compute; reflexivity.
  - apply (Hget 2). reflexivity.
Defined.
